(** * Vessel telemetry ingestion: a shallow embedding and its properties

    The development follows the Go sources of the repository:

    - [internal/util]   : [SHA256Hex], [HashRow]
    - [internal/ingest] : the header mapper, the value parsers, the field
      validators, [BuildExtraJSON] and the sheet processors of [xlsx.go]
    - [internal/api]    : [EncodeCursor] / [DecodeCursor]

    Go strings are byte strings and are modelled by [string] (a list of
    8-bit characters); [int], [int64] are modelled by [Z]; [float64] by the
    kernel's binary64 floats; [*T] by [option T]; Go maps by [gmap]; the
    SQLite database by a record of tables that is threaded through the
    processors. *)

From Stdlib Require Import ZArith Ascii String List Floats Lia Bool.
From stdpp Require Import base option list gmap strings sorting.
Import ListNotations.

Local Open Scope Z_scope.

(** ** Bytes *)

Definition byte_val (c : ascii) : Z := Z.of_N (N_of_ascii c).
Definition byte_of (z : Z) : ascii := ascii_of_N (Z.to_N z).

Definition isDigit (c : ascii) : bool :=
  (48 <=? byte_val c) && (byte_val c <=? 57).

Definition digit_val (c : ascii) : Z := byte_val c - 48.
Definition digit_char (d : Z) : ascii := byte_of (48 + d).

(** ** The platform

    What the Go standard library, the excelize reader and the Go runtime
    decide, and the repository does not: Unicode tables, decimal to binary64
    conversion, JSON string quoting, the XLSX container format and the
    order in which [range] visits a map. *)

(** A workbook as excelize exposes it: the sheet list in order, and for each
    sheet what [GetRows] returns ([None] when it returns an error). *)
Record Workbook := {
  wb_sheets : list (string * option (list (list string)))
}.

Class Platform := {
  (** [strings.Map(unicode.ToLower, s)], used by [strings.ToLower] when [s]
      holds a byte outside ASCII *)
  unicode_ToLower : string -> string;
  (** [strings.TrimFunc(s, unicode.IsSpace)] *)
  unicode_TrimSpace : string -> string;
  (** [strings.TrimRightFunc(s, unicode.IsSpace)] *)
  unicode_TrimRightSpace : string -> string;
  (** [strconv.ParseFloat(s, 64)]; [None] is a non-nil error *)
  strconv_ParseFloat : string -> option float;
  (** the JSON encoding of a Go string, quotes included *)
  json_quote : string -> string;
  (** [excelize.OpenReader] on the bytes of a file; [None] is an error *)
  excelize_OpenReader : string -> option Workbook;
  (** the order in which the n-th [range] over a map of the run visits the
      entries of the map *)
  map_range : nat -> list (string * string) -> list (string * string)
}.

(** ** Package [strings] *)

Module GoStrings.

Definition isASCII (s : string) : bool :=
  forallb (fun c => byte_val c <? 128) (list_ascii_of_string s).

Definition lowerByte (c : ascii) : ascii :=
  if (65 <=? byte_val c) && (byte_val c <=? 90)
  then byte_of (byte_val c + 32) else c.

Fixpoint mapBytes (f : ascii -> ascii) (s : string) : string :=
  match s with
  | EmptyString => EmptyString
  | String c s' => String (f c) (mapBytes f s')
  end.

(** [strings.ToLower]: bytewise on an ASCII string, Unicode aware
    otherwise. *)
Definition ToLower `{Platform} (s : string) : string :=
  if isASCII s then mapBytes lowerByte s else unicode_ToLower s.

(** [strings.Contains(s, substr)] *)
Fixpoint Contains (s substr : string) : bool :=
  String.prefix substr s ||
  match s with
  | EmptyString => false
  | String _ s' => Contains s' substr
  end.

(** [strings.ReplaceAll(s, old, new)] for a non-empty [old]: occurrences
    are replaced from the left and do not overlap. [skip] counts the bytes
    of a matched occurrence still to be dropped. *)
Fixpoint replace_go (s : string) (skip : nat) (old new : string) : string :=
  match s with
  | EmptyString => EmptyString
  | String c s' =>
      match skip with
      | S k => replace_go s' k old new
      | O =>
          if String.prefix old s
          then new +:+ replace_go s' (String.length old - 1) old new
          else String c (replace_go s' O old new)
      end
  end.

Definition ReplaceAll (s old new : string) : string :=
  if String.eqb old "" then s else replace_go s O old new.

Definition asciiSpace (c : ascii) : bool :=
  let v := byte_val c in
  (v =? 9) || (v =? 10) || (v =? 11) || (v =? 12) || (v =? 13) || (v =? 32).

(** The second loop of [TrimSpace], on the reversed remainder. *)
Fixpoint trimRight_go `{Platform} (r : string) : string :=
  match r with
  | EmptyString => EmptyString
  | String c r' =>
      if 128 <=? byte_val c then unicode_TrimRightSpace (String.rev r)
      else if asciiSpace c then trimRight_go r'
      else String.rev r
  end.

(** [strings.TrimSpace]: the ASCII fast path, falling back to the Unicode
    aware functions on the first byte outside ASCII. *)
Fixpoint TrimSpace `{Platform} (s : string) : string :=
  match s with
  | EmptyString => EmptyString
  | String c s' =>
      if 128 <=? byte_val c then unicode_TrimSpace s
      else if asciiSpace c then TrimSpace s'
      else trimRight_go (String.rev s)
  end.

(** [strings.Join] *)
Fixpoint Join (elems : list string) (sep : string) : string :=
  match elems with
  | [] => ""
  | [x] => x
  | x :: rest => x +:+ sep +:+ Join rest sep
  end.

(** [strings.Split(s, sep)] for a non-empty [sep]. *)
Fixpoint split_go (s : string) (skip : nat) (sep : string) : list string :=
  match s with
  | EmptyString => [""]
  | String c s' =>
      match skip with
      | S k => split_go s' k sep
      | O =>
          if String.prefix sep s
          then "" :: split_go s' (String.length sep - 1) sep
          else match split_go s' O sep with
               | h :: t => String c h :: t
               | [] => [String c ""]
               end
      end
  end.

Definition Split (s sep : string) : list string := split_go s O sep.

End GoStrings.

(** ** Package [strconv] and [fmt]'s [%d] *)

Module Strconv.

Inductive NumError := ErrSyntax | ErrRange.

Definition maxUint64 : Z := 2 ^ 64 - 1.

(** The digit loop of [ParseUint(s, 10, 64)]. *)
Fixpoint parseUint_go (s : string) (n : Z) : NumError + Z :=
  match s with
  | EmptyString => inr n
  | String c s' =>
      if isDigit c then
        if maxUint64 / 10 + 1 <=? n then inl ErrRange
        else
          let n1 := n * 10 + digit_val c in
          if maxUint64 <? n1 then inl ErrRange else parseUint_go s' n1
      else inl ErrSyntax
  end.

Definition ParseUint (s : string) : NumError + Z :=
  match s with
  | EmptyString => inl ErrSyntax
  | _ => parseUint_go s 0
  end.

(** [strconv.ParseInt(s, 10, 64)] *)
Definition ParseInt (s : string) : NumError + Z :=
  match s with
  | EmptyString => inl ErrSyntax
  | String c s' =>
      let neg := Ascii.eqb c "-"%char in
      let body := if Ascii.eqb c "+"%char || neg then s' else s in
      match ParseUint body with
      | inl e => inl e
      | inr un =>
          if negb neg && (2 ^ 63 <=? un) then inl ErrRange
          else if neg && (2 ^ 63 <? un) then inl ErrRange
          else inr (if neg then - un else un)
      end
  end.

(** [strconv.Atoi] on a 64-bit platform *)
Definition Atoi (s : string) : NumError + Z := ParseInt s.

Fixpoint digits_go (fuel : nat) (n : Z) (acc : string) : string :=
  match fuel with
  | O => acc
  | S f =>
      let acc' := String (digit_char (n mod 10)) acc in
      if n / 10 =? 0 then acc' else digits_go f (n / 10) acc'
  end.

(** The decimal digits of a natural number. *)
Definition formatUint (n : Z) : string :=
  digits_go (S (Z.to_nat (Z.log2 n))) n "".

(** [fmt.Sprintf("%d", x)] *)
Definition FormatInt (x : Z) : string :=
  if x <? 0 then String "-"%char (formatUint (- x)) else formatUint x.

End Strconv.

(** ** Package [time]

    A [Time] is a wall-clock reading together with the offset of its zone
    east of UTC, in seconds: what [Date], [Clock], [Nanosecond] and [Zone]
    return. Zone names are not modelled. *)

Module GoTime.

Record Time := Date {
  year : Z; month : Z; day : Z;
  hour : Z; minute : Z; second : Z;
  nsec : Z;
  offset : Z
}.

(** [time.Time{}]: January 1, year 1, 00:00:00 UTC *)
Definition zero : Time := Date 1 1 1 0 0 0 0 0.

Definition isLeap (y : Z) : bool :=
  (y mod 4 =? 0) && (negb (y mod 100 =? 0) || (y mod 400 =? 0)).

Definition daysIn (m y : Z) : Z :=
  if (m =? 2) && isLeap y then 29
  else match m with
       | 1 | 3 | 5 | 7 | 8 | 10 | 12 => 31
       | 4 | 6 | 9 | 11 => 30
       | 2 => 28
       | _ => 0
       end.

(** The readings a Go [Time] can give. *)
Definition wf (t : Time) : Prop :=
  1 <= month t <= 12 /\ 1 <= day t <= daysIn (month t) (year t) /\
  0 <= hour t < 24 /\ 0 <= minute t < 60 /\ 0 <= second t < 60 /\
  0 <= nsec t < 1000000000.

(** *** Formatting *)

Fixpoint zeros (n : nat) : string :=
  match n with O => "" | S k => String "0"%char (zeros k) end.

(** [appendInt(b, x, width)]: the decimal form of [x], zero padded to at
    least [width] digits, after a minus sign when [x] is negative. *)
Definition appendInt (x : Z) (width : nat) : string :=
  let u := Z.abs x in
  let ds := Strconv.formatUint u in
  (if x <? 0 then "-" else "") +:+
  zeros (width - String.length ds) +:+ ds.

(** [t.Format(time.RFC3339)] *)
Definition FormatRFC3339 (t : Time) : string :=
  appendInt (year t) 4 +:+ "-" +:+ appendInt (month t) 2 +:+ "-" +:+
  appendInt (day t) 2 +:+ "T" +:+
  appendInt (hour t) 2 +:+ ":" +:+ appendInt (minute t) 2 +:+ ":" +:+
  appendInt (second t) 2 +:+
  (if offset t =? 0 then "Z"
   else
     let zone := Z.quot (offset t) 60 in
     (if zone <? 0 then "-" else "+") +:+
     appendInt (Z.quot (Z.abs zone) 60) 2 +:+ ":" +:+
     appendInt (Z.rem (Z.abs zone) 60) 2).

(** *** Parsing *)

(** The elements of a layout that occur in the layouts of this program. *)
Inductive Std :=
| stdLongYear          (* 2006 *)
| stdZeroMonth         (* 01 *)
| stdZeroDay           (* 02 *)
| stdHour              (* 15 *)
| stdZeroMinute        (* 04 *)
| stdZeroSecond        (* 05 *)
| stdISO8601ColonTZ.   (* Z07:00 *)

(** A layout as [nextStdChunk] cuts it: literal text before each element,
    and the literal text after the last one. *)
Record Layout := {
  chunks : list (string * Std);
  trailer : string
}.

(** "2006-01-02T15:04:05Z07:00" *)
Definition RFC3339 : Layout :=
  {| chunks := [("", stdLongYear); ("-", stdZeroMonth); ("-", stdZeroDay);
                ("T", stdHour); (":", stdZeroMinute); (":", stdZeroSecond);
                ("", stdISO8601ColonTZ)];
     trailer := "" |}.
(** "2006-01-02T15:04:05" *)
Definition layoutDateTimeT : Layout :=
  {| chunks := [("", stdLongYear); ("-", stdZeroMonth); ("-", stdZeroDay);
                ("T", stdHour); (":", stdZeroMinute); (":", stdZeroSecond)];
     trailer := "" |}.
(** "2006-01-02 15:04:05" *)
Definition layoutDateTime : Layout :=
  {| chunks := [("", stdLongYear); ("-", stdZeroMonth); ("-", stdZeroDay);
                (" ", stdHour); (":", stdZeroMinute); (":", stdZeroSecond)];
     trailer := "" |}.
(** "2006-01-02T15:04" *)
Definition layoutDateMinuteT : Layout :=
  {| chunks := [("", stdLongYear); ("-", stdZeroMonth); ("-", stdZeroDay);
                ("T", stdHour); (":", stdZeroMinute)];
     trailer := "" |}.
(** "2006-01-02 15:04" *)
Definition layoutDateMinute : Layout :=
  {| chunks := [("", stdLongYear); ("-", stdZeroMonth); ("-", stdZeroDay);
                (" ", stdHour); (":", stdZeroMinute)];
     trailer := "" |}.
(** "2006-01-02" *)
Definition layoutDate : Layout :=
  {| chunks := [("", stdLongYear); ("-", stdZeroMonth); ("-", stdZeroDay)];
     trailer := "" |}.
(** "15:04:05" *)
Definition layoutClock : Layout :=
  {| chunks := [("", stdHour); (":", stdZeroMinute); (":", stdZeroSecond)];
     trailer := "" |}.
(** "15:04" *)
Definition layoutHourMinute : Layout :=
  {| chunks := [("", stdHour); (":", stdZeroMinute)];
     trailer := "" |}.

Fixpoint cutspace (s : string) : string :=
  match s with
  | String " " s' => cutspace s'
  | _ => s
  end.

(** [skip(value, prefix)]: a space of the layout stands for any number of
    spaces of the value, every other byte for itself. [fuel] bounds the
    length of [prefix]. *)
Fixpoint skip_go (fuel : nat) (value prefix : string) : option string :=
  match prefix with
  | EmptyString => Some value
  | String p prefix' =>
      match fuel with
      | O => None
      | S fuel' =>
          if Ascii.eqb p " " then
            match value with
            | String v _ =>
                if Ascii.eqb v " "
                then skip_go fuel' (cutspace value) (cutspace prefix)
                else None
            | EmptyString => skip_go fuel' (cutspace value) (cutspace prefix)
            end
          else
            match value with
            | String v value' =>
                if Ascii.eqb v p then skip_go fuel' value' prefix' else None
            | EmptyString => None
            end
      end
  end.

Definition skip (value prefix : string) : option string :=
  skip_go (String.length prefix) value prefix.

(** [getnum(s, fixed)]: one or two digits, exactly two when [fixed]. *)
Definition getnum (s : string) (fixed : bool) : option (Z * string) :=
  match s with
  | String a s1 =>
      if isDigit a then
        match s1 with
        | String b s2 =>
            if isDigit b then Some (digit_val a * 10 + digit_val b, s2)
            else if fixed then None else Some (digit_val a, s1)
        | EmptyString => if fixed then None else Some (digit_val a, s1)
        end
      else None
  | EmptyString => None
  end.

(** The value of a string of digits ([atoi] on such a string). *)
Fixpoint digitsValue (s : string) (acc : Z) : option Z :=
  match s with
  | EmptyString => Some acc
  | String c s' =>
      if isDigit c then digitsValue s' (acc * 10 + digit_val c) else None
  end.

(** The digits at the head of [s] and what follows them. *)
Fixpoint spanDigits (s : string) : string * string :=
  match s with
  | String c s' =>
      if isDigit c
      then let '(d, r) := spanDigits s' in (String c d, r)
      else (EmptyString, s)
  | EmptyString => (EmptyString, EmptyString)
  end.

Definition commaOrPeriod (c : ascii) : bool :=
  Ascii.eqb c "." || Ascii.eqb c ",".

(** [parseNanoseconds] on the digits that follow the separator: at most
    nine are read, and the value is scaled to nanoseconds. *)
Definition parseNanoseconds (digits : string) : option Z :=
  let kept := String.substring 0 9 digits in
  match digitsValue kept 0 with
  | Some ns => Some (ns * 10 ^ (9 - Z.of_nat (String.length kept)))
  | None => None
  end.

(** The fields [parse] fills in while it walks the layout. *)
Record Fields := {
  f_year : Z; f_month : Z; f_day : Z;
  f_hour : Z; f_min : Z; f_sec : Z; f_nsec : Z;
  f_utc : bool;            (* the value said "Z" *)
  f_zoneOffset : Z         (* -1 until an offset is read *)
}.

Definition fields0 : Fields :=
  {| f_year := 0; f_month := -1; f_day := -1;
     f_hour := 0; f_min := 0; f_sec := 0; f_nsec := 0;
     f_utc := false; f_zoneOffset := -1 |}.

(** One element of the layout read off the value; [None] is an error
    (bad syntax or a value out of range). *)
Definition parseStd (std : Std) (f : Fields) (value : string)
  : option (Fields * string) :=
  match std with
  | stdLongYear =>
      match value with
      | String a (String b (String c (String d rest))) =>
          match digitsValue (String a (String b (String c (String d "")))) 0 with
          | Some y =>
              Some ({| f_year := y; f_month := f_month f; f_day := f_day f;
                       f_hour := f_hour f; f_min := f_min f; f_sec := f_sec f;
                       f_nsec := f_nsec f; f_utc := f_utc f;
                       f_zoneOffset := f_zoneOffset f |}, rest)
          | None => None
          end
      | _ => None
      end
  | stdZeroMonth =>
      match getnum value true with
      | Some (m, rest) =>
          if (m <=? 0) || (12 <? m) then None
          else Some ({| f_year := f_year f; f_month := m; f_day := f_day f;
                        f_hour := f_hour f; f_min := f_min f; f_sec := f_sec f;
                        f_nsec := f_nsec f; f_utc := f_utc f;
                        f_zoneOffset := f_zoneOffset f |}, rest)
      | None => None
      end
  | stdZeroDay =>
      match getnum value true with
      | Some (d, rest) =>
          Some ({| f_year := f_year f; f_month := f_month f; f_day := d;
                   f_hour := f_hour f; f_min := f_min f; f_sec := f_sec f;
                   f_nsec := f_nsec f; f_utc := f_utc f;
                   f_zoneOffset := f_zoneOffset f |}, rest)
      | None => None
      end
  | stdHour =>
      match getnum value false with
      | Some (h, rest) =>
          if (h <? 0) || (24 <=? h) then None
          else Some ({| f_year := f_year f; f_month := f_month f; f_day := f_day f;
                        f_hour := h; f_min := f_min f; f_sec := f_sec f;
                        f_nsec := f_nsec f; f_utc := f_utc f;
                        f_zoneOffset := f_zoneOffset f |}, rest)
      | None => None
      end
  | stdZeroMinute =>
      match getnum value true with
      | Some (m, rest) =>
          if (m <? 0) || (60 <=? m) then None
          else Some ({| f_year := f_year f; f_month := f_month f; f_day := f_day f;
                        f_hour := f_hour f; f_min := m; f_sec := f_sec f;
                        f_nsec := f_nsec f; f_utc := f_utc f;
                        f_zoneOffset := f_zoneOffset f |}, rest)
      | None => None
      end
  | stdZeroSecond =>
      match getnum value true with
      | Some (s, rest) =>
          if (s <? 0) || (60 <=? s) then None
          else
            let set ns r :=
              Some ({| f_year := f_year f; f_month := f_month f; f_day := f_day f;
                       f_hour := f_hour f; f_min := f_min f; f_sec := s;
                       f_nsec := ns; f_utc := f_utc f;
                       f_zoneOffset := f_zoneOffset f |}, r) in
            (* a fractional second in the value although the layout has
               none: it is read all the same *)
            match rest with
            | String p (String d rest') =>
                if commaOrPeriod p && isDigit d then
                  let '(ds, r) := spanDigits (String d rest') in
                  match parseNanoseconds ds with
                  | Some ns => set ns r
                  | None => None
                  end
                else set (f_nsec f) rest
            | _ => set (f_nsec f) rest
            end
      | None => None
      end
  | stdISO8601ColonTZ =>
      match value with
      | String "Z" rest =>
          Some ({| f_year := f_year f; f_month := f_month f; f_day := f_day f;
                   f_hour := f_hour f; f_min := f_min f; f_sec := f_sec f;
                   f_nsec := f_nsec f; f_utc := true;
                   f_zoneOffset := f_zoneOffset f |}, rest)
      | String sign (String h1 (String h2 (String colon (String m1 (String m2 rest))))) =>
          if negb (Ascii.eqb colon ":") then None
          else
            match getnum (String h1 (String h2 "")) true,
                  getnum (String m1 (String m2 "")) true with
            | Some (hr, _), Some (mm, _) =>
                if (24 <? hr) || (60 <? mm) then None
                else
                  let zo := (hr * 60 + mm) * 60 in
                  let set z :=
                    Some ({| f_year := f_year f; f_month := f_month f;
                             f_day := f_day f; f_hour := f_hour f;
                             f_min := f_min f; f_sec := f_sec f;
                             f_nsec := f_nsec f; f_utc := f_utc f;
                             f_zoneOffset := z |}, rest) in
                  if Ascii.eqb sign "+" then set zo
                  else if Ascii.eqb sign "-" then set (- zo)
                  else None
            | _, _ => None
            end
      | _ => None
      end
  end.

Fixpoint parseChunks (cs : list (string * Std)) (f : Fields) (value : string)
  : option (Fields * string) :=
  match cs with
  | [] => Some (f, value)
  | (prefix, std) :: cs' =>
      match skip value prefix with
      | Some value1 =>
          match parseStd std f value1 with
          | Some (f', value2) => parseChunks cs' f' value2
          | None => None
          end
      | None => None
      end
  end.

(** [time.Parse(layout, value)]; [None] is a non-nil error. Fields the
    layout does not have keep their defaults: year 0, January, day 1,
    midnight, UTC. *)
Definition Parse (layout : Layout) (value : string) : option Time :=
  match parseChunks (chunks layout) fields0 value with
  | Some (f, value1) =>
      match skip value1 (trailer layout) with
      | Some EmptyString =>
          let m := if f_month f <? 0 then 1 else f_month f in
          let d := if f_day f <? 0 then 1 else f_day f in
          if (d <? 1) || (daysIn m (f_year f) <? d) then None
          else
            let off :=
              if f_utc f then 0
              else if f_zoneOffset f =? -1 then 0
              else f_zoneOffset f in
            Some (Date (f_year f) m d (f_hour f) (f_min f) (f_sec f)
                       (f_nsec f) off)
      | _ => None
      end
  | None => None
  end.

End GoTime.

(** ** Package [encoding/base64], [StdEncoding] *)

Module Base64.

Definition encodeStd : string :=
  "ABCDEFGHIJKLMNOPQRSTUVWXYZabcdefghijklmnopqrstuvwxyz0123456789+/".

Definition padChar : ascii := "="%char.

(** [encodeStd[i]] *)
Definition enc (i : Z) : ascii :=
  match String.get (Z.to_nat i) encodeStd with
  | Some c => c
  | None => padChar
  end.

Fixpoint index_of (c : ascii) (s : string) (i : Z) : option Z :=
  match s with
  | EmptyString => None
  | String d s' => if Ascii.eqb c d then Some i else index_of c s' (i + 1)
  end.

(** The decode map: the position of a byte in the alphabet. *)
Definition dec (c : ascii) : option Z := index_of c encodeStd 0.

Definition quantum (b0 b1 b2 : Z) : Z :=
  Z.lor (Z.lor (Z.shiftl b0 16) (Z.shiftl b1 8)) b2.

Definition sextet (val : Z) (shift : Z) : ascii :=
  enc (Z.land (Z.shiftr val shift) 63).

Fixpoint encode_go (src : string) : string :=
  match src with
  | String b0 (String b1 (String b2 rest)) =>
      let val := quantum (byte_val b0) (byte_val b1) (byte_val b2) in
      String (sextet val 18) (String (sextet val 12)
        (String (sextet val 6) (String (sextet val 0) (encode_go rest))))
  | String b0 (String b1 EmptyString) =>
      let val := quantum (byte_val b0) (byte_val b1) 0 in
      String (sextet val 18) (String (sextet val 12)
        (String (sextet val 6) (String padChar EmptyString)))
  | String b0 EmptyString =>
      let val := quantum (byte_val b0) 0 0 in
      String (sextet val 18) (String (sextet val 12)
        (String padChar (String padChar EmptyString)))
  | EmptyString => EmptyString
  end.

(** [base64.StdEncoding.EncodeToString] *)
Definition EncodeToString (src : string) : string := encode_go src.

Definition isNewline (c : ascii) : bool :=
  Ascii.eqb c "010" || Ascii.eqb c "013".

(** The decoder skips carriage returns and line feeds wherever they are. *)
Fixpoint dropNewlines (s : string) : string :=
  match s with
  | EmptyString => EmptyString
  | String c s' =>
      if isNewline c then dropNewlines s' else String c (dropNewlines s')
  end.

Definition assemble (x0 x1 x2 x3 : Z) : Z :=
  Z.lor (Z.lor (Z.lor (Z.shiftl x0 18) (Z.shiftl x1 12)) (Z.shiftl x2 6)) x3.

Definition octet (val : Z) (shift : Z) : ascii :=
  byte_of (Z.land (Z.shiftr val shift) 255).

(** Quanta of four bytes; padding closes the input. *)
Fixpoint decode_go (src : string) : option string :=
  match src with
  | EmptyString => Some EmptyString
  | String a (String b (String c (String d rest))) =>
      match dec a, dec b with
      | Some x0, Some x1 =>
          if Ascii.eqb c padChar then
            if Ascii.eqb d padChar then
              match rest with
              | EmptyString =>
                  Some (String (octet (assemble x0 x1 0 0) 16) EmptyString)
              | _ => None
              end
            else None
          else
            match dec c with
            | Some x2 =>
                if Ascii.eqb d padChar then
                  match rest with
                  | EmptyString =>
                      let val := assemble x0 x1 x2 0 in
                      Some (String (octet val 16)
                              (String (octet val 8) EmptyString))
                  | _ => None
                  end
                else
                  match dec d with
                  | Some x3 =>
                      match decode_go rest with
                      | Some out =>
                          let val := assemble x0 x1 x2 x3 in
                          Some (String (octet val 16) (String (octet val 8)
                                  (String (octet val 0) out)))
                      | None => None
                      end
                  | None => None
                  end
            | None => None
            end
      | _, _ => None
      end
  | _ => None
  end.

(** [base64.StdEncoding.DecodeString]; [None] is a [CorruptInputError]. *)
Definition DecodeString (s : string) : option string :=
  decode_go (dropNewlines s).

End Base64.

(** ** Package [crypto/sha256] and [encoding/hex] *)

Module Sha256.

Definition mask32 : Z := 4294967295.
Definition add32 (a b : Z) : Z := Z.land (a + b) mask32.
Definition rotr (x n : Z) : Z :=
  Z.land (Z.lor (Z.shiftr x n) (Z.shiftl x (32 - n))) mask32.
Definition not32 (x : Z) : Z := Z.lxor x mask32.

Definition isPrime (n : Z) : bool :=
  forallb (fun d => negb (n mod d =? 0))
          (map Z.of_nat (seq 2 (Z.to_nat n - 2))).

(** The first 64 primes: 2, 3, 5, ..., 311. *)
Definition primes : list Z :=
  Eval vm_compute in filter (fun n => isPrime n = true) (map Z.of_nat (seq 2 310)).

(** The integer cube root, one bit at a time from bit [bits - 1] down. *)
Fixpoint icbrt_go (bits : nat) (n r : Z) : Z :=
  match bits with
  | O => r
  | S k =>
      let r' := r + 2 ^ Z.of_nat k in
      icbrt_go k n (if r' * r' * r' <=? n then r' else r)
  end.

Definition icbrt (n : Z) : Z := icbrt_go 40 n 0.

(** The round constants: the first 32 bits of the fractional parts of the
    cube roots of the first 64 primes. *)
Definition K : list Z :=
  Eval vm_compute in map (fun p => icbrt (p * 2 ^ 96) mod 2 ^ 32) primes.

(** The initial hash value: the first 32 bits of the fractional parts of
    the square roots of the first 8 primes. *)
Definition init : list Z :=
  Eval vm_compute in
    map (fun p => Z.sqrt (p * 2 ^ 64) mod 2 ^ 32) (firstn 8 primes).

Definition word (b0 b1 b2 b3 : Z) : Z :=
  Z.lor (Z.lor (Z.lor (Z.shiftl b0 24) (Z.shiftl b1 16)) (Z.shiftl b2 8)) b3.

(** Big-endian words of a byte list whose length is a multiple of four. *)
Fixpoint words (bs : list Z) : list Z :=
  match bs with
  | b0 :: b1 :: b2 :: b3 :: rest => word b0 b1 b2 b3 :: words rest
  | _ => []
  end.

(** The message schedule, most recent word first: [rw] holds
    w[i-1], w[i-2], ... *)
Fixpoint schedule (n : nat) (rw : list Z) : list Z :=
  match n with
  | O => rw
  | S k =>
      let v1 := nth 1 rw 0 in
      let t1 := Z.lxor (Z.lxor (rotr v1 17) (rotr v1 19)) (Z.shiftr v1 10) in
      let v2 := nth 14 rw 0 in
      let t2 := Z.lxor (Z.lxor (rotr v2 7) (rotr v2 18)) (Z.shiftr v2 3) in
      let w := add32 (add32 (add32 t1 (nth 6 rw 0)) t2) (nth 15 rw 0) in
      schedule k (w :: rw)
  end.

Definition State : Type := Z * Z * Z * Z * Z * Z * Z * Z.

Definition round (st : State) (kw : Z * Z) : State :=
  let '(a, b, c, d, e, f, g, h) := st in
  let '(k, w) := kw in
  let t1 :=
    add32 (add32 (add32 (add32 h
      (Z.lxor (Z.lxor (rotr e 6) (rotr e 11)) (rotr e 25)))
      (Z.lxor (Z.land e f) (Z.land (not32 e) g))) k) w in
  let t2 :=
    add32 (Z.lxor (Z.lxor (rotr a 2) (rotr a 13)) (rotr a 22))
          (Z.lxor (Z.lxor (Z.land a b) (Z.land a c)) (Z.land b c)) in
  (add32 t1 t2, a, b, c, add32 d t1, e, f, g).

Definition block (hs : State) (chunk : list Z) : State :=
  let w := rev (schedule 48 (rev (words chunk))) in
  let '(a, b, c, d, e, f, g, h) := fold_left round (combine K w) hs in
  let '(h0, h1, h2, h3, h4, h5, h6, h7) := hs in
  (add32 h0 a, add32 h1 b, add32 h2 c, add32 h3 d,
   add32 h4 e, add32 h5 f, add32 h6 g, add32 h7 h).

Fixpoint blocks (fuel : nat) (hs : State) (bs : list Z) : State :=
  match fuel with
  | O => hs
  | S k =>
      match bs with
      | [] => hs
      | _ => blocks k (block hs (firstn 64 bs)) (skipn 64 bs)
      end
  end.

Definition be64 (n : Z) : list Z :=
  map (fun i => Z.land (Z.shiftr n (8 * i)) 255) [7; 6; 5; 4; 3; 2; 1; 0].

(** The message followed by 0x80, zeros up to 56 modulo 64, and the bit
    length on eight bytes. *)
Definition pad (bs : list Z) : list Z :=
  let len := Z.of_nat (length bs) in
  bs ++ [128] ++ repeat 0 (Z.to_nat ((55 - len) mod 64)) ++ be64 (8 * len).

Definition be32 (w : Z) : list Z :=
  map (fun i => Z.land (Z.shiftr w (8 * i)) 255) [3; 2; 1; 0].

Definition initState : State :=
  match init with
  | [h0; h1; h2; h3; h4; h5; h6; h7] => (h0, h1, h2, h3, h4, h5, h6, h7)
  | _ => (0, 0, 0, 0, 0, 0, 0, 0)
  end.

(** [sha256.Sum256] *)
Definition Sum256 (data : list Z) : list Z :=
  let p := pad data in
  let '(h0, h1, h2, h3, h4, h5, h6, h7) := blocks (length p) initState p in
  concat (map be32 [h0; h1; h2; h3; h4; h5; h6; h7]).

Definition hextable : string := "0123456789abcdef".

Definition hexdigit (n : Z) : ascii :=
  match String.get (Z.to_nat n) hextable with
  | Some c => c
  | None => "0"%char
  end.

(** [hex.EncodeToString] *)
Fixpoint hexEncode (bs : list Z) : string :=
  match bs with
  | [] => EmptyString
  | b :: rest =>
      String (hexdigit (Z.shiftr b 4))
        (String (hexdigit (Z.land b 15)) (hexEncode rest))
  end.

End Sha256.

(** ** Package [internal/util] *)

Module Util.

(** [SHA256Hex] *)
Definition SHA256Hex (data : string) : string :=
  Sha256.hexEncode
    (Sha256.Sum256 (map byte_val (list_ascii_of_string data))).

(** [sort.Strings]: ascending in the bytewise order of Go strings. Equal
    strings are indistinguishable, so every sorting algorithm returns the
    same slice. *)
Definition sortStrings (keys : list string) : list string :=
  merge_sort String.le keys.

(** [HashRow] *)
Definition HashRow (vesselID : Z) (ts : GoTime.Time) (stream : string)
    (keys : list string) : string :=
  let keys := sortStrings keys in
  let parts :=
    [stream; Strconv.FormatInt vesselID; GoTime.FormatRFC3339 ts] in
  let parts := parts ++ keys in
  let combined := GoStrings.Join parts "|" in
  SHA256Hex combined.

End Util.

(** ** Errors

    A Go [error] value; [None] at type [option error] is [nil]. *)

Inductive error :=
| Errorf (msg : string)              (* fmt.Errorf *)
| NumError (e : Strconv.NumError)    (* strconv.Atoi *)
| FloatError                         (* strconv.ParseFloat *)
| SqlError (msg : string).           (* an error of the SQLite driver *)

(** [err.Error()], for the errors whose text the program prints. *)
Definition error_text (e : error) : string :=
  match e with
  | Errorf msg | SqlError msg => msg
  | NumError Strconv.ErrSyntax => "invalid syntax"
  | NumError Strconv.ErrRange => "value out of range"
  | FloatError => "invalid syntax"
  end.

(** ** Package [internal/ingest]: [mapper.go] *)

Module Mapper.
Section WithPlatform.
Context `{Platform}.

Import GoTime.

(** [HeaderMapper]: normalized header -> original header *)
Record HeaderMapper := { headers : gmap string string }.

(** [normalizeHeader] *)
Definition normalizeHeader (header : string) : string :=
  let h := GoStrings.TrimSpace (GoStrings.ToLower header) in
  let h := GoStrings.ReplaceAll h " " "_" in
  let h := GoStrings.ReplaceAll h "-" "_" in
  h.

(** [NewHeaderMapper]: a later header overwrites an earlier one with the
    same normalized form. *)
Definition NewHeaderMapper (hs : list string) : HeaderMapper :=
  {| headers :=
       fold_left (fun m h => <[normalizeHeader h := h]> m) hs ∅ |}.

(** [FindHeader]. [n] counts the [range] loops over maps run so far; the
    substring scan visits the map in the order [map_range n] gives. *)
Fixpoint FindHeader (hm : HeaderMapper) (patterns : list string) (n : nat)
  : string * bool * nat :=
  match patterns with
  | [] => ("", false, n)
  | pattern :: rest =>
      match headers hm !! pattern with
      | Some original => (original, true, n)
      | None =>
          match find (fun kv => GoStrings.Contains (fst kv) pattern)
                     (map_range n (map_to_list (headers hm))) with
          | Some (_, original) => (original, true, S n)
          | None => FindHeader hm rest (S n)
          end
      end
  end.

Definition timestampPatterns : list string :=
  ["timestamp"; "ts"; "time"; "date"; "datetime";
   "date_time"; "time_stamp"; "record_time"; "log_time";
   "created_at"; "recorded_at"; "sample_time"; "measurement_time";
   "utc"; "local_time"; "system_time"; "event_time"].

(** [FindTimestampHeader] *)
Definition FindTimestampHeader (hm : HeaderMapper) (n : nat)
  : string * bool * nat :=
  FindHeader hm timestampPatterns n.

(** [ParseFloat] *)
Definition ParseFloat (s : string) : option float * option error :=
  if String.eqb s "" then (None, None)
  else
    match strconv_ParseFloat (GoStrings.TrimSpace s) with
    | Some val => (Some val, None)
    | None => (None, Some FloatError)
    end.

(** [ParseInt] *)
Definition ParseInt (s : string) : option Z * option error :=
  if String.eqb s "" then (None, None)
  else
    match Strconv.Atoi (GoStrings.TrimSpace s) with
    | inr val => (Some val, None)
    | inl e => (None, Some (NumError e))
    end.

Definition timestampFormats : list Layout :=
  [RFC3339; layoutDateTimeT; layoutDateTime; layoutDateMinuteT;
   layoutDateMinute; layoutDate; layoutClock; layoutHourMinute].

(** The loop of [ParseTimestamp] over the formats. *)
Fixpoint firstParse (formats : list Layout) (s : string) : option Time :=
  match formats with
  | [] => None
  | format :: rest =>
      match Parse format s with
      | Some t => Some t
      | None => firstParse rest s
      end
  end.

(** [ParseTimestamp] *)
Definition ParseTimestamp (s : string) : Time * option error :=
  if String.eqb s "" then (zero, Some (Errorf "empty timestamp"))
  else
    let s := GoStrings.TrimSpace s in
    match firstParse timestampFormats s with
    | Some t => (t, None)
    | None => (zero, Some (Errorf ("unable to parse timestamp: " +:+ s)))
    end.

Local Open Scope float_scope.

(** [ValidateEngineData] *)
Definition ValidateEngineData (rpm temp pressure : option float)
  : list string :=
  let warnings := [] in
  let warnings :=
    match rpm with
    | Some v => if v <? 0 then warnings ++ ["negative rpm"] else warnings
    | None => warnings
    end in
  let warnings :=
    match pressure with
    | Some v =>
        if v <? 0 then warnings ++ ["negative oil pressure"] else warnings
    | None => warnings
    end in
  warnings.

(** [ValidateFuelData] *)
Definition ValidateFuelData (level volume temp : option float)
  : list string :=
  let warnings := [] in
  let warnings :=
    match level with
    | Some v =>
        if (v <? 0) || (100 <? v)
        then warnings ++ ["invalid fuel level percentage"] else warnings
    | None => warnings
    end in
  let warnings :=
    match volume with
    | Some v =>
        if v <? 0 then warnings ++ ["negative fuel volume"] else warnings
    | None => warnings
    end in
  warnings.

(** [ValidateGeneratorData] *)
Definition ValidateGeneratorData (load voltage frequency fuelRate : option float)
  : list string :=
  let warnings := [] in
  let warnings :=
    match load with
    | Some v =>
        if v <? 0 then warnings ++ ["negative generator load"] else warnings
    | None => warnings
    end in
  let warnings :=
    match voltage with
    | Some v => if v <? 0 then warnings ++ ["negative voltage"] else warnings
    | None => warnings
    end in
  let warnings :=
    match frequency with
    | Some v =>
        if (v <? 45) || (70 <? v)
        then warnings ++ ["frequency out of range (45-70 Hz)"] else warnings
    | None => warnings
    end in
  let warnings :=
    match fuelRate with
    | Some v => if v <? 0 then warnings ++ ["negative fuel rate"] else warnings
    | None => warnings
    end in
  warnings.

(** [ValidateLocationData] *)
Definition ValidateLocationData (latitude longitude course speed : option float)
  : list string :=
  let warnings := [] in
  let warnings :=
    match latitude with
    | Some v =>
        if (v <? -90) || (90 <? v)
        then warnings ++ ["latitude out of range (-90 to 90)"] else warnings
    | None => warnings
    end in
  let warnings :=
    match longitude with
    | Some v =>
        if (v <? -180) || (180 <? v)
        then warnings ++ ["longitude out of range (-180 to 180)"]
        else warnings
    | None => warnings
    end in
  let warnings :=
    match course with
    | Some v =>
        if (v <? 0) || (360 <? v)
        then warnings ++ ["course out of range (0-360 degrees)"]
        else warnings
    | None => warnings
    end in
  let warnings :=
    match speed with
    | Some v => if v <? 0 then warnings ++ ["negative speed"] else warnings
    | None => warnings
    end in
  warnings.

Local Close Scope float_scope.

(** [json.Marshal] of a [map[string]string]: the keys in ascending order. *)
Definition marshalMap (m : gmap string string) : string :=
  let keys := merge_sort String.le (map fst (map_to_list m)) in
  let field k := json_quote k +:+ ":" +:+ json_quote (default "" (m !! k)) in
  "{" +:+ GoStrings.Join (map field keys) "," +:+ "}".

(** [BuildExtraJSON]: the columns of the row that are not mapped and not
    empty. *)
Definition BuildExtraJSON (row : gmap string string) (mappedCols : list string)
  : string * option error :=
  let extra : gmap string string :=
    filter (fun kv => (kv.1 ∉ mappedCols) ∧ (kv.2 ≠ "")) row in
  if decide (size extra = 0%nat) then ("{}", None)
  else (marshalMap extra, None).

End WithPlatform.
End Mapper.

(** ** The database ([schema/schema.sql])

    One list per table, in insertion order. Of each table the columns that
    the ingestion writes or reads are kept; [created_at], [updated_at] and
    the row ids of the reading tables are not. Statements fail only on the
    constraints of the schema. *)

Module Store.

Import GoTime.

Record Vessel := {
  v_id : Z;
  v_imo : option string;        (* UNIQUE *)
  v_name : string;
  v_flag : option string;
  v_type : option string
}.

Record Upload := {
  u_id : Z;
  u_vessel_id : Z;
  u_source_filename : string;
  u_file_hash : string;         (* UNIQUE NOT NULL *)
  u_uploaded_at : Time
}.

(** The columns every reading table has, and the fields of its stream.
    UNIQUE(vessel_id, ts, row_hash). *)
Record Reading (F : Type) := {
  r_vessel_id : Z;
  r_ts : Time;
  r_row_hash : string;
  r_extra_json : string;
  r_fields : F
}.
Arguments r_vessel_id {F}.
Arguments r_ts {F}.
Arguments r_row_hash {F}.
Arguments r_extra_json {F}.
Arguments r_fields {F}.

Record EngineFields := {
  engine_no : option Z; rpm : option float; temp_c : option float;
  oil_pressure_bar : option float; alarms : option string
}.
Record FuelFields := {
  tank_no : option Z; level_percent : option float;
  volume_liters : option float; fuel_temp_c : option float
}.
Record GeneratorFields := {
  gen_no : option Z; load_kw : option float; voltage_v : option float;
  frequency_hz : option float; fuel_rate_lph : option float
}.
Record CCTVFields := {
  cam_id : option string; cctv_status : option string;
  uptime_percent : option float
}.
Record ImpactFields := {
  sensor_id : option string; accel_g : option float;
  shock_g : option float; notes : option string
}.
Record LocationFields := {
  latitude : option float; longitude : option float;
  course_degrees : option float; speed_knots : option float;
  loc_status : option string
}.

Record State := {
  vessels : list Vessel;
  uploads : list Upload;
  engine_readings : list (Reading EngineFields);
  fuel_tank_readings : list (Reading FuelFields);
  generator_readings : list (Reading GeneratorFields);
  cctv_status_readings : list (Reading CCTVFields);
  impact_vibration_readings : list (Reading ImpactFields);
  location_readings : list (Reading LocationFields);
  vessel_stream_latest : gmap (Z * string) Time   (* PRIMARY KEY (vessel_id, stream) *)
}.

Definition empty : State :=
  {| vessels := []; uploads := []; engine_readings := [];
     fuel_tank_readings := []; generator_readings := [];
     cctv_status_readings := []; impact_vibration_readings := [];
     location_readings := []; vessel_stream_latest := ∅ |}.

Definition set_vessels (d : State) (x : list Vessel) : State :=
  {| vessels := x; uploads := uploads d;
     engine_readings := engine_readings d;
     fuel_tank_readings := fuel_tank_readings d;
     generator_readings := generator_readings d;
     cctv_status_readings := cctv_status_readings d;
     impact_vibration_readings := impact_vibration_readings d;
     location_readings := location_readings d;
     vessel_stream_latest := vessel_stream_latest d |}.
Definition set_engine_readings (d : State) x : State :=
  {| vessels := vessels d; uploads := uploads d;
     engine_readings := x;
     fuel_tank_readings := fuel_tank_readings d;
     generator_readings := generator_readings d;
     cctv_status_readings := cctv_status_readings d;
     impact_vibration_readings := impact_vibration_readings d;
     location_readings := location_readings d;
     vessel_stream_latest := vessel_stream_latest d |}.
Definition set_fuel_tank_readings (d : State) x : State :=
  {| vessels := vessels d; uploads := uploads d;
     engine_readings := engine_readings d;
     fuel_tank_readings := x;
     generator_readings := generator_readings d;
     cctv_status_readings := cctv_status_readings d;
     impact_vibration_readings := impact_vibration_readings d;
     location_readings := location_readings d;
     vessel_stream_latest := vessel_stream_latest d |}.
Definition set_generator_readings (d : State) x : State :=
  {| vessels := vessels d; uploads := uploads d;
     engine_readings := engine_readings d;
     fuel_tank_readings := fuel_tank_readings d;
     generator_readings := x;
     cctv_status_readings := cctv_status_readings d;
     impact_vibration_readings := impact_vibration_readings d;
     location_readings := location_readings d;
     vessel_stream_latest := vessel_stream_latest d |}.
Definition set_cctv_status_readings (d : State) x : State :=
  {| vessels := vessels d; uploads := uploads d;
     engine_readings := engine_readings d;
     fuel_tank_readings := fuel_tank_readings d;
     generator_readings := generator_readings d;
     cctv_status_readings := x;
     impact_vibration_readings := impact_vibration_readings d;
     location_readings := location_readings d;
     vessel_stream_latest := vessel_stream_latest d |}.
Definition set_impact_vibration_readings (d : State) x : State :=
  {| vessels := vessels d; uploads := uploads d;
     engine_readings := engine_readings d;
     fuel_tank_readings := fuel_tank_readings d;
     generator_readings := generator_readings d;
     cctv_status_readings := cctv_status_readings d;
     impact_vibration_readings := x;
     location_readings := location_readings d;
     vessel_stream_latest := vessel_stream_latest d |}.
Definition set_location_readings (d : State) x : State :=
  {| vessels := vessels d; uploads := uploads d;
     engine_readings := engine_readings d;
     fuel_tank_readings := fuel_tank_readings d;
     generator_readings := generator_readings d;
     cctv_status_readings := cctv_status_readings d;
     impact_vibration_readings := impact_vibration_readings d;
     location_readings := x;
     vessel_stream_latest := vessel_stream_latest d |}.
Definition set_vessel_stream_latest (d : State) x : State :=
  {| vessels := vessels d; uploads := uploads d;
     engine_readings := engine_readings d;
     fuel_tank_readings := fuel_tank_readings d;
     generator_readings := generator_readings d;
     cctv_status_readings := cctv_status_readings d;
     impact_vibration_readings := impact_vibration_readings d;
     location_readings := location_readings d;
     vessel_stream_latest := x |}.

Global Instance Time_eq_dec : EqDecision Time.
Proof. solve_decision. Defined.

(** [SELECT id FROM uploads WHERE file_hash = ?]; [None] is
    [sql.ErrNoRows]. *)
Definition selectUploadByHash (d : State) (fileHash : string) : option Z :=
  match find (fun u => String.eqb (u_file_hash u) fileHash) (uploads d) with
  | Some u => Some (u_id u)
  | None => None
  end.

(** [SELECT id FROM vessels WHERE imo = ?] *)
Definition selectVesselByIMO (d : State) (imo : string) : option Z :=
  match find (fun v => bool_decide (v_imo v = Some imo)) (vessels d) with
  | Some v => Some (v_id v)
  | None => None
  end.

(** The id an AUTOINCREMENT key gives to the next row. *)
Definition nextVesselID (d : State) : Z :=
  1 + fold_right Z.max 0 (map v_id (vessels d)).

(** [INSERT INTO vessels (imo, name, flag, type)]: the new id
    ([LastInsertId]) and the error. *)
Definition insertVessel (d : State) (imo : option string) (name : string)
    (flag type : option string) : Z * option error * State :=
  match imo with
  | Some i =>
      match selectVesselByIMO d i with
      | Some _ =>
          (0, Some (SqlError "UNIQUE constraint failed: vessels.imo"), d)
      | None =>
          let id := nextVesselID d in
          (id, None,
           set_vessels d (vessels d ++
             [{| v_id := id; v_imo := imo; v_name := name;
                 v_flag := flag; v_type := type |}]))
      end
  | None =>
      let id := nextVesselID d in
      (id, None,
       set_vessels d (vessels d ++
         [{| v_id := id; v_imo := imo; v_name := name;
             v_flag := flag; v_type := type |}]))
  end.

(** [UPDATE vessels SET name = ?, flag = ?, type = ? WHERE id = ?] *)
Definition updateVessel (d : State) (id : Z) (name : string)
    (flag type : option string) : option error * State :=
  (None,
   set_vessels d
     (map (fun v =>
             if v_id v =? id
             then {| v_id := v_id v; v_imo := v_imo v; v_name := name;
                     v_flag := flag; v_type := type |}
             else v)
          (vessels d))).

Definition vesselExists (d : State) (id : Z) : bool :=
  existsb (fun v => v_id v =? id) (vessels d).

Definition sameKey {F} (a b : Reading F) : bool :=
  (r_vessel_id a =? r_vessel_id b) &&
  bool_decide (r_ts a = r_ts b) &&
  String.eqb (r_row_hash a) (r_row_hash b).

(** [INSERT OR IGNORE] into a reading table: a row whose
    (vessel_id, ts, row_hash) is already there is dropped without error. *)
Definition insertOrIgnore {F} (rows : list (Reading F)) (r : Reading F)
  : list (Reading F) :=
  if existsb (sameKey r) rows then rows else rows ++ [r].

Definition foreignKeyError : error := SqlError "FOREIGN KEY constraint failed".

Definition insertEngineReading (d : State) (r : Reading EngineFields)
  : option error * State :=
  if vesselExists d (r_vessel_id r)
  then (None, set_engine_readings d (insertOrIgnore (engine_readings d) r))
  else (Some foreignKeyError, d).

Definition insertFuelTankReading (d : State) (r : Reading FuelFields)
  : option error * State :=
  if vesselExists d (r_vessel_id r)
  then (None, set_fuel_tank_readings d (insertOrIgnore (fuel_tank_readings d) r))
  else (Some foreignKeyError, d).

Definition insertGeneratorReading (d : State) (r : Reading GeneratorFields)
  : option error * State :=
  if vesselExists d (r_vessel_id r)
  then (None, set_generator_readings d (insertOrIgnore (generator_readings d) r))
  else (Some foreignKeyError, d).

Definition insertCCTVReading (d : State) (r : Reading CCTVFields)
  : option error * State :=
  if vesselExists d (r_vessel_id r)
  then (None, set_cctv_status_readings d (insertOrIgnore (cctv_status_readings d) r))
  else (Some foreignKeyError, d).

Definition insertImpactReading (d : State) (r : Reading ImpactFields)
  : option error * State :=
  if vesselExists d (r_vessel_id r)
  then (None, set_impact_vibration_readings d
                (insertOrIgnore (impact_vibration_readings d) r))
  else (Some foreignKeyError, d).

Definition insertLocationReading (d : State) (r : Reading LocationFields)
  : option error * State :=
  if vesselExists d (r_vessel_id r)
  then (None, set_location_readings d (insertOrIgnore (location_readings d) r))
  else (Some foreignKeyError, d).

(** [INSERT OR REPLACE INTO vessel_stream_latest] *)
Definition replaceStreamLatest (d : State) (vesselID : Z) (stream : string)
    (ts : Time) : option error * State :=
  if vesselExists d vesselID
  then (None, set_vessel_stream_latest d
                (<[(vesselID, stream) := ts]> (vessel_stream_latest d)))
  else (Some foreignKeyError, d).

End Store.

(** ** Package [internal/ingest]: [xlsx.go] *)

Module Ingest.
Section WithPlatform.
Context `{Platform}.

Import GoTime Mapper.

(** What a run acts on: the database, and the number of [range] loops
    over maps it has run (the index into [map_range]). *)
Record World := { db : Store.State; ranges : nat }.

Definition M (A : Type) : Type := World -> A * World.

Definition ret {A} (a : A) : M A := fun w => (a, w).
Definition bind {A B} (m : M A) (k : A -> M B) : M B :=
  fun w => let '(a, w') := m w in k a w'.

Local Notation "'let*' x := m 'in' k" := (bind m (fun x => k))
  (at level 10, x name, m at level 100, k at level 200, only parsing).
Local Notation "'let*' ' p := m 'in' k" :=
  (bind m (fun x => let 'p := x in k))
  (at level 10, p pattern, m at level 100, k at level 200, only parsing).

(** [p.db.QueryRow(...)] *)
Definition query {A} (q : Store.State -> A) : M A :=
  fun w => (q (db w), w).

(** [p.db.Exec(...)] *)
Definition exec {A} (stmt : Store.State -> A * Store.State) : M A :=
  fun w => let '(a, d) := stmt (db w) in
           (a, {| db := d; ranges := ranges w |}).

(** [mapper.FindHeader(patterns...)] *)
Definition findHeader (mapper : HeaderMapper) (patterns : list string)
  : M (string * bool) :=
  fun w => let '(col, found, n) := FindHeader mapper patterns (ranges w) in
           ((col, found), {| db := db w; ranges := n |}).

(** [mapper.FindTimestampHeader()] *)
Definition findTimestampHeader (mapper : HeaderMapper) : M (string * bool) :=
  findHeader mapper timestampPatterns.

(** [f.GetSheetList()] *)
Definition GetSheetList (f : Workbook) : list string :=
  map fst (wb_sheets f).

(** [f.GetRows(sheet)]; [None] is an error. *)
Definition GetRows (f : Workbook) (sheet : string)
  : option (list (list string)) :=
  match find (fun p => String.eqb (fst p) sheet) (wb_sheets f) with
  | Some (_, rows) => rows
  | None => None
  end.

Definition nonEmpty (s : string) : bool := negb (String.eqb s "").

(** [models.IngestResponse] *)
Record IngestResponse := {
  Status : string;
  UploadID : option Z;
  VesselID : option Z;
  RowsInserted : gmap string Z;
  Warnings : list string
}.

(** How a call ends: it returns, or it panics (a nil pointer is
    dereferenced). *)
Inductive ShipInfoResult :=
| ShipInfoPanic
| ShipInfoReturn (vesselID : Z) (locationCount : Z)
                 (locationWarnings : list string) (err : option error).

Inductive ProcessResult :=
| ProcessPanic
| ProcessReturn (resp : option IngestResponse) (err : option error).

(** *** Helpers for code the processors repeat inline *)

(** [row := make(map[string]string); for j, cell := range cells
    { if j < len(headers) { row[headers[j]] = cell } }] *)
Definition rowMap (hs cells : list string) : gmap string string :=
  fold_left (fun m hc => <[fst hc := snd hc]> m) (combine hs cells) ∅.

(** [row[col]]: the empty string when the key is absent *)
Definition cell (row : gmap string string) (col : string) : string :=
  default "" (row !! col).

(** [ts := defaultTS; if hasTS && tsCol != "" { if parsedTS, err :=
    ParseTimestamp(row[tsCol]); err == nil { ts = parsedTS } }] *)
Definition rowTimestamp (defaultTS : Time) (hasTS : bool) (tsCol : string)
    (row : gmap string string) : Time :=
  if hasTS && nonEmpty tsCol then
    match ParseTimestamp (cell row tsCol) with
    | (parsedTS, None) => parsedTS
    | (_, Some _) => defaultTS
    end
  else defaultTS.

(** [regexp.MustCompile(`\d+`).FindString]: the leftmost run of digits,
    the empty string when there is none. *)
Fixpoint findDigits (s : string) : string :=
  match s with
  | EmptyString => EmptyString
  | String c s' => if isDigit c then fst (spanDigits s) else findDigits s'
  end.

(** [if col != "" { match := numOnly.FindString(row[col]); if match != ""
    { if val, err := strconv.Atoi(match); err == nil { no = &val } } }] *)
Definition rowNumber (col : string) (row : gmap string string) : option Z :=
  if nonEmpty col then
    let m := findDigits (cell row col) in
    if nonEmpty m then
      match Strconv.Atoi m with
      | inr val => Some val
      | inl _ => None
      end
    else None
  else None.

(** [if col != "" { x, _ = ParseFloat(row[col]) }] *)
Definition rowFloat (col : string) (row : gmap string string) : option float :=
  if nonEmpty col then fst (ParseFloat (cell row col)) else None.

(** [if col != "" && row[col] != "" { val := row[col]; x = &val }] *)
Definition rowString (col : string) (row : gmap string string) : option string :=
  if nonEmpty col && nonEmpty (cell row col) then Some (cell row col) else None.

(** [for i := 1; i < len(rows); i++ { body }], started with the rows
    after the header row and [i = 1]. *)
Fixpoint forRows {S} (body : Z -> list string -> S -> M S) (i : Z)
    (rows : list (list string)) (s : S) : M S :=
  match rows with
  | [] => ret s
  | cells :: rest => let* s' := body i cells s in forRows body (i + 1) rest s'
  end.

Definition hashKeys (tag : option string) (extraJSON : string) : list string :=
  match tag with
  | Some t => [t; extraJSON]
  | None => [extraJSON]
  end.

(** *** [processLocationFromShipInfo] *)

Definition locationMapped (h : string) : bool :=
  let headerLower := GoStrings.ToLower h in
  GoStrings.Contains headerLower "lat" ||
  GoStrings.Contains headerLower "lon" ||
  GoStrings.Contains headerLower "course" ||
  GoStrings.Contains headerLower "speed" ||
  GoStrings.Contains headerLower "status" ||
  GoStrings.Contains headerLower "time" ||
  GoStrings.Contains headerLower "name" ||
  GoStrings.Contains headerLower "imo".

(** The values [processLocationFromShipInfo] reads off the row: the
    timestamp and the five location fields. *)
Definition locationValues (hs data : list string) (defaultTS : Time)
    (mapper : HeaderMapper)
  : M (Time * option float * option float * option float * option float *
       option string) :=
  let row := rowMap hs data in
  let* '(tsCol, hasTS) := findTimestampHeader mapper in
  let ts := rowTimestamp defaultTS hasTS tsCol row in
  let* '(latCol, found) := findHeader mapper ["latitude"; "lat"] in
  let latitude := if found then fst (ParseFloat (cell row latCol)) else None in
  let* '(lonCol, found) := findHeader mapper ["longitude"; "lon"; "lng"] in
  let longitude := if found then fst (ParseFloat (cell row lonCol)) else None in
  let* '(courseCol, found) := findHeader mapper ["course"; "heading"; "bearing"] in
  let course := if found then fst (ParseFloat (cell row courseCol)) else None in
  let* '(speedCol, found) := findHeader mapper ["speed"; "speed_knots"; "speed(knots)"] in
  let speed := if found then fst (ParseFloat (cell row speedCol)) else None in
  let* '(statusCol, found) := findHeader mapper ["status"; "vessel_status"; "nav_status"] in
  let status :=
    if found && nonEmpty (cell row statusCol)
    then Some (cell row statusCol) else None in
  ret (ts, latitude, longitude, course, speed, status).

Definition processLocationFromShipInfo (hs data : list string)
    (vesselID : Z) (defaultTS : Time) (mapper : HeaderMapper)
  : M (Z * list string) :=
  let warnings : list string := [] in
  let row := rowMap hs data in
  let* '(ts, latitude, longitude, course, speed, status) :=
    locationValues hs data defaultTS mapper in
  let warns := ValidateLocationData latitude longitude course speed in
  if (0 <? length warns)%nat then
    ret (0, warnings ++ ["location data: " +:+ GoStrings.Join warns ", "])
  else
    match latitude, longitude, course, speed, status with
    | None, None, None, None, None => ret (0, warnings)
    | _, _, _, _, _ =>
        let mappedCols := filter (fun h => locationMapped h = true) hs in
        let extraJSON := fst (BuildExtraJSON row mappedCols) in
        let keys :=
          hashKeys (option_map (fun s => "status:" +:+ s) status) extraJSON in
        let rowHash := Util.HashRow vesselID ts "location" keys in
        let* err := exec (fun d => Store.insertLocationReading d
                 {| Store.r_vessel_id := vesselID; Store.r_ts := ts;
                    Store.r_row_hash := rowHash;
                    Store.r_extra_json := extraJSON;
                    Store.r_fields :=
                      {| Store.latitude := latitude;
                         Store.longitude := longitude;
                         Store.course_degrees := course;
                         Store.speed_knots := speed;
                         Store.loc_status := status |} |}) in
        match err with
        | None => ret (1, warnings)
        | Some _ => ret (0, warnings)
        end
    end.

(** *** [processShipInfo] *)

(** The branch that both the missing and the unreadable ship-info sheet
    take: a vessel from the identifiers of the request. *)
Definition vesselFromIdentifiers (providedIMO vesselName : string)
  : M ShipInfoResult :=
  if nonEmpty providedIMO then
    let name :=
      if String.eqb vesselName "" then "Vessel-" +:+ providedIMO
      else vesselName in
    let* '(id, err) := exec (fun d =>
        Store.insertVessel d (Some providedIMO) name None None) in
    match err with
    | Some e => ret (ShipInfoReturn 0 0 [] (Some e))
    | None => ret (ShipInfoReturn id 0 [] None)
    end
  else if String.eqb vesselName "" then
    ret (ShipInfoReturn 0 0 []
           (Some (Errorf "vessel name is required when IMO is not provided")))
  else
    let* '(id, err) := exec (fun d =>
        Store.insertVessel d None vesselName None None) in
    match err with
    | Some e => ret (ShipInfoReturn 0 0 [] (Some e))
    | None => ret (ShipInfoReturn id 0 [] None)
    end.

(** [for i, h := range headers { if h == col && i < len(data) &&
    data[i] != "" { val := data[i]; x = &val; break } }] *)
Definition headerCell (hs data : list string) (col : string) : option string :=
  option_map snd
    (find (fun hc => String.eqb (fst hc) col && nonEmpty (snd hc))
          (combine hs data)).

Definition isShipInfoSheet (sheet : string) : bool :=
  GoStrings.Contains (GoStrings.ToLower sheet) "ship" &&
  GoStrings.Contains (GoStrings.ToLower sheet) "info".

Definition processShipInfo (f : Workbook) (providedIMO vesselName : string)
    (uploadedAt : Time) : M ShipInfoResult :=
  let sheets := GetSheetList f in
  let shipInfoSheet := default "" (find isShipInfoSheet sheets) in
  if String.eqb shipInfoSheet "" then
    vesselFromIdentifiers providedIMO vesselName
  else
    match GetRows f shipInfoSheet with
    | Some (hs :: data :: _) =>
        let mapper := NewHeaderMapper hs in
        (* Prioritize provided IMO over extracted IMO *)
        let* imo :=
          (if nonEmpty providedIMO then ret (Some providedIMO)
           else
             let* '(imoCol, found) := findHeader mapper ["imo"] in
             ret (if found then headerCell hs data imoCol else None)) in
        let* '(nameCol, found) := findHeader mapper ["name"; "vessel_name"; "ship_name"] in
        let name := if found then headerCell hs data nameCol else None in
        let* '(flagCol, found) := findHeader mapper ["flag"] in
        let flag := if found then headerCell hs data flagCol else None in
        let* '(typeCol, found) := findHeader mapper ["type"; "vessel_type"; "ship_type"] in
        let vesselType := if found then headerCell hs data typeCol else None in
        let name :=
          match name with
          | Some _ => name
          | None =>
              if nonEmpty vesselName then Some vesselName
              else match imo with
                   | Some i => Some ("Vessel-" +:+ i)
                   | None => None
                   end
          end in
        let locate (vesselID : Z) : M ShipInfoResult :=
          let* '(locationCount, locationWarnings) :=
            processLocationFromShipInfo hs data vesselID uploadedAt mapper in
          ret (ShipInfoReturn vesselID locationCount locationWarnings None) in
        let create : M ShipInfoResult :=
          match name with
          | None => ret ShipInfoPanic      (* *name with name == nil *)
          | Some nm =>
              let* '(id, err) := exec (fun d =>
                  Store.insertVessel d imo nm flag vesselType) in
              match err with
              | Some e => ret (ShipInfoReturn 0 0 [] (Some e))
              | None => locate id
              end
          end in
        let* existing := (match imo with
                     | Some i => query (fun d => Store.selectVesselByIMO d i)
                     | None => ret None
                     end) in
        match existing with
        | Some existingID =>
            match name with
            | None => ret ShipInfoPanic
            | Some nm =>
                let* err := exec (fun d =>
                    Store.updateVessel d existingID nm flag vesselType) in
                match err with
                | Some e => ret (ShipInfoReturn 0 0 [] (Some e))
                | None =>
                    if existingID =? 0 then create else locate existingID
                end
            end
        | None => create
        end
    | _ => vesselFromIdentifiers providedIMO vesselName
    end.

(** *** The sheet processors

    Each row of a sheet is handled by a row function that takes the
    counter and the warnings of the loop and returns them; the columns
    are resolved once, before the loop. *)

Definition sheetError (sheetName : string) : list string :=
  ["error reading " +:+ sheetName +:+ " sheet"].

Definition rowWarning (i : Z) (stream : string) (warns : list string) : string :=
  "row " +:+ Strconv.FormatInt (i + 1) +:+ " " +:+ stream +:+ ": " +:+
  GoStrings.Join warns ", ".

Definition countInsert (err : option error) (inserted : Z) : Z :=
  match err with
  | None => inserted + 1
  | Some _ => inserted
  end.

(** The body of the loop of [processEngineSheet]. *)
Definition engineRow (hs : list string) (vesselID : Z) (defaultTS : Time)
    (hasTS : bool) (tsCol engineNoCol rpmCol tempCol pressureCol alarmsCol : string)
    (mappedCols : list string)
    (i : Z) (cells : list string) (acc : Z * list string)
  : M (Z * list string) :=
  let '(inserted, warnings) := acc in
  let row := rowMap hs cells in
  let ts := rowTimestamp defaultTS hasTS tsCol row in
  let engineNo := rowNumber engineNoCol row in
  let rpm := rowFloat rpmCol row in
  let tempC := rowFloat tempCol row in
  let oilPressure := rowFloat pressureCol row in
  let alarms := rowString alarmsCol row in
  let warns := ValidateEngineData rpm tempC oilPressure in
  if (0 <? length warns)%nat then
    ret (inserted, warnings ++ [rowWarning i "engines" warns])
  else
    let extraJSON := fst (BuildExtraJSON row mappedCols) in
    let keys :=
      hashKeys (option_map (fun n => "engine_no:" +:+ Strconv.FormatInt n) engineNo)
               extraJSON in
    let rowHash := Util.HashRow vesselID ts "engines" keys in
    let* err := exec (fun d => Store.insertEngineReading d
                 {| Store.r_vessel_id := vesselID; Store.r_ts := ts;
                    Store.r_row_hash := rowHash;
                    Store.r_extra_json := extraJSON;
                    Store.r_fields :=
                      {| Store.engine_no := engineNo; Store.rpm := rpm;
                         Store.temp_c := tempC;
                         Store.oil_pressure_bar := oilPressure;
                         Store.alarms := alarms |} |}) in
    ret (countInsert err inserted, warnings).

(** [processEngineSheet] *)
Definition processEngineSheet (f : Workbook) (sheetName : string)
    (vesselID : Z) (defaultTS : Time) : M (Z * list string) :=
  match GetRows f sheetName with
  | Some (hs :: r1 :: rest) =>
      let mapper := NewHeaderMapper hs in
      let* '(tsCol, hasTS) := findTimestampHeader mapper in
      let* '(engineNoCol, _) := findHeader mapper ["engine_no"; "engine"; "eng_no"] in
      let* '(rpmCol, _) := findHeader mapper ["rpm"] in
      let* '(tempCol, _) := findHeader mapper ["temp"; "temperature"; "temp_c"] in
      let* '(pressureCol, _) := findHeader mapper ["oil_pressure"; "pressure"; "oil_press"] in
      let* '(alarmsCol, _) := findHeader mapper ["alarm"; "alarms"; "alert"] in
      let mappedCols := [tsCol; engineNoCol; rpmCol; tempCol; pressureCol; alarmsCol] in
      forRows (engineRow hs vesselID defaultTS hasTS tsCol engineNoCol rpmCol
                         tempCol pressureCol alarmsCol mappedCols)
              1 (r1 :: rest) (0, [])
  | _ => ret (0, sheetError sheetName)
  end.

(** [isM3Header] *)
Definition isM3Header (h : string) : bool :=
  let h := GoStrings.ToLower h in
  GoStrings.Contains h "(m3)" || GoStrings.Contains h "m3".

(** [if v, _ := ParseFloat(row[col]); v != nil { val := *v; if
    isM3Header(col) { val *= 1000.0 }; liters = &val }] *)
Definition litersOf (col : string) (row : gmap string string) : option float :=
  match fst (ParseFloat (cell row col)) with
  | Some v => Some (if isM3Header col then (v * 1000)%float else v)
  | None => None
  end.

(** The capacity of the row, in liters. *)
Definition capacityLiters (capCol : string) (row : gmap string string)
  : option float :=
  if nonEmpty capCol then litersOf capCol row else None.

(** The current volume of the row, in liters: the current column when the
    sheet has one, else the capacity column. *)
Definition currentLiters (capCol curCol : string) (row : gmap string string)
  : option float :=
  if nonEmpty curCol then litersOf curCol row
  else if nonEmpty capCol then litersOf capCol row
  else None.

(** [levelPercent] *)
Definition levelPercentOf (curLiters capLiters : option float) : option float :=
  match curLiters, capLiters with
  | Some cur, Some cap =>
      if (0 <? cap)%float then Some (cur / cap * 100)%float else None
  | _, _ => None
  end.

(** The body of the loop of [processFuelSheet]. *)
Definition fuelRow (hs : list string) (vesselID : Z) (defaultTS : Time)
    (hasTS : bool) (tsCol tankNoCol capCol curCol tempCol : string)
    (mappedCols : list string)
    (i : Z) (cells : list string) (acc : Z * list string)
  : M (Z * list string) :=
  let '(inserted, warnings) := acc in
  let row := rowMap hs cells in
  let ts := rowTimestamp defaultTS hasTS tsCol row in
  let tankNo := rowNumber tankNoCol row in
  let capLiters := capacityLiters capCol row in
  let curLiters := currentLiters capCol curCol row in
  let tempC := rowFloat tempCol row in
  let levelPercent := levelPercentOf curLiters capLiters in
  let warns := ValidateFuelData levelPercent curLiters tempC in
  if (0 <? length warns)%nat then
    ret (inserted, warnings ++ [rowWarning i "fuel" warns])
  else
    let extraJSON := fst (BuildExtraJSON row mappedCols) in
    let keys :=
      hashKeys (option_map (fun n => "tank_no:" +:+ Strconv.FormatInt n) tankNo)
               extraJSON in
    let rowHash := Util.HashRow vesselID ts "fuel" keys in
    let* err := exec (fun d => Store.insertFuelTankReading d
                 {| Store.r_vessel_id := vesselID; Store.r_ts := ts;
                    Store.r_row_hash := rowHash;
                    Store.r_extra_json := extraJSON;
                    Store.r_fields :=
                      {| Store.tank_no := tankNo;
                         Store.level_percent := levelPercent;
                         Store.volume_liters := curLiters;
                         Store.fuel_temp_c := tempC |} |}) in
    match err with
    | None => ret (inserted + 1, warnings)
    | Some e =>
        ret (inserted,
             warnings ++ ["row " +:+ Strconv.FormatInt (i + 1) +:+
                          " fuel insert error: " +:+ error_text e])
    end.

Definition appendIfSet (cols : list string) (col : string) : list string :=
  if nonEmpty col then cols ++ [col] else cols.

(** [processFuelSheet] *)
Definition processFuelSheet (f : Workbook) (sheetName : string)
    (vesselID : Z) (defaultTS : Time) : M (Z * list string) :=
  match GetRows f sheetName with
  | Some (hs :: r1 :: rest) =>
      let mapper := NewHeaderMapper hs in
      let* '(tsCol, hasTS) := findTimestampHeader mapper in
      let* '(tankNoCol, _) := findHeader mapper ["tank_no"; "tank"; "tank_id"; "Tank ID"] in
      let* '(capCol, _) := findHeader mapper ["capacity"; "Capacity(m3)"; "volume"; "volume_liters"] in
      let* '(curCol, _) := findHeader mapper ["current"; "Current Level(m3)"; "current_level"; "current_volume"; "volume_liters"] in
      let* '(tempCol, _) := findHeader mapper ["temp"; "temperature"; "temp_c"] in
      let mappedCols :=
        fold_left appendIfSet [tsCol; tankNoCol; capCol; curCol; tempCol] [] in
      forRows (fuelRow hs vesselID defaultTS hasTS tsCol tankNoCol capCol
                       curCol tempCol mappedCols)
              1 (r1 :: rest) (0, [])
  | _ => ret (0, sheetError sheetName)
  end.

(** The body of the loop of [processGeneratorSheet]. *)
Definition generatorRow (hs : list string) (vesselID : Z) (defaultTS : Time)
    (hasTS : bool) (tsCol genNoCol loadCol voltageCol freqCol fuelRateCol : string)
    (mappedCols : list string)
    (i : Z) (cells : list string) (acc : Z * list string)
  : M (Z * list string) :=
  let '(inserted, warnings) := acc in
  let row := rowMap hs cells in
  let ts := rowTimestamp defaultTS hasTS tsCol row in
  let genNo := rowNumber genNoCol row in
  let loadKW := rowFloat loadCol row in
  let voltageV := rowFloat voltageCol row in
  let frequencyHz := rowFloat freqCol row in
  let fuelRateLPH := rowFloat fuelRateCol row in
  let warns := ValidateGeneratorData loadKW voltageV frequencyHz fuelRateLPH in
  if (0 <? length warns)%nat then
    ret (inserted, warnings ++ [rowWarning i "generators" warns])
  else
    let extraJSON := fst (BuildExtraJSON row mappedCols) in
    let keys :=
      hashKeys (option_map (fun n => "gen_no:" +:+ Strconv.FormatInt n) genNo)
               extraJSON in
    let rowHash := Util.HashRow vesselID ts "generators" keys in
    let* err := exec (fun d => Store.insertGeneratorReading d
                 {| Store.r_vessel_id := vesselID; Store.r_ts := ts;
                    Store.r_row_hash := rowHash;
                    Store.r_extra_json := extraJSON;
                    Store.r_fields :=
                      {| Store.gen_no := genNo; Store.load_kw := loadKW;
                         Store.voltage_v := voltageV;
                         Store.frequency_hz := frequencyHz;
                         Store.fuel_rate_lph := fuelRateLPH |} |}) in
    ret (countInsert err inserted, warnings).

(** [processGeneratorSheet] *)
Definition processGeneratorSheet (f : Workbook) (sheetName : string)
    (vesselID : Z) (defaultTS : Time) : M (Z * list string) :=
  match GetRows f sheetName with
  | Some (hs :: r1 :: rest) =>
      let mapper := NewHeaderMapper hs in
      let* '(tsCol, hasTS) := findTimestampHeader mapper in
      let* '(genNoCol, _) := findHeader mapper ["gen_no"; "generator"; "gen"; "generator_no"] in
      let* '(loadCol, _) := findHeader mapper ["load"; "load_kw"; "power"] in
      let* '(voltageCol, _) := findHeader mapper ["voltage"; "volt"; "voltage_v"] in
      let* '(freqCol, _) := findHeader mapper ["frequency"; "freq"; "frequency_hz"] in
      let* '(fuelRateCol, _) := findHeader mapper ["fuel_rate"; "fuel_rate_lph"; "consumption"] in
      let mappedCols := [tsCol; genNoCol; loadCol; voltageCol; freqCol; fuelRateCol] in
      forRows (generatorRow hs vesselID defaultTS hasTS tsCol genNoCol loadCol
                            voltageCol freqCol fuelRateCol mappedCols)
              1 (r1 :: rest) (0, [])
  | _ => ret (0, sheetError sheetName)
  end.

(** The body of the loop of [processCCTVSheet]. *)
Definition cctvRow (hs : list string) (vesselID : Z) (defaultTS : Time)
    (hasTS : bool) (tsCol camIDCol statusCol uptimeCol : string)
    (mappedCols : list string)
    (i : Z) (cells : list string) (acc : Z * list string)
  : M (Z * list string) :=
  let '(inserted, warnings) := acc in
  let row := rowMap hs cells in
  let ts := rowTimestamp defaultTS hasTS tsCol row in
  let camID := rowString camIDCol row in
  let status := rowString statusCol row in
  let uptimePercent := rowFloat uptimeCol row in
  let extraJSON := fst (BuildExtraJSON row mappedCols) in
  let keys := hashKeys (option_map (fun s => "cam_id:" +:+ s) camID) extraJSON in
  let rowHash := Util.HashRow vesselID ts "cctv" keys in
  let* err := exec (fun d => Store.insertCCTVReading d
               {| Store.r_vessel_id := vesselID; Store.r_ts := ts;
                  Store.r_row_hash := rowHash;
                  Store.r_extra_json := extraJSON;
                  Store.r_fields :=
                    {| Store.cam_id := camID; Store.cctv_status := status;
                       Store.uptime_percent := uptimePercent |} |}) in
  ret (countInsert err inserted, warnings).

(** [processCCTVSheet] *)
Definition processCCTVSheet (f : Workbook) (sheetName : string)
    (vesselID : Z) (defaultTS : Time) : M (Z * list string) :=
  match GetRows f sheetName with
  | Some (hs :: r1 :: rest) =>
      let mapper := NewHeaderMapper hs in
      let* '(tsCol, hasTS) := findTimestampHeader mapper in
      let* '(camIDCol, _) := findHeader mapper ["cam_id"; "camera"; "camera_id"; "cam"] in
      let* '(statusCol, _) := findHeader mapper ["status"; "state"] in
      let* '(uptimeCol, _) := findHeader mapper ["uptime"; "uptime_percent"; "availability"] in
      let mappedCols := [tsCol; camIDCol; statusCol; uptimeCol] in
      forRows (cctvRow hs vesselID defaultTS hasTS tsCol camIDCol statusCol
                       uptimeCol mappedCols)
              1 (r1 :: rest) (0, [])
  | _ => ret (0, sheetError sheetName)
  end.

(** The body of the loop of [processImpactSheet]. *)
Definition impactRow (hs : list string) (vesselID : Z) (defaultTS : Time)
    (hasTS : bool) (tsCol sensorIDCol accelCol shockCol notesCol : string)
    (mappedCols : list string)
    (i : Z) (cells : list string) (acc : Z * list string)
  : M (Z * list string) :=
  let '(inserted, warnings) := acc in
  let row := rowMap hs cells in
  let ts := rowTimestamp defaultTS hasTS tsCol row in
  let sensorID := rowString sensorIDCol row in
  let accelG := rowFloat accelCol row in
  let shockG := rowFloat shockCol row in
  let notes := rowString notesCol row in
  let extraJSON := fst (BuildExtraJSON row mappedCols) in
  let keys :=
    hashKeys (option_map (fun s => "sensor_id:" +:+ s) sensorID) extraJSON in
  let rowHash := Util.HashRow vesselID ts "impact" keys in
  let* err := exec (fun d => Store.insertImpactReading d
               {| Store.r_vessel_id := vesselID; Store.r_ts := ts;
                  Store.r_row_hash := rowHash;
                  Store.r_extra_json := extraJSON;
                  Store.r_fields :=
                    {| Store.sensor_id := sensorID; Store.accel_g := accelG;
                       Store.shock_g := shockG; Store.notes := notes |} |}) in
  ret (countInsert err inserted, warnings).

(** [processImpactSheet] *)
Definition processImpactSheet (f : Workbook) (sheetName : string)
    (vesselID : Z) (defaultTS : Time) : M (Z * list string) :=
  match GetRows f sheetName with
  | Some (hs :: r1 :: rest) =>
      let mapper := NewHeaderMapper hs in
      let* '(tsCol, hasTS) := findTimestampHeader mapper in
      let* '(sensorIDCol, _) := findHeader mapper ["sensor_id"; "sensor"; "device_id"] in
      let* '(accelCol, _) := findHeader mapper ["accel"; "acceleration"; "accel_g"] in
      let* '(shockCol, _) := findHeader mapper ["shock"; "shock_g"; "impact"] in
      let* '(notesCol, _) := findHeader mapper ["notes"; "note"; "comment"] in
      let mappedCols := [tsCol; sensorIDCol; accelCol; shockCol; notesCol] in
      forRows (impactRow hs vesselID defaultTS hasTS tsCol sensorIDCol accelCol
                         shockCol notesCol mappedCols)
              1 (r1 :: rest) (0, [])
  | _ => ret (0, sheetError sheetName)
  end.

(** *** [updateStreamLatest] *)

Definition updateStreamLatest (vesselID : Z) (rowsInserted : gmap string Z)
    (ts : Time) : M unit :=
  fold_right
    (fun sc (k : M unit) =>
       if 0 <? snd sc then
         let* _ := exec (fun d =>
                     Store.replaceStreamLatest d vesselID (fst sc) ts) in k
       else k)
    (ret tt) (map_to_list rowsInserted).

(** *** [ProcessFile] *)

(** One turn of the loop over the sheets of the workbook. *)
Definition processSheet (f : Workbook) (vesselID : Z) (uploadedAt : Time)
    (sheetName : string) (acc : gmap string Z * list string)
  : M (gmap string Z * list string) :=
  let '(rowsInserted, warnings) := acc in
  let sheetNameLower := GoStrings.ToLower sheetName in
  if GoStrings.Contains sheetNameLower "engine" then
    let* '(count, warns) := processEngineSheet f sheetName vesselID uploadedAt in
    ret (<["engines" := count]> rowsInserted, warnings ++ warns)
  else if GoStrings.Contains sheetNameLower "fuel" then
    let* '(count, warns) := processFuelSheet f sheetName vesselID uploadedAt in
    ret (<["fuel" := count]> rowsInserted, warnings ++ warns)
  else if GoStrings.Contains sheetNameLower "generator" then
    let* '(count, warns) := processGeneratorSheet f sheetName vesselID uploadedAt in
    ret (<["generators" := count]> rowsInserted, warnings ++ warns)
  else if GoStrings.Contains sheetNameLower "cctv" then
    let* '(count, warns) := processCCTVSheet f sheetName vesselID uploadedAt in
    ret (<["cctv" := count]> rowsInserted, warnings ++ warns)
  else if GoStrings.Contains sheetNameLower "impact" ||
          GoStrings.Contains sheetNameLower "vibration" then
    let* '(count, warns) := processImpactSheet f sheetName vesselID uploadedAt in
    ret (<["impact" := count]> rowsInserted, warnings ++ warns)
  else ret (rowsInserted, warnings).

Fixpoint processSheets (f : Workbook) (vesselID : Z) (uploadedAt : Time)
    (sheets : list string) (acc : gmap string Z * list string)
  : M (gmap string Z * list string) :=
  match sheets with
  | [] => ret acc
  | sheetName :: rest =>
      let* acc' := processSheet f vesselID uploadedAt sheetName acc in
      processSheets f vesselID uploadedAt rest acc'
  end.

(** [ProcessFile]. [now] is what [time.Now()] returns. The statement that
    would insert the upload row is commented out in the source, and the
    upload id is the constant 1. The reader's own error text, which the
    source wraps after "error opening XLSX: ", is not part of the model. *)
Definition ProcessFile (fileData filename imo vesselName : string)
    (periodStart : option Time) (now : Time) : M ProcessResult :=
  let fileHash := Util.SHA256Hex fileData in
  let* existing := query (fun d => Store.selectUploadByHash d fileHash) in
  match existing with
  | Some existingUploadID =>
      ret (ProcessReturn
             (Some {| Status := "already_ingested";
                      UploadID := Some existingUploadID;
                      VesselID := None; RowsInserted := ∅; Warnings := [] |})
             None)
  | None =>
      match excelize_OpenReader fileData with
      | None => ret (ProcessReturn None (Some (Errorf "error opening XLSX")))
      | Some f =>
          let uploadedAt := default now periodStart in
          let* r := processShipInfo f imo vesselName uploadedAt in
          match r with
          | ShipInfoPanic => ret ProcessPanic
          | ShipInfoReturn _ _ _ (Some e) =>
              ret (ProcessReturn None
                     (Some (Errorf ("error processing ship info: " +:+
                                    error_text e))))
          | ShipInfoReturn vesselID locationCount locationWarnings None =>
              let uploadID := 1 in
              let rowsInserted : gmap string Z :=
                if 0 <? locationCount
                then <["location" := locationCount]> ∅ else ∅ in
              let warnings := locationWarnings in
              let* '(rowsInserted, warnings) :=
                processSheets f vesselID uploadedAt (GetSheetList f)
                              (rowsInserted, warnings) in
              let* _ := updateStreamLatest vesselID rowsInserted uploadedAt in
              ret (ProcessReturn
                     (Some {| Status := "ingested";
                              UploadID := Some uploadID;
                              VesselID := Some vesselID;
                              RowsInserted := rowsInserted;
                              Warnings := warnings |})
                     None)
          end
      end
  end.

End WithPlatform.
End Ingest.

(** ** Package [internal/api]: [pagination.go] *)

Module Pagination.

Import GoTime.

(** [EncodeCursor] *)
Definition EncodeCursor (ts : Time) (id : Z) : string :=
  let cursor := FormatRFC3339 ts +:+ "|" +:+ Strconv.FormatInt id in
  Base64.EncodeToString cursor.

(** [DecodeCursor] *)
Definition DecodeCursor (s : string) : Time * Z * option error :=
  if String.eqb s "" then (zero, 0, None)
  else
    match Base64.DecodeString s with
    | None => (zero, 0, Some (Errorf "invalid cursor format"))
    | Some decoded =>
        match GoStrings.Split decoded "|" with
        | [p0; p1] =>
            match Parse RFC3339 p0 with
            | None => (zero, 0, Some (Errorf "invalid timestamp in cursor"))
            | Some ts =>
                match Strconv.ParseInt p1 with
                | inl _ => (zero, 0, Some (Errorf "invalid id in cursor"))
                | inr id => (ts, id, None)
                end
            end
        | _ => (zero, 0, Some (Errorf "invalid cursor format"))
        end
    end.

End Pagination.

(** ** A platform to run the embedding on

    An instance of [Platform] for the examples: bytes outside ASCII are
    left alone, a decimal numeral with at most fifteen digits is converted
    exactly (the quotient of two binary64 integers is correctly rounded),
    JSON strings are quoted without escapes, and a map is visited in the
    order of its keys' encodings. The workbook reader is a parameter. *)

Module Sample.

Fixpoint countDigits (s : string) : option (Z * Z) :=
  match s with
  | EmptyString => Some (0, 0)
  | String c s' =>
      if isDigit c then
        match countDigits s' with
        | Some (v, k) => Some (digit_val c * 10 ^ k + v, k + 1)
        | None => None
        end
      else None
  end.

Definition floatOfZ (z : Z) : float :=
  PrimFloat.of_uint63 (Uint63.of_Z z).

(** [int] or [int.frac], with an optional sign. *)
Definition parseDecimal (s : string) : option float :=
  let '(neg, body) :=
    match s with
    | String "-" r => (true, r)
    | String "+" r => (false, r)
    | _ => (false, s)
    end in
  let '(ip, rest) := GoTime.spanDigits body in
  let fp :=
    match rest with
    | EmptyString => Some EmptyString
    | String "." r => if String.eqb r "" then None else Some r
    | _ => None
    end in
  match fp with
  | None => None
  | Some fp =>
      if String.eqb ip "" then None
      else
        match countDigits (ip +:+ fp), countDigits fp with
        | Some (m, n), Some (_, k) =>
            if (15 <? n) then None
            else
              let v := (floatOfZ m / floatOfZ (10 ^ k))%float in
              Some (if neg then (- v)%float else v)
        | _, _ => None
        end
  end.

Definition quote (s : string) : string :=
  String (ascii_of_nat 34) (s +:+ String (ascii_of_nat 34) EmptyString).

Definition platform (open : string -> option Workbook) : Platform :=
  {| unicode_ToLower := GoStrings.mapBytes GoStrings.lowerByte;
     unicode_TrimSpace := fun s => s;
     unicode_TrimRightSpace := fun s => s;
     strconv_ParseFloat := parseDecimal;
     json_quote := quote;
     excelize_OpenReader := open;
     map_range := fun _ l => l |}.

Definition noWorkbook : Platform := platform (fun _ => None).

End Sample.

(** ** Package [internal/api]: [handlers.go]

    A handler reads the request from a [*fiber.Ctx] and answers with a
    status and a JSON body. *)

Module Api.
Section WithPlatform.
Context `{Platform}.

Import GoTime Ingest Pagination.

Local Notation "'let*' x := m 'in' k" := (bind m (fun x => k))
  (at level 10, x name, m at level 100, k at level 200, only parsing).

(** What [file.Open()] and [io.ReadAll] give for the uploaded file. *)
Inductive FileContent :=
| OpenFails
| ReadFails
| Content (data : string).

(** [*multipart.FileHeader] *)
Record FormFile := { Filename : string; content : FileContent }.

(** The parts of the request that the handlers read: the route
    parameters, the query string and the form file "file". *)
Record Ctx := {
  params : gmap string string;
  queries : gmap string string;
  formFile : option FormFile
}.

(** [c.Params(key)], [c.Query(key)]: the empty string when the key is
    absent *)
Definition Params (c : Ctx) (key : string) : string :=
  default "" (params c !! key).
Definition Query (c : Ctx) (key : string) : string :=
  default "" (queries c !! key).

(** An argument of a SQL statement. *)
Inductive SqlValue :=
| SqlInt (z : Z)
| SqlText (s : string)
| SqlTime (t : Time).

(** A row of a reading table scanned into the reading of its stream: the
    id, the timestamp, and the other columns as the driver gives them. *)
Record Reading := { ID : Z; Timestamp : Time; columns : list SqlValue }.

(** A row of a result set: [rows.Scan] gives a reading or an error. *)
Inductive ResultRow :=
| Scans (reading : Reading)
| ScanFails (err : error).

Inductive Body :=
| ErrorBody (msg : string)                    (* fiber.Map{"error": msg} *)
| IngestBody (resp : IngestResponse)
| PageBody (items : list Reading) (nextCursor : option string)
                                              (* models.PaginatedResponse *)
| UploadBody (upload : Store.Upload)
| ReadingBody (reading : Reading).            (* models.EngineReading *)

(** How a handler ends: it panics, or it answers. [c.JSON] answers with the
    status 200. *)
Inductive HandlerResult :=
| HandlerPanic
| Respond (status : Z) (body : Body).

(** *** [PostIngestXLSX] *)

(** [now] is what [time.Now()] returns in [ProcessFile]. *)
Definition PostIngestXLSX (allowUnsafeDuplicateIngest : bool) (c : Ctx)
    (now : Time) : M HandlerResult :=
  let imo := Query c "imo" in
  let vesselName := Query c "vessel_name" in
  if String.eqb imo "" && String.eqb vesselName "" then
    ret (Respond 400
           (ErrorBody "either 'imo' or 'vessel_name' parameter is required"))
  else
    let periodStartStr := Query c "period_start" in
    let parsed : option (option Time) :=
      if nonEmpty periodStartStr then
        match Parse RFC3339 periodStartStr with
        | Some ts => Some (Some ts)
        | None => None
        end
      else Some None in
    match parsed with
    | None =>
        ret (Respond 400
               (ErrorBody "invalid period_start format, use ISO 8601"))
    | Some periodStart =>
        match formFile c with
        | None => ret (Respond 400 (ErrorBody "file is required"))
        | Some file =>
            match content file with
            | OpenFails => ret (Respond 500 (ErrorBody "failed to open file"))
            | ReadFails => ret (Respond 500 (ErrorBody "failed to read file"))
            | Content fileData =>
                let* r := ProcessFile fileData (Filename file) imo vesselName
                                      periodStart now in
                match r with
                | ProcessPanic => ret HandlerPanic
                | ProcessReturn _ (Some err) =>
                    ret (Respond 500 (ErrorBody (error_text err)))
                | ProcessReturn None None =>
                    ret HandlerPanic    (* response.Status with response == nil *)
                | ProcessReturn (Some response) None =>
                    if String.eqb (Status response) "already_ingested" &&
                       negb allowUnsafeDuplicateIngest
                    then ret (Respond 409 (IngestBody response))
                    else ret (Respond 200 (IngestBody response))
                end
            end
        end
    end.

(** *** [GetUpload] *)

(** [SELECT ... FROM uploads WHERE id = ?]; [None] is [sql.ErrNoRows].
    The column [note] is not in the store. *)
Definition selectUploadByID (d : Store.State) (id : Z) : option Store.Upload :=
  find (fun u => Store.u_id u =? id) (Store.uploads d).

Definition GetUpload (c : Ctx) : M HandlerResult :=
  match Strconv.ParseInt (Params c "id") with
  | inl _ => ret (Respond 400 (ErrorBody "invalid upload id"))
  | inr id =>
      let* row := query (fun d => selectUploadByID d id) in
      match row with
      | None => ret (Respond 404 (ErrorBody "upload not found"))
      | Some upload => ret (Respond 200 (UploadBody upload))
      end
  end.

(** *** [GetVesselTelemetry] *)

(** [t.IsZero()]: the instant is January 1, year 1, 00:00:00 UTC, in
    whatever zone it is expressed. *)
Definition daysBeforeYear (y : Z) : Z :=
  365 * (y - 1) + (y - 1) / 4 - (y - 1) / 100 + (y - 1) / 400.

Definition daysBeforeMonth (m y : Z) : Z :=
  fold_right Z.add 0
    (map (fun k => daysIn (Z.of_nat k) y) (seq 1 (Z.to_nat m - 1))).

(** Seconds since January 1, year 1, 00:00:00 UTC. *)
Definition absSeconds (t : Time) : Z :=
  (daysBeforeYear (year t) + daysBeforeMonth (month t) (year t) + (day t - 1))
    * 86400
  + hour t * 3600 + minute t * 60 + second t - offset t.

Definition IsZero (t : Time) : bool :=
  (absSeconds t =? 0) && (nsec t =? 0).

(** The limit of a page: 200, unless the query gives a number from 1 to
    1000. *)
Definition telemetryLimit (c : Ctx) : Z :=
  let limit := 200 in
  let limitStr := Query c "limit" in
  if nonEmpty limitStr then
    match Strconv.Atoi limitStr with
    | inr l => if (0 <? l) && (l <=? 1000) then l else limit
    | inl _ => limit
    end
  else limit.

Definition newline : string := String (ascii_of_nat 10) "".
Definition tab : string := String (ascii_of_nat 9) "".

(** The text of the SELECT statement of a stream, a raw string literal of
    the source: three lines, indented with tabs. *)
Definition selectText (cols table : string) : string :=
  newline +:+ tab +:+ tab +:+ tab +:+ "SELECT " +:+ cols +:+
  newline +:+ tab +:+ tab +:+ tab +:+ "FROM " +:+ table +:+ " " +:+
  newline +:+ tab +:+ tab +:+ tab +:+ "WHERE vessel_id = ?" +:+
  newline +:+ tab +:+ tab.

(** [if s := c.Query(key); s != "" { if n, err := strconv.Atoi(s);
    err == nil { query += clause; args = append(args, n) } }] *)
Definition numberFilter (c : Ctx) (key clause : string)
    (q : string * list SqlValue) : string * list SqlValue :=
  let s := Query c key in
  if nonEmpty s then
    match Strconv.Atoi s with
    | inr n => (fst q +:+ clause, snd q ++ [SqlInt n])
    | inl _ => q
    end
  else q.

(** [if s := c.Query(key); s != "" { query += clause;
    args = append(args, s) }] *)
Definition textFilter (c : Ctx) (key clause : string)
    (q : string * list SqlValue) : string * list SqlValue :=
  let s := Query c key in
  if nonEmpty s then (fst q +:+ clause, snd q ++ [SqlText s]) else q.

(** [if s := c.Query(key); s != "" { if t, err := time.Parse(time.RFC3339,
    s); err == nil { query += clause; args = append(args, t) } }] *)
Definition timeFilter (c : Ctx) (key clause : string)
    (q : string * list SqlValue) : string * list SqlValue :=
  let s := Query c key in
  if nonEmpty s then
    match Parse RFC3339 s with
    | Some t => (fst q +:+ clause, snd q ++ [SqlTime t])
    | None => q
    end
  else q.

(** The [switch stream]: the statement and its arguments, [None] for the
    default case. *)
Definition streamQuery (c : Ctx) (stream : string) (vesselID : Z)
  : option (string * list SqlValue) :=
  if String.eqb stream "engines" then
    Some (numberFilter c "engine_no" " AND engine_no = ?"
            (selectText "id, vessel_id, engine_no, ts, rpm, temp_c, oil_pressure_bar, alarms, row_hash, extra_json, created_at"
                        "engine_readings",
             [SqlInt vesselID]))
  else if String.eqb stream "fuel" then
    Some (numberFilter c "tank_no" " AND tank_no = ?"
            (selectText "id, vessel_id, tank_no, ts, level_percent, volume_liters, temp_c, row_hash, extra_json, created_at"
                        "fuel_tank_readings",
             [SqlInt vesselID]))
  else if String.eqb stream "generators" then
    Some (numberFilter c "gen_no" " AND gen_no = ?"
            (selectText "id, vessel_id, gen_no, ts, load_kw, voltage_v, frequency_hz, fuel_rate_lph, row_hash, extra_json, created_at"
                        "generator_readings",
             [SqlInt vesselID]))
  else if String.eqb stream "cctv" then
    Some (textFilter c "cam_id" " AND cam_id = ?"
            (selectText "id, vessel_id, cam_id, ts, status, uptime_percent, row_hash, extra_json, created_at"
                        "cctv_status_readings",
             [SqlInt vesselID]))
  else if String.eqb stream "impact" then
    Some (textFilter c "sensor_id" " AND sensor_id = ?"
            (selectText "id, vessel_id, sensor_id, ts, accel_g, shock_g, notes, row_hash, extra_json, created_at"
                        "impact_vibration_readings",
             [SqlInt vesselID]))
  else if String.eqb stream "location" then
    Some (selectText "id, vessel_id, ts, latitude, longitude, course_degrees, speed_knots, status, row_hash, extra_json, created_at"
                     "location_readings",
          [SqlInt vesselID])
  else None.

(** The state of the loop over the result set. *)
Record Scan := {
  rest : list ResultRow;      (* the rows [rows.Next()] has not passed *)
  items : list Reading;
  lastTS : Time;
  lastID : Z
}.

(** [for rows.Next() && count < limit { count++; ... }]. [rows.Next()]
    is called first: it moves to the next row, and only then is the count
    compared with the limit. The rows of every stream are scanned in the
    same way: an error ends the handler, a reading is appended and gives
    [lastTS] and [lastID]. *)
Fixpoint scanRows (rows : list ResultRow) (count limit : Z)
    (items : list Reading) (lastTS : Time) (lastID : Z) : error + Scan :=
  match rows with
  | [] =>
      inr {| rest := []; items := items; lastTS := lastTS; lastID := lastID |}
  | row :: rows' =>
      if count <? limit then
        match row with
        | ScanFails err => inl err
        | Scans reading =>
            scanRows rows' (count + 1) limit (items ++ [reading])
                     (Timestamp reading) (ID reading)
        end
      else
        inr {| rest := rows'; items := items;
               lastTS := lastTS; lastID := lastID |}
  end.

(** The reading tables of the store keep no row ids, so the result set of
    the statement is what the driver answers: [sqlQuery query args] is
    [h.db.Query(query, args...)]. *)
Definition GetVesselTelemetry
    (sqlQuery : string -> list SqlValue -> error + list ResultRow)
    (c : Ctx) : HandlerResult :=
  match Strconv.ParseInt (Params c "id") with
  | inl _ => Respond 400 (ErrorBody "invalid vessel id")
  | inr vesselID =>
      let stream := Query c "stream" in
      if String.eqb stream "" then
        Respond 400 (ErrorBody "stream parameter is required")
      else
        let limit := telemetryLimit c in
        let cursor := Query c "cursor" in
        match DecodeCursor cursor with
        | (_, _, Some _) => Respond 400 (ErrorBody "invalid cursor")
        | (cursorTS, cursorID, None) =>
            match streamQuery c stream vesselID with
            | None => Respond 400 (ErrorBody "invalid stream")
            | Some q =>
                let q := timeFilter c "from" " AND ts >= ?" q in
                let q := timeFilter c "to" " AND ts <= ?" q in
                let q :=
                  if negb (IsZero cursorTS) then
                    (fst q +:+ " AND (ts > ? OR (ts = ? AND id > ?))",
                     snd q ++ [SqlTime cursorTS; SqlTime cursorTS;
                               SqlInt cursorID])
                  else q in
                let query := fst q +:+ " ORDER BY ts, id LIMIT ?" in
                let args := snd q ++ [SqlInt (limit + 1)] in
                match sqlQuery query args with
                | inl err => Respond 500 (ErrorBody (error_text err))
                | inr rows =>
                    match scanRows rows 0 limit [] zero 0 with
                    | inl err => Respond 500 (ErrorBody (error_text err))
                    | inr s =>
                        (* if rows.Next() { nextCursor := ... } *)
                        let nextCursor :=
                          match rest s with
                          | _ :: _ => Some (EncodeCursor (lastTS s) (lastID s))
                          | [] => None
                          end in
                        Respond 200 (PageBody (items s) nextCursor)
                    end
                end
            end
        end
  end.

(** *** [GetVesselLatest] *)

(** What [h.db.QueryRow(query, args...).Scan(...)] gives: [sql.ErrNoRows],
    another error, or the row. *)
Inductive RowResult :=
| NoRows
| RowFails (err : error)
| RowScans (reading : Reading).

(** [sqlQueryRow query args] is [h.db.QueryRow(query, args...).Scan]. The
    [switch stream] has the case "engines" and the default case. *)
Definition GetVesselLatest
    (sqlQueryRow : string -> list SqlValue -> RowResult) (c : Ctx)
  : HandlerResult :=
  match Strconv.ParseInt (Params c "id") with
  | inl _ => Respond 400 (ErrorBody "invalid vessel id")
  | inr vesselID =>
      let stream := Query c "stream" in
      if String.eqb stream "" then
        Respond 400 (ErrorBody "stream parameter is required")
      else if String.eqb stream "engines" then
        let q :=
          numberFilter c "engine_no" " AND engine_no = ?"
            (selectText "id, vessel_id, engine_no, ts, rpm, temp_c, oil_pressure_bar, alarms, row_hash, extra_json, created_at"
                        "engine_readings",
             [SqlInt vesselID]) in
        let query := fst q +:+ " ORDER BY ts DESC, id DESC LIMIT 1" in
        match sqlQueryRow query (snd q) with
        | NoRows => Respond 404 (ErrorBody "no data found")
        | RowFails err => Respond 500 (ErrorBody (error_text err))
        | RowScans reading => Respond 200 (ReadingBody reading)
        end
      else
        Respond 400 (ErrorBody "stream not implemented for latest endpoint")
  end.

End WithPlatform.
End Api.

(** ** Inputs for the examples of the handlers *)

(** A workbook without ship-info sheet: an engine sheet with two data
    rows, the second with a negative RPM, and a CCTV sheet that has its
    header row only. *)
Definition bareWorkbook : Workbook :=
  {| wb_sheets :=
       [("Engines",
         Some [["Timestamp"; "Engine"; "RPM"];
               ["2025-08-08T10:00:00Z"; "1"; "1500"];
               ["2025-08-08T11:00:00Z"; "1"; "-5"]]);
        ("CCTV", Some [["Camera"; "Status"]])] |}.

Definition barePlatform : Platform :=
  Sample.platform (fun _ => Some bareWorkbook).

(** A workbook with two CCTV sheets, of two data rows and of one, and an
    impact sheet after them. *)
Definition cameraWorkbook : Workbook :=
  {| wb_sheets :=
       [("CCTV fore",
         Some [["Camera"; "Status"]; ["C1"; "online"]; ["C2"; "offline"]]);
        ("CCTV aft",
         Some [["Camera"; "Status"]; ["C3"; "online"]]);
        ("Impact", Some [["Sensor"; "Shock"]; ["S1"; "0.4"]])] |}.

Definition cameraPlatform : Platform :=
  Sample.platform (fun _ => Some cameraWorkbook).

Definition sampleReading (id hour : Z) : Api.Reading :=
  {| Api.ID := id; Api.Timestamp := GoTime.Date 2025 8 8 hour 0 0 0 0;
     Api.columns := [] |}.

(** Three rows of a stream, in the order of the statement. *)
Definition sampleRows : list Api.ResultRow :=
  [Api.Scans (sampleReading 1 10); Api.Scans (sampleReading 2 11);
   Api.Scans (sampleReading 3 12)].

(** A driver that honours LIMIT: it answers with the first rows, as many
    as the last argument of the statement says. *)
Definition sampleDriver (query : string) (args : list Api.SqlValue)
  : error + list Api.ResultRow :=
  match last args with
  | Some (Api.SqlInt n) => inr (firstn (Z.to_nat n) sampleRows)
  | _ => inr []
  end.

(** GET /vessels/1/telemetry?stream=engines&limit=2 *)
Definition telemetryRequest : Api.Ctx :=
  {| Api.params := <["id" := "1"]> ∅;
     Api.queries := <["stream" := "engines"]> (<["limit" := "2"]> ∅);
     Api.formFile := None |}.

(** GET /vessels/1/telemetry?stream=engines&from=yesterday *)
Definition filteredRequest : Api.Ctx :=
  {| Api.params := <["id" := "1"]> ∅;
     Api.queries := <["stream" := "engines"]> (<["from" := "yesterday"]> ∅);
     Api.formFile := None |}.

(** GET /vessels/1/latest?stream=fuel *)
Definition fuelRequest : Api.Ctx :=
  {| Api.params := <["id" := "1"]> ∅;
     Api.queries := <["stream" := "fuel"]> ∅;
     Api.formFile := None |}.

(** POST /ingest/xlsx?imo=2222222 with the file "file-1" *)
Definition ingestRequest : Api.Ctx :=
  {| Api.params := ∅;
     Api.queries := <["imo" := "2222222"]> ∅;
     Api.formFile :=
       Some {| Api.Filename := "telemetry.xlsx";
               Api.content := Api.Content "file-1" |} |}.

(** GET /uploads/1 *)
Definition uploadRequest : Api.Ctx :=
  {| Api.params := <["id" := "1"]> ∅; Api.queries := ∅;
     Api.formFile := None |}.

(** * Properties *)

(** ** The embedding on the inputs of the repository's tests *)

Example sha256_abc :
  Util.SHA256Hex "abc" =
  "ba7816bf8f01cfea414140de5dae2223b00361a396177a9cb410ff61f20015ad".
Proof. vm_compute. reflexivity. Qed.

Example sha256_empty :
  Util.SHA256Hex "" =
  "e3b0c44298fc1c149afbf4c8996fb92427ae41e4649b934ca495991b7852b855".
Proof. vm_compute. reflexivity. Qed.

Example sha256_two_blocks :
  Util.SHA256Hex "abcdbcdecdefdefgefghfghighijhijkijkljklmklmnlmnomnopnopq" =
  "248d6a61d20638b8e5c026930c3e6039a33ce45964ff2167f6ecedd419db06c1".
Proof. vm_compute. reflexivity. Qed.

Example base64_hello :
  Base64.EncodeToString "hello" = "aGVsbG8=" /\
  Base64.DecodeString "aGVsbG8=" = Some "hello".
Proof. vm_compute. split; reflexivity. Qed.

(** ** Field validators *)

Section Validators.

Import Mapper.
Local Open Scope float_scope.

Definition levelWarning : string := "invalid fuel level percentage".
Definition frequencyWarning : string := "frequency out of range (45-70 Hz)".

Lemma fuel_level_warned (level : float) (volume temp : option float) :
  In levelWarning (ValidateFuelData (Some level) volume temp) <->
  (level <? 0) = true \/ (100 <? level) = true.
Proof.
  unfold ValidateFuelData, levelWarning.
  destruct (level <? 0) eqn:Hlo, (100 <? level) eqn:Hhi;
    destruct volume as [v|]; try destruct (v <? 0); cbn;
    intuition (try discriminate; try congruence).
Qed.

Lemma generator_frequency_warned (frequency : float)
    (load voltage fuelRate : option float) :
  In frequencyWarning
     (ValidateGeneratorData load voltage (Some frequency) fuelRate) <->
  (frequency <? 45) = true \/ (70 <? frequency) = true.
Proof.
  unfold ValidateGeneratorData, frequencyWarning.
  destruct (frequency <? 45) eqn:Hlo, (70 <? frequency) eqn:Hhi;
    destruct load as [l|]; try destruct (l <? 0);
    destruct voltage as [u|]; try destruct (u <? 0);
    destruct fuelRate as [r|]; try destruct (r <? 0); cbn;
    intuition (try discriminate; try congruence).
Qed.

(** C8. The range checks of [ValidateFuelData] and [ValidateGeneratorData]
    include their bounds: a fuel level of 0 or of 100 gives no warning, a
    level below 0 or above 100 gives one (so do -0.01 and 100.01); a
    frequency of 45 or of 70 gives no warning, a frequency below 45 or
    above 70 gives one (so do 44.99 and 70.01). *)
Theorem validator_bounds_inclusive :
  (forall temp, ValidateFuelData (Some 0) None temp = []) /\
  (forall temp, ValidateFuelData (Some 100) None temp = []) /\
  (forall level volume temp,
      (level <? 0) = true \/ (100 <? level) = true ->
      In levelWarning (ValidateFuelData (Some level) volume temp)) /\
  (forall volume temp,
      ~ In levelWarning (ValidateFuelData (Some 0) volume temp) /\
      ~ In levelWarning (ValidateFuelData (Some 100) volume temp) /\
      In levelWarning (ValidateFuelData (Some (-0x1.47ae147ae147bp-7)) volume temp) /\
      In levelWarning (ValidateFuelData (Some 0x1.900a3d70a3d71p+6) volume temp)) /\
  ValidateGeneratorData None None (Some 45) None = [] /\
  ValidateGeneratorData None None (Some 70) None = [] /\
  (forall frequency load voltage fuelRate,
      (frequency <? 45) = true \/ (70 <? frequency) = true ->
      In frequencyWarning
         (ValidateGeneratorData load voltage (Some frequency) fuelRate)) /\
  (forall load voltage fuelRate,
      ~ In frequencyWarning (ValidateGeneratorData load voltage (Some 45) fuelRate) /\
      ~ In frequencyWarning (ValidateGeneratorData load voltage (Some 70) fuelRate) /\
      In frequencyWarning
         (ValidateGeneratorData load voltage (Some 0x1.67eb851eb851fp+5) fuelRate) /\
      In frequencyWarning
         (ValidateGeneratorData load voltage (Some 0x1.180a3d70a3d71p+6) fuelRate)).
Proof.
  repeat split; try reflexivity.
  - intros; now apply fuel_level_warned.
  - rewrite fuel_level_warned. cbn. intuition discriminate.
  - rewrite fuel_level_warned. cbn. intuition discriminate.
  - apply fuel_level_warned. left. reflexivity.
  - apply fuel_level_warned. right. reflexivity.
  - intros; now apply generator_frequency_warned.
  - rewrite generator_frequency_warned. cbn. intuition discriminate.
  - rewrite generator_frequency_warned. cbn. intuition discriminate.
  - apply generator_frequency_warned. left. reflexivity.
  - apply generator_frequency_warned. right. reflexivity.
Qed.

(** C10. A validator that is given no value warns about nothing: with
    every argument absent, each of the four validators returns the empty
    list. *)
Theorem validators_vacuous_on_absent :
  ValidateEngineData None None None = [] /\
  ValidateFuelData None None None = [] /\
  ValidateGeneratorData None None None None = [] /\
  ValidateLocationData None None None None = [].
Proof. repeat split. Qed.

End Validators.

(** The decimal numerals of the specification are the binary64 values used
    in [validator_bounds_inclusive]. *)
Example validator_bound_literals :
  Sample.parseDecimal "-0.01" = Some (-0x1.47ae147ae147bp-7)%float /\
  Sample.parseDecimal "100.01" = Some 0x1.900a3d70a3d71p+6%float /\
  Sample.parseDecimal "44.99" = Some 0x1.67eb851eb851fp+5%float /\
  Sample.parseDecimal "70.01" = Some 0x1.180a3d70a3d71p+6%float.
Proof. vm_compute. repeat split. Qed.

(** ** Row fingerprints *)

Section HashRow.

Import Util.

Lemma sortStrings_perm (keys keys' : list string) :
  keys ≡ₚ keys' -> sortStrings keys = sortStrings keys'.
Proof.
  intros Hp. unfold sortStrings.
  apply (Sorted_unique String.le).
  - apply Sorted_merge_sort; apply _.
  - apply Sorted_merge_sort; apply _.
  - now rewrite !merge_sort_Permutation.
Qed.

Lemma sortStrings_idem (keys : list string) :
  sortStrings (sortStrings keys) = sortStrings keys.
Proof. apply sortStrings_perm, merge_sort_Permutation. Qed.

(** C3. [HashRow] is a function of the vessel id, the timestamp, the
    stream and the keys up to their order: two key lists that are
    permutations of one another give the same hash, and so does a second
    call on the slice as the first call left it (sorted in place). *)
Theorem HashRow_order_independent (vesselID : Z) (ts : GoTime.Time)
    (stream : string) (keys keys' : list string) :
  keys ≡ₚ keys' ->
  HashRow vesselID ts stream keys = HashRow vesselID ts stream keys' /\
  HashRow vesselID ts stream (sortStrings keys) =
  HashRow vesselID ts stream keys.
Proof.
  intros Hp. unfold HashRow. split.
  - now rewrite (sortStrings_perm keys keys').
  - now rewrite sortStrings_idem.
Qed.

Lemma HashRow_order_independent_witness :
  ["engine_no:1"; "rpm:1500"] ≡ₚ ["rpm:1500"; "engine_no:1"] /\
  HashRow 123 (GoTime.Date 2025 8 8 10 0 0 0 0) "engines"
          ["engine_no:1"; "rpm:1500"] =
  HashRow 123 (GoTime.Date 2025 8 8 10 0 0 0 0) "engines"
          ["rpm:1500"; "engine_no:1"].
Proof.
  split; [apply perm_swap|].
  exact (proj1 (HashRow_order_independent 123 (GoTime.Date 2025 8 8 10 0 0 0 0)
                  "engines" ["engine_no:1"; "rpm:1500"]
                  ["rpm:1500"; "engine_no:1"] (perm_swap _ _ _))).
Defined.

End HashRow.

(** ** The sheet processors *)

(** Runs one [findHeader] of the goal, keeping only that it leaves the
    database alone ([db_lemma]). *)
Ltac step_find_with db_lemma :=
  match goal with
  | |- context [Ingest.findHeader ?m ?p ?w] =>
      let E := fresh "E" in
      let D := fresh "D" in
      pose proof (db_lemma m p w) as D;
      destruct (Ingest.findHeader m p w) as [[? ?] ?] eqn:E; cbn [snd] in D
  end.

Ltac step_find_as db_lemma c f w' D :=
  match goal with
  | |- context [Ingest.findHeader ?m ?p ?w] =>
      pose proof (db_lemma m p w) as D;
      destruct (Ingest.findHeader m p w) as [[c f] w']; cbn [snd] in D
  end.

Lemma find_append {A} (p : A -> bool) (l l' : list A) :
  find p (l ++ l') =
  match find p l with
  | Some x => Some x
  | None => find p l'
  end.
Proof.
  induction l as [|a l IH]; [reflexivity|]. cbn. destruct (p a); auto.
Qed.

Section Sheets.

Context `{Platform}.
Import Mapper Ingest.

Lemma findHeader_db (mapper : HeaderMapper) (patterns : list string) (w : World) :
  db (snd (findHeader mapper patterns w)) = db w.
Proof.
  unfold findHeader. destruct (FindHeader _ _ _) as [[col found] n]. reflexivity.
Qed.

Ltac step_find := step_find_with findHeader_db.

Lemma locationValues_db (hs data : list string) (defaultTS : GoTime.Time)
    (mapper : HeaderMapper) (w : World) :
  db (snd (locationValues hs data defaultTS mapper w)) = db w.
Proof.
  unfold locationValues, findTimestampHeader, bind, ret.
  repeat step_find. cbn. congruence.
Qed.

Lemma length_pos_nonnil {A} (l : list A) :
  l <> [] -> (0 <? length l)%nat = true.
Proof. destruct l; [congruence | reflexivity]. Qed.

(** *** Rows with validation warnings *)

(** An engine row whose validator warns is skipped: one warning is added,
    the counter and the database stay as they are. *)
Lemma engine_row_skipped (hs : list string) (vesselID : Z)
    (defaultTS : GoTime.Time) (hasTS : bool)
    (tsCol engineNoCol rpmCol tempCol pressureCol alarmsCol : string)
    (mappedCols : list string) (i : Z) (cells : list string)
    (inserted : Z) (warnings : list string) (w : World) :
  let row := rowMap hs cells in
  let warns := ValidateEngineData (rowFloat rpmCol row) (rowFloat tempCol row)
                                  (rowFloat pressureCol row) in
  warns <> [] ->
  engineRow hs vesselID defaultTS hasTS tsCol engineNoCol rpmCol tempCol
            pressureCol alarmsCol mappedCols i cells (inserted, warnings) w =
  ((inserted, warnings ++ [rowWarning i "engines" warns]), w).
Proof.
  intros row warns Hw. unfold engineRow. fold row. fold warns.
  rewrite (length_pos_nonnil _ Hw). reflexivity.
Qed.

(** So is a fuel row. *)
Lemma fuel_row_skipped (hs : list string) (vesselID : Z)
    (defaultTS : GoTime.Time) (hasTS : bool)
    (tsCol tankNoCol capCol curCol tempCol : string)
    (mappedCols : list string) (i : Z) (cells : list string)
    (inserted : Z) (warnings : list string) (w : World) :
  let row := rowMap hs cells in
  let warns :=
    ValidateFuelData
      (levelPercentOf (currentLiters capCol curCol row)
                      (capacityLiters capCol row))
      (currentLiters capCol curCol row) (rowFloat tempCol row) in
  warns <> [] ->
  fuelRow hs vesselID defaultTS hasTS tsCol tankNoCol capCol curCol tempCol
          mappedCols i cells (inserted, warnings) w =
  ((inserted, warnings ++ [rowWarning i "fuel" warns]), w).
Proof.
  intros row warns Hw. unfold fuelRow. fold row. fold warns.
  rewrite (length_pos_nonnil _ Hw). reflexivity.
Qed.

(** So is a generator row. *)
Lemma generator_row_skipped (hs : list string) (vesselID : Z)
    (defaultTS : GoTime.Time) (hasTS : bool)
    (tsCol genNoCol loadCol voltageCol freqCol fuelRateCol : string)
    (mappedCols : list string) (i : Z) (cells : list string)
    (inserted : Z) (warnings : list string) (w : World) :
  let row := rowMap hs cells in
  let warns :=
    ValidateGeneratorData (rowFloat loadCol row) (rowFloat voltageCol row)
                          (rowFloat freqCol row) (rowFloat fuelRateCol row) in
  warns <> [] ->
  generatorRow hs vesselID defaultTS hasTS tsCol genNoCol loadCol voltageCol
               freqCol fuelRateCol mappedCols i cells (inserted, warnings) w =
  ((inserted, warnings ++ [rowWarning i "generators" warns]), w).
Proof.
  intros row warns Hw. unfold generatorRow. fold row. fold warns.
  rewrite (length_pos_nonnil _ Hw). reflexivity.
Qed.

(** C2 (amended). A location row whose validator gives a warning is not
    inserted: [processLocationFromShipInfo] returns the count 0 and the
    single warning "location data: ..." that joins the validator's
    warnings, and leaves the database as it was. Location rows are skipped
    on validation warnings like engine, fuel and generator rows. *)
Theorem location_row_skipped_on_warning
    (hs data : list string) (vesselID : Z) (defaultTS : GoTime.Time)
    (mapper : HeaderMapper) (w w1 : World)
    (ts : GoTime.Time) (latitude longitude course speed : option float)
    (status : option string) :
  locationValues hs data defaultTS mapper w =
    ((ts, latitude, longitude, course, speed, status), w1) ->
  ValidateLocationData latitude longitude course speed <> [] ->
  processLocationFromShipInfo hs data vesselID defaultTS mapper w =
    ((0, ["location data: " +:+
          GoStrings.Join
            (ValidateLocationData latitude longitude course speed) ", "]),
     w1) /\
  db w1 = db w.
Proof.
  intros Hv Hw. split.
  - unfold processLocationFromShipInfo, bind. rewrite Hv.
    rewrite (length_pos_nonnil _ Hw). reflexivity.
  - pose proof (locationValues_db hs data defaultTS mapper w) as Hd.
    rewrite Hv in Hd. exact Hd.
Qed.

(** *** Fuel rows *)






End Sheets.

(** The inputs of the examples: a database with one vessel, and a workbook
    with a ship-info sheet whose latitude is out of range, an engine sheet
    with a time-only timestamp, and a fuel sheet in cubic meters. *)

Definition sampleWorkbook : Workbook :=
  {| wb_sheets :=
       [("Ship Info",
         Some [["IMO"; "Name"; "Flag"; "Latitude"; "Longitude"; "Owner"];
               ["1111111"; "Ever Given"; "PA"; "95.0"; "10.5"; "ACME"]]);
        ("Engines",
         Some [["Timestamp"; "Engine"; "RPM"; "Temp"; "Oil Pressure"; "Maker"];
               ["2025-08-08T10:00:00Z"; "Engine #2 (Port)"; "1500"; "80.5"; "5"; "MAN"];
               ["10:30:00"; "1"; "900"; ""; ""; ""]]);
        ("Fuel Tanks",
         Some [["Tank"; "Capacity(m3)"]; ["1"; "10"]])] |}.

Definition samplePlatform : Platform :=
  Sample.platform
    (fun data => if String.eqb data "file-1" then Some sampleWorkbook else None).

Definition emptyWorld : Ingest.World :=
  {| Ingest.db := Store.empty; Ingest.ranges := 0 |}.

Definition oneVessel : Ingest.World :=
  {| Ingest.db :=
       Store.set_vessels Store.empty
         [{| Store.v_id := 1; Store.v_imo := Some "2222222";
             Store.v_name := "Ever Given"; Store.v_flag := None;
             Store.v_type := None |}];
     Ingest.ranges := 0 |}.

Definition referenceTS : GoTime.Time := GoTime.Date 2025 8 8 10 0 0 0 0.

Section SheetExamples.

Local Existing Instance samplePlatform.
Import Mapper Ingest.

Definition shipHeaders : list string :=
  ["IMO"; "Name"; "Flag"; "Latitude"; "Longitude"; "Owner"].
Definition shipData : list string :=
  ["1111111"; "Ever Given"; "PA"; "95.0"; "10.5"; "ACME"].

(** C2, as stated, fails on a row with latitude 95: the validator warns,
    and the row is not inserted. *)
Lemma location_row_with_warning_not_kept :
  let mapper := NewHeaderMapper shipHeaders in
  let out := processLocationFromShipInfo shipHeaders shipData 1 referenceTS
               mapper oneVessel in
  fst (locationValues shipHeaders shipData referenceTS mapper oneVessel)
    = (referenceTS, Some 95%float, Some 10.5%float, None, None, None) /\
  ValidateLocationData (Some 95%float) (Some 10.5%float) None None
    = ["latitude out of range (-90 to 90)"] /\
  fst out = (0, ["location data: latitude out of range (-90 to 90)"]) /\
  Store.location_readings (db (snd out)) = [].
Proof. vm_compute. repeat split. Qed.

Lemma location_row_skipped_on_warning_witness :
  let mapper := NewHeaderMapper shipHeaders in
  let out := processLocationFromShipInfo shipHeaders shipData 1 referenceTS
               mapper oneVessel in
  fst out = (0, ["location data: latitude out of range (-90 to 90)"]) /\
  Store.location_readings (db (snd out)) = [].
Proof.
  intros mapper out.
  assert (Hv : locationValues shipHeaders shipData referenceTS mapper oneVessel =
               ((referenceTS, Some 95%float, Some 10.5%float, None, None, None),
                snd (locationValues shipHeaders shipData referenceTS mapper
                       oneVessel)))
    by (vm_compute; reflexivity).
  assert (Hw : ValidateLocationData (Some 95%float) (Some 10.5%float) None None
               <> []) by (vm_compute; discriminate).
  destruct (location_row_skipped_on_warning shipHeaders shipData 1 referenceTS
              mapper oneVessel _ _ _ _ _ _ _ Hv Hw) as [P D].
  subst out. rewrite P. cbn [fst snd]. rewrite D. split; reflexivity.
Defined.

End SheetExamples.

(** ** Vessel identity *)

Section ShipInfo.

Context `{Platform}.
Import Mapper Ingest.

Ltac step_find := step_find_with findHeader_db.

Lemma selectVesselByIMO_Some (d : Store.State) (imo : string) (id : Z) :
  Store.selectVesselByIMO d imo = Some id ->
  exists v, In v (Store.vessels d) /\ Store.v_id v = id /\
            Store.v_imo v = Some imo.
Proof.
  unfold Store.selectVesselByIMO.
  destruct (find _ _) as [v|] eqn:E; [|discriminate].
  intros [= <-]. apply find_some in E as [Hin Hb].
  apply bool_decide_eq_true in Hb. eauto.
Qed.

Lemma find_imo_update (imo : string) (id : Z) (name : string)
    (flag type : option string) (vs : list Store.Vessel) :
  option_map Store.v_id
    (find (fun v => bool_decide (Store.v_imo v = Some imo))
       (map (fun v =>
               if Store.v_id v =? id
               then {| Store.v_id := Store.v_id v; Store.v_imo := Store.v_imo v;
                       Store.v_name := name; Store.v_flag := flag;
                       Store.v_type := type |}
               else v) vs)) =
  option_map Store.v_id
    (find (fun v => bool_decide (Store.v_imo v = Some imo)) vs).
Proof.
  induction vs as [|v vs IH]; [reflexivity|]. cbn [map find].
  destruct (Store.v_id v =? id); cbn [Store.v_imo];
    destruct (bool_decide (Store.v_imo v = Some imo)); auto.
Qed.

Lemma selectVesselByIMO_ext (d d' : Store.State) (imo : string) :
  Store.vessels d = Store.vessels d' ->
  Store.selectVesselByIMO d imo = Store.selectVesselByIMO d' imo.
Proof. unfold Store.selectVesselByIMO. now intros ->. Qed.

(** An update of name, flag and type does not move a vessel to another
    IMO. *)
Lemma selectVesselByIMO_update (d : Store.State) (id : Z) (name : string)
    (flag type : option string) (imo : string) :
  Store.selectVesselByIMO (snd (Store.updateVessel d id name flag type)) imo =
  Store.selectVesselByIMO d imo.
Proof.
  unfold Store.selectVesselByIMO, Store.updateVessel. cbn.
  pose proof (find_imo_update imo id name flag type (Store.vessels d)) as E.
  destruct (find _ (map _ _)), (find _ (Store.vessels d)); cbn in E; congruence.
Qed.

(** A vessel inserted under a free IMO is the one the IMO selects. *)
Lemma selectVesselByIMO_insert (d : Store.State) (imo name : string)
    (flag type : option string) :
  Store.selectVesselByIMO d imo = None ->
  exists id d',
    Store.insertVessel d (Some imo) name flag type = (id, None, d') /\
    Store.selectVesselByIMO d' imo = Some id.
Proof.
  intros Hnone. unfold Store.insertVessel. rewrite Hnone.
  eexists _, _. split; [reflexivity|].
  unfold Store.selectVesselByIMO in *. cbn.
  destruct (find _ (Store.vessels d)) eqn:E; [discriminate|].
  rewrite find_append, E. cbn. rewrite bool_decide_eq_true_2; reflexivity.
Qed.

Lemma processLocation_vessels (hs data : list string) (vesselID : Z)
    (defaultTS : GoTime.Time) (mapper : HeaderMapper) (w : World) :
  Store.vessels (db (snd (processLocationFromShipInfo hs data vesselID defaultTS
                            mapper w))) =
  Store.vessels (db w).
Proof.
  unfold processLocationFromShipInfo, bind.
  pose proof (locationValues_db hs data defaultTS mapper w) as D.
  destruct (locationValues _ _ _ _ _) as [[[[[[ts la] lo] co] sp] st] w1].
  cbn [snd] in D.
  destruct (0 <? length _)%nat; [cbn; congruence|].
  unfold exec, Store.insertLocationReading.
  destruct la, lo, co, sp, st; cbn; try congruence;
    destruct (Store.vesselExists _ _); cbn; congruence.
Qed.

Lemma shipInfoSheet_nonempty (sheet : string) :
  isShipInfoSheet sheet = true -> String.eqb sheet "" = false.
Proof. destruct sheet; [discriminate | reflexivity]. Qed.

(** C5. When the request carries an IMO and the workbook has a readable
    ship-info sheet (a header row and a data row), [processShipInfo]
    returns without error, and the vessel it returns is the vessel the
    database holds under the IMO of the request, whatever the sheet says.
    The ids of the vessel table are those SQLite gives: never 0. *)
Theorem provided_imo_overrides_sheet
    (f : Workbook) (providedIMO vesselName : string) (uploadedAt : GoTime.Time)
    (w : World) (sheet : string) (hs data : list string)
    (rest : list (list string)) :
  nonEmpty providedIMO = true ->
  find isShipInfoSheet (GetSheetList f) = Some sheet ->
  GetRows f sheet = Some (hs :: data :: rest) ->
  Forall (fun v => Store.v_id v <> 0) (Store.vessels (db w)) ->
  exists vesselID locationCount locationWarnings w',
    processShipInfo f providedIMO vesselName uploadedAt w =
      (ShipInfoReturn vesselID locationCount locationWarnings None, w') /\
    Store.selectVesselByIMO (db w') providedIMO = Some vesselID.
Proof.
  intros Himo Hsheet Hrows Hids.
  destruct (processShipInfo f providedIMO vesselName uploadedAt w)
    as [r w'] eqn:Hp.
  unfold processShipInfo in Hp. rewrite Hsheet in Hp.
  cbn [default from_option id] in Hp.
  rewrite (shipInfoSheet_nonempty sheet) in Hp
    by (apply find_some in Hsheet; tauto).
  rewrite Hrows, Himo in Hp. unfold bind at 1 in Hp. unfold ret at 1 in Hp.
  unfold bind in Hp. revert Hp.
  step_find_as findHeader_db s b w0 D0.
  step_find_as findHeader_db s0 b0 w1 D1.
  step_find_as findHeader_db s1 b1 w2 D2.
  intros Hp.
  assert (Hdb : db w2 = db w) by congruence.
  set (name := match (if b then headerCell hs data s else None) with
               | Some _ => _ | None => _ end) in Hp.
  assert (Hname : exists nm, name = Some nm).
  { subst name. destruct (if b then _ else None); [eauto|].
    destruct (nonEmpty vesselName); eauto. }
  destruct Hname as [nm Hnm]. rewrite Hnm in Hp. clear Hnm name.
  unfold query in Hp. cbn [fst snd] in Hp. rewrite Hdb in Hp.
  destruct (Store.selectVesselByIMO (db w) providedIMO) as [existingID|] eqn:Hsel.
  - (* the IMO is known: the vessel is updated *)
    unfold exec in Hp. cbn [Store.updateVessel fst snd] in Hp.
    assert (Hne : (existingID =? 0) = false).
    { apply selectVesselByIMO_Some in Hsel as (v & Hin & <- & _).
      rewrite List.Forall_forall in Hids. apply Z.eqb_neq. now apply Hids. }
    rewrite Hne in Hp.
    match type of Hp with
    | context [processLocationFromShipInfo ?a ?b ?c ?d ?e ?w] =>
        pose proof (processLocation_vessels a b c d e w) as Hv;
        destruct (processLocationFromShipInfo a b c d e w) as [[cnt ws] w3] eqn:Hloc
    end.
    unfold ret in Hp. injection Hp as <- <-.
    exists existingID, cnt, ws, w3. split; [reflexivity|].
    cbn [snd db] in Hv.
    rewrite (selectVesselByIMO_ext _ _ providedIMO Hv).
    etransitivity;
      [apply (selectVesselByIMO_update (db w2) existingID nm
                (if b0 then headerCell hs data s0 else None)
                (if b1 then headerCell hs data s1 else None) providedIMO)|].
    now rewrite Hdb.
  - (* the IMO is new: a vessel is inserted under it *)
    unfold exec in Hp.
    destruct (selectVesselByIMO_insert (db w2) providedIMO nm
                (if b0 then headerCell hs data s0 else None)
                (if b1 then headerCell hs data s1 else None))
      as (id & d' & Hins & Hs); [now rewrite Hdb|].
    rewrite Hins in Hp.
    match type of Hp with
    | context [processLocationFromShipInfo ?a ?b ?c ?d ?e ?w] =>
        pose proof (processLocation_vessels a b c d e w) as Hv;
        destruct (processLocationFromShipInfo a b c d e w) as [[cnt ws] w3] eqn:Hloc
    end.
    unfold ret in Hp. injection Hp as <- <-.
    exists id, cnt, ws, w3. split; [reflexivity|].
    cbn [snd db] in Hv.
    rewrite (selectVesselByIMO_ext _ _ providedIMO Hv). exact Hs.
Qed.

End ShipInfo.

Section IngestExamples.

Local Existing Instance samplePlatform.
Import Mapper Ingest.

(** The workbook of the specification's example: the sheet says IMO
    1111111, the request says 2222222. *)
Lemma provided_imo_overrides_sheet_witness :
  exists vesselID locationCount locationWarnings w',
    processShipInfo sampleWorkbook "2222222" "" referenceTS emptyWorld =
      (ShipInfoReturn vesselID locationCount locationWarnings None, w') /\
    Store.selectVesselByIMO (db w') "2222222" = Some vesselID.
Proof.
  apply (provided_imo_overrides_sheet sampleWorkbook "2222222" "" referenceTS
           emptyWorld "Ship Info" shipHeaders shipData []).
  - vm_compute. reflexivity.
  - vm_compute. reflexivity.
  - vm_compute. reflexivity.
  - vm_compute. constructor.
Defined.

Example vessel_keyed_on_request_imo :
  let w' := snd (processShipInfo sampleWorkbook "2222222" "" referenceTS
                   emptyWorld) in
  Store.vessels (db w') =
    [{| Store.v_id := 1; Store.v_imo := Some "2222222";
        Store.v_name := "Ever Given"; Store.v_flag := Some "PA";
        Store.v_type := None |}] /\
  Store.selectVesselByIMO (db w') "1111111" = None.
Proof. vm_compute. split; reflexivity. Qed.


Definition fuelReading : Store.Reading Store.FuelFields :=
  {| Store.r_vessel_id := 1; Store.r_ts := referenceTS;
     Store.r_row_hash :=
       Util.HashRow 1 referenceTS "fuel" ["tank_no:1"; "{}"];
     Store.r_extra_json := "{}";
     Store.r_fields :=
       {| Store.tank_no := Some 1; Store.level_percent := Some 100%float;
          Store.volume_liters := Some 10000%float;
          Store.fuel_temp_c := None |} |}.



(** The fuel sheet of the specification's example, through the whole sheet
    processor: a capacity of 10 under the header "Capacity(m3)" is stored
    as 10000 liters. *)
Example fuel_sheet_capacity_m3 :
  let out := processFuelSheet sampleWorkbook "Fuel Tanks" 1 referenceTS
               oneVessel in
  fst out = (1, []) /\
  Store.fuel_tank_readings (db (snd out)) = [fuelReading].
Proof. vm_compute. split; reflexivity. Qed.

End IngestExamples.

(** ** Time-only timestamps *)

Section TimeOnly.

Import GoTime.

(** The elements of the time-only layouts. *)
Definition clockStd (std : Std) : bool :=
  match std with
  | stdHour | stdZeroMinute | stdZeroSecond => true
  | _ => false
  end.

Lemma parseStd_clock_keeps_date (std : Std) (f f' : Fields) (v r : string) :
  clockStd std = true ->
  parseStd std f v = Some (f', r) ->
  f_year f' = f_year f /\ f_month f' = f_month f /\ f_day f' = f_day f /\
  f_utc f' = f_utc f /\ f_zoneOffset f' = f_zoneOffset f.
Proof.
  intros Hc Hp. destruct std; try discriminate Hc; unfold parseStd in Hp.
  - destruct (getnum v false) as [[h r']|]; [|discriminate].
    destruct (_ || _); [discriminate|]. injection Hp as <- <-. cbn. tauto.
  - destruct (getnum v true) as [[m r']|]; [|discriminate].
    destruct (_ || _); [discriminate|]. injection Hp as <- <-. cbn. tauto.
  - destruct (getnum v true) as [[x r']|]; [|discriminate].
    destruct (_ || _); [discriminate|].
    destruct r' as [|p [|d r'']];
      try (injection Hp as <- <-; cbn; tauto).
    destruct (commaOrPeriod p && isDigit d).
    + destruct (spanDigits _) as [ds r3].
      destruct (parseNanoseconds ds); [|discriminate].
      injection Hp as <- <-. cbn. tauto.
    + injection Hp as <- <-. cbn. tauto.
Qed.

Lemma parseChunks_clock_keeps_date (cs : list (string * Std)) :
  forallb (fun c => clockStd (snd c)) cs = true ->
  forall (f f' : Fields) (v r : string),
    parseChunks cs f v = Some (f', r) ->
    f_year f' = f_year f /\ f_month f' = f_month f /\ f_day f' = f_day f /\
    f_utc f' = f_utc f /\ f_zoneOffset f' = f_zoneOffset f.
Proof.
  induction cs as [|[prefix std] cs IH]; intros Hall f f' v r Hp.
  - injection Hp as <- <-. tauto.
  - cbn in Hall. apply andb_true_iff in Hall as [Hc Hall].
    cbn [parseChunks] in Hp.
    destruct (skip v prefix) as [v1|]; [|discriminate].
    destruct (parseStd std f v1) as [[f1 v2]|] eqn:E; [|discriminate].
    apply (parseStd_clock_keeps_date _ _ _ _ _ Hc) in E.
    apply (IH Hall) in Hp. intuition congruence.
Qed.

(** A layout made of clock elements gives January 1 of the year 0. *)
Lemma Parse_clock_zero_date (layout : Layout) (v : string) (t : Time) :
  forallb (fun c => clockStd (snd c)) (chunks layout) = true ->
  Parse layout v = Some t ->
  year t = 0 /\ month t = 1 /\ day t = 1 /\ offset t = 0.
Proof.
  intros Hall Hp. unfold Parse in Hp.
  destruct (parseChunks _ _ _) as [[f v1]|] eqn:E; [|discriminate].
  apply (parseChunks_clock_keeps_date _ Hall) in E.
  destruct E as (Hy & Hm & Hd & Hu & Hz). cbn in Hy, Hm, Hd, Hu, Hz.
  destruct (skip v1 _) as [[|c r]|]; try discriminate.
  rewrite Hy, Hm, Hd, Hu, Hz in Hp. cbn in Hp.
  injection Hp as <-. cbn. tauto.
Qed.

Lemma isDigit_colon : isDigit ":" = false.
Proof. reflexivity. Qed.

(** A value that starts with an hour and a colon does not start with a
    year. *)
Lemma hour_colon_not_year (f f1 f' : Fields) (v r r2 : string) :
  parseStd stdHour f v = Some (f1, r) ->
  skip r ":" = Some r2 ->
  parseStd stdLongYear f' v = None.
Proof.
  unfold parseStd. intros Hh Hs.
  destruct (getnum v false) as [[h r']|] eqn:Hg; [|discriminate].
  destruct (_ || _); [discriminate|]. injection Hh as _ <-.
  assert (Hr : exists r3, r' = String ":" r3).
  { destruct r' as [|c r3]; [discriminate|]. cbn in Hs.
    destruct (Ascii.eqb_spec c ":"); [subst; eauto | discriminate]. }
  destruct Hr as [r3 ->]. clear Hs.
  unfold getnum in Hg.
  destruct v as [|a [|b [|c [|d rest]]]]; try reflexivity.
  destruct (isDigit a) eqn:Ha; [|discriminate].
  destruct (isDigit b) eqn:Hb.
  - injection Hg as _ -> _.
    cbn. rewrite Ha, Hb, isDigit_colon. reflexivity.
  - injection Hg as _ -> _.
    cbn. rewrite Ha, isDigit_colon. reflexivity.
Qed.

Definition dateLayouts : list Layout :=
  [RFC3339; layoutDateTimeT; layoutDateTime; layoutDateMinuteT;
   layoutDateMinute; layoutDate].

Lemma year_first (layout : Layout) (v : string) :
  In layout dateLayouts ->
  parseStd stdLongYear fields0 v = None ->
  Parse layout v = None.
Proof.
  intros Hin Hy. unfold Parse.
  assert (E : parseChunks (chunks layout) fields0 v = None).
  { cbn in Hin.
    destruct Hin as [<-|[<-|[<-|[<-|[<-|[<-|[]]]]]]];
      cbn [chunks RFC3339 layoutDateTimeT layoutDateTime layoutDateMinuteT
           layoutDateMinute layoutDate parseChunks];
      change (skip v "") with (Some v); cbn match; rewrite Hy; reflexivity. }
  rewrite E. reflexivity.
Qed.

(** A value one of the time-only layouts accepts is rejected by the six
    layouts that start with a year. *)
Lemma clock_value_not_dated (layout : Layout) (v : string) (t : Time) :
  layout = layoutClock \/ layout = layoutHourMinute ->
  Parse layout v = Some t ->
  forall l, In l dateLayouts -> Parse l v = None.
Proof.
  intros Hl Hp l Hin. apply year_first; [exact Hin|].
  unfold Parse in Hp.
  destruct (parseChunks _ _ _) as [[f v1]|] eqn:E; [|discriminate]. clear Hp.
  assert (exists f1 r r2 tail,
             parseStd stdHour fields0 v = Some (f1, r) /\
             skip r ":" = Some r2 /\
             chunks layout = ("", stdHour) :: (":", stdZeroMinute) :: tail)
    as (f1 & r & r2 & tail & Hh & Hs & _).
  { destruct Hl as [-> | ->]; cbn [chunks layoutClock layoutHourMinute] in E;
      cbn [parseChunks] in E; change (skip v "") with (Some v) in E;
      cbn match in E;
      destruct (parseStd stdHour fields0 v) as [[f1 r]|] eqn:Hh;
      try discriminate;
      destruct (skip r ":") as [r2|] eqn:Hs; try discriminate;
      exists f1, r, r2; eexists; repeat split; eauto. }
  exact (hour_colon_not_year _ _ _ _ _ _ Hh Hs).
Qed.

End TimeOnly.

Section TimeOnlyRows.

Context `{Platform}.
Import GoTime Mapper Ingest.

(** C9. [ParseTimestamp] accepts a time without a date: when the trimmed
    input matches the layout "15:04:05" or the layout "15:04", it returns
    a timestamp, without error, on January 1 of the year 0 in UTC; and a
    row whose timestamp cell holds such an input gets that timestamp, not
    the reference timestamp of the ingestion. *)
Theorem time_only_timestamp_accepted (s : string) (t : Time) :
  s <> "" ->
  Parse layoutClock (GoStrings.TrimSpace s) = Some t \/
  Parse layoutHourMinute (GoStrings.TrimSpace s) = Some t ->
  exists t',
    ParseTimestamp s = (t', None) /\
    year t' = 0 /\ month t' = 1 /\ day t' = 1 /\ offset t' = 0 /\
    forall (defaultTS : Time) (tsCol : string) (row : gmap string string),
      nonEmpty tsCol = true -> cell row tsCol = s ->
      rowTimestamp defaultTS true tsCol row = t'.
Proof.
  intros Hne Hp.
  assert (Hdated : forall l, In l dateLayouts ->
                             Parse l (GoStrings.TrimSpace s) = None).
  { destruct Hp as [Hp|Hp].
    - apply (clock_value_not_dated layoutClock _ t); auto.
    - apply (clock_value_not_dated layoutHourMinute _ t); auto. }
  assert (Hfirst : exists t',
             firstParse timestampFormats (GoStrings.TrimSpace s) = Some t' /\
             (Parse layoutClock (GoStrings.TrimSpace s) = Some t' \/
              Parse layoutHourMinute (GoStrings.TrimSpace s) = Some t')).
  { unfold timestampFormats. cbn [firstParse].
    rewrite !Hdated by (cbn; tauto).
    destruct (Parse layoutClock _) as [t1|] eqn:E1; [eauto|].
    destruct Hp as [Hp|Hp]; [discriminate|]. rewrite Hp. eauto. }
  destruct Hfirst as (t' & Hf & Ht'). exists t'.
  assert (Hts : ParseTimestamp s = (t', None)).
  { unfold ParseTimestamp.
    destruct (String.eqb_spec s ""); [contradiction|]. now rewrite Hf. }
  assert (Hzero : year t' = 0 /\ month t' = 1 /\ day t' = 1 /\ offset t' = 0).
  { destruct Ht' as [Ht'|Ht'];
      eapply Parse_clock_zero_date; eauto; reflexivity. }
  repeat split; try tauto.
  intros defaultTS tsCol row Hcol Hcell. unfold rowTimestamp.
  rewrite Hcol, Hcell, Hts. reflexivity.
Qed.

End TimeOnlyRows.

Section TimeOnlyExamples.

Local Existing Instance samplePlatform.
Import GoTime Mapper Ingest.

Lemma time_only_timestamp_accepted_witness :
  exists t',
    ParseTimestamp "10:30:00" = (t', None) /\
    year t' = 0 /\ month t' = 1 /\ day t' = 1 /\ offset t' = 0 /\
    forall (defaultTS : Time) (tsCol : string) (row : gmap string string),
      nonEmpty tsCol = true -> cell row tsCol = "10:30:00" ->
      rowTimestamp defaultTS true tsCol row = t'.
Proof.
  apply (time_only_timestamp_accepted "10:30:00" (Date 0 1 1 10 30 0 0 0)).
  - discriminate.
  - left. vm_compute. reflexivity.
Defined.

Example time_only_inputs :
  ParseTimestamp "10:30:00" = (Date 0 1 1 10 30 0 0 0, None) /\
  ParseTimestamp "10:30" = (Date 0 1 1 10 30 0 0 0, None) /\
  ParseTimestamp "7:05" = (Date 0 1 1 7 5 0 0 0, None) /\
  ParseTimestamp "23:59:59.5" = (Date 0 1 1 23 59 59 500000000 0, None).
Proof. vm_compute. repeat split. Qed.

(** The engine sheet of the sample workbook: its second data row has the
    timestamp cell "10:30:00", and is stored on January 1 of the year 0
    although the reference timestamp of the ingestion is in 2025. *)
Example time_only_row_stored_in_year_zero :
  map Store.r_ts
      (Store.engine_readings
         (db (snd (processEngineSheet sampleWorkbook "Engines" 1 referenceTS
                     oneVessel)))) =
  [Date 2025 8 8 10 0 0 0 0; Date 0 1 1 10 30 0 0 0].
Proof. vm_compute. reflexivity. Qed.

End TimeOnlyExamples.

(** ** Decimal numerals *)

Section Decimal.

Import GoTime Strconv.

Lemma append_nil_l (s : string) : "" +:+ s = s.
Proof. reflexivity. Qed.

Lemma append_cons (c : ascii) (s t : string) :
  String c s +:+ t = String c (s +:+ t).
Proof. reflexivity. Qed.

Lemma append_nil_r (s : string) : s +:+ "" = s.
Proof.
  induction s as [|c s IH]; [reflexivity|]. now rewrite append_cons, IH.
Qed.

Lemma append_assoc (s1 s2 s3 : string) :
  (s1 +:+ s2) +:+ s3 = s1 +:+ (s2 +:+ s3).
Proof.
  induction s1 as [|c s IH]; [reflexivity|]. now rewrite !append_cons, IH.
Qed.

Lemma byte_val_range (c : ascii) : 0 <= byte_val c < 256.
Proof.
  unfold byte_val. pose proof (N_ascii_bounded c). lia.
Qed.

Lemma byte_of_val (c : ascii) : byte_of (byte_val c) = c.
Proof.
  unfold byte_of, byte_val. rewrite N2Z.id. apply ascii_N_embedding.
Qed.

Lemma byte_val_of (z : Z) : 0 <= z < 256 -> byte_val (byte_of z) = z.
Proof.
  intros Hz. unfold byte_of, byte_val.
  rewrite N_ascii_embedding by lia. lia.
Qed.

Lemma isDigit_val (c : ascii) :
  isDigit c = true -> 0 <= digit_val c <= 9.
Proof.
  unfold isDigit, digit_val. intros Hc.
  apply andb_true_iff in Hc as [H1 H2].
  apply Z.leb_le in H1, H2. lia.
Qed.

Lemma digit_char_val (d : Z) :
  0 <= d <= 9 -> isDigit (digit_char d) = true /\ digit_val (digit_char d) = d.
Proof.
  intros Hd. unfold isDigit, digit_val, digit_char.
  rewrite byte_val_of by lia. split; lia.
Qed.

Lemma digitsValue_app (s1 s2 : string) (a : Z) :
  digitsValue (s1 +:+ s2) a =
  match digitsValue s1 a with
  | Some v => digitsValue s2 v
  | None => None
  end.
Proof.
  revert a. induction s1 as [|c s IH]; intros a; [reflexivity|].
  rewrite append_cons. cbn. destruct (isDigit c); [apply IH | reflexivity].
Qed.

Lemma digitsValue_ge (s : string) (a v : Z) :
  0 <= a -> digitsValue s a = Some v -> a <= v.
Proof.
  revert a. induction s as [|c s IH]; intros a Ha Hv.
  - injection Hv as <-. lia.
  - cbn in Hv. destruct (isDigit c) eqn:Hc; [|discriminate].
    pose proof (isDigit_val c Hc). apply IH in Hv; lia.
Qed.

Lemma digits_go_S (fuel : nat) (n : Z) (acc : string) :
  digits_go (S fuel) n acc =
  if n / 10 =? 0 then String (digit_char (n mod 10)) acc
  else digits_go fuel (n / 10) (String (digit_char (n mod 10)) acc).
Proof. reflexivity. Qed.

(** The digits [digits_go] puts before its accumulator read back as the
    number. *)
Lemma digits_go_value (fuel : nat) :
  forall (n : Z) (acc : string),
    0 <= n < 2 ^ Z.of_nat (S fuel) ->
    exists s, digits_go (S fuel) n acc = s +:+ acc /\
              digitsValue s 0 = Some n /\ s <> "".
Proof.
  induction fuel as [|fuel IH]; intros n acc Hn;
    rewrite digits_go_S;
    assert (Hd : 0 <= n mod 10 <= 9) by (pose proof (Z.mod_pos_bound n 10); lia);
    destruct (digit_char_val _ Hd) as [Hdig Hval];
    destruct (Z.eqb_spec (n / 10) 0) as [Hz|Hz].
  - exists (String (digit_char (n mod 10)) ""). repeat split; [|discriminate].
    cbn. rewrite Hdig, Hval.
    f_equal. pose proof (Z.div_mod n 10). lia.
  - exfalso. apply Hz. apply Z.div_small. change (2 ^ Z.of_nat 1) with 2 in Hn. lia.
  - exists (String (digit_char (n mod 10)) ""). repeat split; [|discriminate].
    cbn. rewrite Hdig, Hval.
    f_equal. pose proof (Z.div_mod n 10). lia.
  - destruct (IH (n / 10) (String (digit_char (n mod 10)) acc))
      as (s & Hs & Hv & Hne).
    { rewrite (Nat2Z.inj_succ (S fuel)), Z.pow_succ_r in Hn by lia.
      split; [apply Z.div_pos; lia|].
      apply Z.div_lt_upper_bound; lia. }
    exists (s +:+ String (digit_char (n mod 10)) "").
    repeat split.
    + rewrite Hs, append_assoc. reflexivity.
    + rewrite digitsValue_app, Hv. cbn. rewrite Hdig, Hval.
      f_equal. pose proof (Z.div_mod n 10). lia.
    + destruct s; [congruence | discriminate].
Qed.

Lemma formatUint_value (n : Z) :
  0 <= n ->
  digitsValue (formatUint n) 0 = Some n /\ formatUint n <> "".
Proof.
  intros Hn. unfold formatUint.
  destruct (digits_go_value (Z.to_nat (Z.log2 n)) n "") as (s & Hs & Hv & Hne).
  - split; [lia|]. rewrite Nat2Z.inj_succ, Z2Nat.id by apply Z.log2_nonneg.
    destruct (Z.eq_dec n 0) as [->|]; [reflexivity|].
    apply Z.log2_spec. lia.
  - rewrite Hs, append_nil_r. auto.
Qed.

Lemma digits_go_acc (fuel : nat) :
  forall (n : Z) (acc : string),
    digits_go fuel n acc = digits_go fuel n "" +:+ acc.
Proof.
  induction fuel as [|fuel IH]; intros n acc; [reflexivity|].
  rewrite !digits_go_S. destruct (n / 10 =? 0); [reflexivity|].
  rewrite (IH _ (String _ acc)), (IH _ (String _ "")), append_assoc.
  reflexivity.
Qed.

(** Fuel beyond the binary size of the number changes nothing. *)
Lemma digits_go_fuel (fuel1 : nat) :
  forall (fuel2 : nat) (n : Z) (acc : string),
    0 <= n < 2 ^ Z.of_nat (S fuel1) -> n < 2 ^ Z.of_nat (S fuel2) ->
    digits_go (S fuel1) n acc = digits_go (S fuel2) n acc.
Proof.
  induction fuel1 as [|fuel1 IH]; intros fuel2 n acc H1 H2;
    rewrite !digits_go_S; destruct (Z.eqb_spec (n / 10) 0) as [Hz|Hz];
    try reflexivity.
  - exfalso. apply Hz, Z.div_small. change (2 ^ Z.of_nat 1) with 2 in H1. lia.
  - assert (Hn : 10 <= n).
    { destruct (Z.lt_ge_cases n 10); [|lia].
      exfalso. apply Hz, Z.div_small. lia. }
    destruct fuel2 as [|fuel2].
    { change (2 ^ Z.of_nat 1) with 2 in H2. lia. }
    rewrite (Nat2Z.inj_succ (S fuel1)), Z.pow_succ_r in H1 by lia.
    rewrite (Nat2Z.inj_succ (S fuel2)), Z.pow_succ_r in H2 by lia.
    apply IH.
    + split; [apply Z.div_pos; lia|]. apply Z.div_lt_upper_bound; lia.
    + apply Z.div_lt_upper_bound; lia.
Qed.

Lemma formatUint_small (n : Z) :
  0 <= n < 10 -> formatUint n = String (digit_char n) "".
Proof.
  intros Hn. unfold formatUint. rewrite digits_go_S.
  rewrite Z.div_small, Z.mod_small by lia. reflexivity.
Qed.

Lemma lt_pow2_log2 (n : Z) : 0 <= n -> n < 2 ^ Z.of_nat (S (Z.to_nat (Z.log2 n))).
Proof.
  intros Hn. rewrite Nat2Z.inj_succ, Z2Nat.id by apply Z.log2_nonneg.
  destruct (Z.eq_dec n 0) as [->|]; [reflexivity|].
  apply Z.log2_spec. lia.
Qed.

(** The digits of a number from 10 on: those of its tenth, then its last
    digit. *)
Lemma formatUint_step (n : Z) :
  10 <= n ->
  formatUint n = formatUint (n / 10) +:+ String (digit_char (n mod 10)) "".
Proof.
  intros Hn. unfold formatUint at 1. rewrite digits_go_S.
  destruct (Z.eqb_spec (n / 10) 0) as [Hz|Hz].
  { pose proof (Z.div_le_lower_bound n 10 1). lia. }
  rewrite digits_go_acc. f_equal. unfold formatUint.
  assert (H10 : 0 <= n / 10 < n).
  { split; [apply Z.div_pos; lia|]. apply Z.div_lt; lia. }
  pose proof (lt_pow2_log2 n ltac:(lia)) as Hlog.
  pose proof (lt_pow2_log2 (n / 10) ltac:(lia)) as Hlog10.
  destruct (Z.to_nat (Z.log2 n)) as [|k] eqn:Ek.
  { change (2 ^ Z.of_nat 1) with 2 in Hlog. lia. }
  apply digits_go_fuel; [|exact Hlog10].
  split; [lia|].
  rewrite (Nat2Z.inj_succ (S k)), Z.pow_succ_r in Hlog by lia.
  apply Z.div_lt_upper_bound; lia.
Qed.

Lemma parseUint_go_digits (s : string) :
  forall (n v : Z),
    0 <= n -> digitsValue s n = Some v -> v <= maxUint64 ->
    parseUint_go s n = inr v.
Proof.
  induction s as [|c s IH]; intros n v Hn Hv Hmax.
  - injection Hv as <-. reflexivity.
  - cbn [digitsValue parseUint_go] in Hv |- *.
    destruct (isDigit c) eqn:Hc; [|discriminate].
    pose proof (isDigit_val c Hc) as Hd.
    assert (Hge : n * 10 + digit_val c <= v)
      by (apply (digitsValue_ge s); [lia | exact Hv]).
    unfold maxUint64 in *.
    destruct (Z.leb_spec (((2 ^ 64 - 1) / 10) + 1) n) as [Hcut|Hcut].
    { exfalso. change ((2 ^ 64 - 1) / 10 + 1) with 1844674407370955162 in Hcut.
      change (2 ^ 64 - 1) with 18446744073709551615 in Hmax. lia. }
    destruct (Z.ltb_spec (2 ^ 64 - 1) (n * 10 + digit_val c)); [lia|].
    apply IH; auto; lia.
Qed.

(** A string of digits does not hold the byte [c] when [c] is no digit. *)
Lemma digits_without (c : ascii) (s : string) (a v : Z) :
  isDigit c = false -> digitsValue s a = Some v ->
  forallb (fun x => negb (Ascii.eqb x c)) (list_ascii_of_string s) = true.
Proof.
  intros Hc. revert a. induction s as [|x s IH]; intros a Hv; [reflexivity|].
  cbn in Hv |- *. destruct (isDigit x) eqn:Hx; [|discriminate].
  rewrite (IH _ Hv), andb_true_r.
  destruct (Ascii.eqb_spec x c); [congruence | reflexivity].
Qed.

(** [strconv.ParseInt] reads back what [%d] prints, for every [int64]. *)
Lemma ParseInt_FormatInt (id : Z) :
  - 2 ^ 63 <= id < 2 ^ 63 -> ParseInt (FormatInt id) = inr id.
Proof.
  intros Hid. unfold FormatInt.
  destruct (Z.ltb_spec id 0) as [Hneg|Hpos].
  - destruct (formatUint_value (- id)) as [Hv Hne]; [lia|].
    unfold ParseInt.
    change (Ascii.eqb "-" "-") with true. change (Ascii.eqb "-" "+") with false.
    cbn [orb negb andb]. unfold ParseUint.
    destruct (formatUint (- id)) as [|c s] eqn:E; [congruence|].
    rewrite (parseUint_go_digits _ 0 (- id)); auto; unfold maxUint64;
      [|lia|lia].
    destruct (Z.ltb_spec (2 ^ 63) (- id)); [lia|]. f_equal. lia.
  - destruct (formatUint_value id) as [Hv Hne]; [lia|].
    unfold ParseInt, ParseUint.
    destruct (formatUint id) as [|c s] eqn:E; [congruence|].
    assert (Hc : isDigit c = true).
    { cbn [digitsValue] in Hv. destruct (isDigit c); [reflexivity | discriminate]. }
    assert (Hsign : Ascii.eqb c "+" = false /\ Ascii.eqb c "-" = false).
    { split; destruct (Ascii.eqb_spec c "+"), (Ascii.eqb_spec c "-");
        subst; try reflexivity; discriminate. }
    destruct Hsign as [-> ->]. cbn [orb negb andb].
    rewrite (parseUint_go_digits _ 0 id); auto; unfold maxUint64; [|lia|lia].
    destruct (Z.leb_spec (2 ^ 63) id); [lia | reflexivity].
Qed.

Definition noPipe (s : string) : bool :=
  forallb (fun x => negb (Ascii.eqb x "|")) (list_ascii_of_string s).

Lemma noPipe_app (s1 s2 : string) :
  noPipe (s1 +:+ s2) = noPipe s1 && noPipe s2.
Proof.
  unfold noPipe. induction s1 as [|c s IH]; [reflexivity|].
  rewrite append_cons. cbn. rewrite IH. now rewrite andb_assoc.
Qed.

Lemma noPipe_FormatInt (id : Z) : noPipe (FormatInt id) = true.
Proof.
  unfold FormatInt.
  destruct (Z.ltb_spec id 0).
  - destruct (formatUint_value (- id)) as [Hv _]; [lia|].
    change (noPipe (String "-" (formatUint (- id))))
      with (noPipe (formatUint (- id))).
    eapply digits_without; [reflexivity | exact Hv].
  - destruct (formatUint_value id) as [Hv _]; [lia|].
    eapply digits_without; [reflexivity | exact Hv].
Qed.

End Decimal.

(** ** Base64 *)

Section Base64Facts.

Import Base64.

Lemma range_forall (P : Z -> bool) (n : Z) :
  forallb P (map Z.of_nat (seq 0 (Z.to_nat n))) = true ->
  forall x, 0 <= x < n -> P x = true.
Proof.
  intros Hall x Hx. rewrite forallb_forall in Hall. apply Hall.
  apply in_map_iff. exists (Z.to_nat x). split; [lia|].
  apply in_seq. lia.
Qed.

Definition alphabetCheck (i : Z) : bool :=
  bool_decide (dec (enc i) = Some i) &&
  negb (Ascii.eqb (enc i) padChar) && negb (isNewline (enc i)).

(** The alphabet has 64 distinct bytes, none of them padding or a line
    break. *)
Lemma enc_dec (i : Z) :
  0 <= i < 64 ->
  dec (enc i) = Some i /\ Ascii.eqb (enc i) padChar = false /\
  isNewline (enc i) = false.
Proof.
  intros Hi.
  assert (Hc : alphabetCheck i = true)
    by (apply (range_forall alphabetCheck 64);
        [vm_compute; reflexivity | exact Hi]).
  unfold alphabetCheck in Hc. apply andb_true_iff in Hc as [Hc H3].
  apply andb_true_iff in Hc as [H1 H2].
  apply bool_decide_eq_true in H1. apply negb_true_iff in H2, H3. auto.
Qed.

(** Bitwise or of a multiple of [2^k] and of a number below [2^k] is their
    sum. *)
Lemma lor_disjoint (a b k : Z) :
  0 <= k -> 0 <= b < 2 ^ k -> a mod 2 ^ k = 0 -> Z.lor a b = a + b.
Proof.
  intros Hk Hb Ha.
  assert (Hland : Z.land a b = 0).
  { apply Z.bits_inj'. intros n Hn. rewrite Z.land_spec, Z.bits_0.
    destruct (Z.lt_ge_cases n k) as [Hlt|Hge].
    - rewrite <- (Z.mod_pow2_bits_low a k n) by lia. rewrite Ha, Z.bits_0.
      reflexivity.
    - rewrite <- (Z.mod_small b (2 ^ k)) by lia.
      rewrite Z.mod_pow2_bits_high by lia. apply andb_false_r. }
  pose proof (Z.add_lor_land a b) as E. rewrite Hland in E. lia.
Qed.

Lemma quantum_arith (b0 b1 b2 : Z) :
  0 <= b0 < 256 -> 0 <= b1 < 256 -> 0 <= b2 < 256 ->
  quantum b0 b1 b2 = b0 * 65536 + b1 * 256 + b2.
Proof.
  intros H0 H1 H2. unfold quantum.
  rewrite !Z.shiftl_mul_pow2 by lia.
  change (2 ^ 16) with 65536. change (2 ^ 8) with 256.
  rewrite (lor_disjoint (b0 * 65536) (b1 * 256) 16); [|lia|lia|].
  - apply (lor_disjoint _ b2 8); [lia|lia|].
    replace (b0 * 65536 + b1 * 256) with ((b0 * 256 + b1) * 2 ^ 8) by lia.
    apply Z.mod_mul. lia.
  - change 65536 with (2 ^ 16). apply Z.mod_mul. lia.
Qed.

Lemma assemble_arith (x0 x1 x2 x3 : Z) :
  0 <= x0 < 64 -> 0 <= x1 < 64 -> 0 <= x2 < 64 -> 0 <= x3 < 64 ->
  assemble x0 x1 x2 x3 = x0 * 262144 + x1 * 4096 + x2 * 64 + x3.
Proof.
  intros H0 H1 H2 H3. unfold assemble.
  rewrite !Z.shiftl_mul_pow2 by lia.
  change (2 ^ 18) with 262144. change (2 ^ 12) with 4096.
  change (2 ^ 6) with 64.
  rewrite (lor_disjoint (x0 * 262144) (x1 * 4096) 18); [|lia|lia|].
  - rewrite (lor_disjoint _ (x2 * 64) 12); [|lia|lia|].
    + apply (lor_disjoint _ x3 6); [lia|lia|].
      replace (x0 * 262144 + x1 * 4096 + x2 * 64)
        with ((x0 * 4096 + x1 * 64 + x2) * 2 ^ 6) by lia.
      apply Z.mod_mul. lia.
    + replace (x0 * 262144 + x1 * 4096)
        with ((x0 * 64 + x1) * 2 ^ 12) by lia.
      apply Z.mod_mul. lia.
  - change 262144 with (2 ^ 18). apply Z.mod_mul. lia.
Qed.

Lemma field6 (val k : Z) :
  0 <= k -> Z.land (Z.shiftr val k) 63 = (val / 2 ^ k) mod 64.
Proof.
  intros Hk. rewrite Z.shiftr_div_pow2 by lia.
  change 63 with (Z.ones 6). rewrite Z.land_ones by lia. reflexivity.
Qed.

Lemma field8 (val k : Z) :
  0 <= k -> Z.land (Z.shiftr val k) 255 = (val / 2 ^ k) mod 256.
Proof.
  intros Hk. rewrite Z.shiftr_div_pow2 by lia.
  change 255 with (Z.ones 8). rewrite Z.land_ones by lia. reflexivity.
Qed.

Lemma field6_range (val k : Z) : 0 <= (val / 2 ^ k) mod 64 < 64.
Proof. apply Z.mod_pos_bound. lia. Qed.

(** What the decoder reads from the four sextets of a quantum. *)
Lemma sextet_dec (val k : Z) :
  0 <= k ->
  dec (sextet val k) = Some ((val / 2 ^ k) mod 64) /\
  Ascii.eqb (sextet val k) padChar = false /\
  isNewline (sextet val k) = false.
Proof.
  intros Hk. unfold sextet. rewrite field6 by lia.
  apply enc_dec, field6_range.
Qed.

Lemma octets_of_quantum (b0 b1 b2 : ascii) (x0 x1 x2 x3 : Z) :
  let val := quantum (byte_val b0) (byte_val b1) (byte_val b2) in
  x0 = (val / 2 ^ 18) mod 64 -> x1 = (val / 2 ^ 12) mod 64 ->
  (x2 = (val / 2 ^ 6) mod 64 \/ x2 = 0 /\ byte_val b1 = 0 /\ byte_val b2 = 0) ->
  (x3 = (val / 2 ^ 0) mod 64 \/ x3 = 0 /\ byte_val b2 = 0) ->
  octet (assemble x0 x1 x2 x3) 16 = b0 /\
  octet (assemble x0 x1 x2 x3) 8 = b1 /\
  octet (assemble x0 x1 x2 x3) 0 = b2.
Proof.
  intros val H0 H1 H2 H3.
  pose proof (byte_val_range b0) as R0. pose proof (byte_val_range b1) as R1.
  pose proof (byte_val_range b2) as R2.
  assert (Hval : val = byte_val b0 * 65536 + byte_val b1 * 256 + byte_val b2)
    by (apply quantum_arith; assumption).
  clearbody val.
  change (2 ^ 18) with 262144 in *. change (2 ^ 12) with 4096 in *.
  change (2 ^ 6) with 64 in *. change (2 ^ 0) with 1 in *.
  assert (Hasm : assemble x0 x1 x2 x3 = val).
  { rewrite assemble_arith.
    - destruct H2 as [H2|(H2 & ? & ?)], H3 as [H3|(H3 & ?)];
        subst x0 x1 x2 x3; Z.div_mod_to_equations; lia.
    - subst x0. apply Z.mod_pos_bound. lia.
    - subst x1. apply Z.mod_pos_bound. lia.
    - destruct H2 as [->|(-> & _)]; [apply Z.mod_pos_bound|]; lia.
    - destruct H3 as [->|(-> & _)]; [apply Z.mod_pos_bound|]; lia. }
  rewrite Hasm. unfold octet. rewrite !field8 by lia.
  change (2 ^ 16) with 65536. change (2 ^ 8) with 256. change (2 ^ 0) with 1.
  repeat split.
  - rewrite <- (byte_of_val b0). f_equal. Z.div_mod_to_equations; lia.
  - rewrite <- (byte_of_val b1). f_equal. Z.div_mod_to_equations; lia.
  - rewrite <- (byte_of_val b2). f_equal. Z.div_mod_to_equations; lia.
Qed.

Lemma string_ind3 (P : string -> Prop) :
  P "" ->
  (forall a, P (String a "")) ->
  (forall a b, P (String a (String b ""))) ->
  (forall a b c s, P s -> P (String a (String b (String c s)))) ->
  forall s, P s.
Proof.
  intros H0 H1 H2 H3.
  assert (forall s, P s /\ (forall a, P (String a s)) /\
                    (forall a b, P (String a (String b s)))) as Hall.
  { induction s as [|c s (IH0 & IH1 & IH2)]; auto. }
  intros s. apply Hall.
Qed.

Lemma encode_go_3 (a b c : ascii) (s : string) :
  encode_go (String a (String b (String c s))) =
  let val := quantum (byte_val a) (byte_val b) (byte_val c) in
  String (sextet val 18) (String (sextet val 12)
    (String (sextet val 6) (String (sextet val 0) (encode_go s)))).
Proof. reflexivity. Qed.

Lemma quantum_0_range (b0 b1 b2 : Z) : byte_val (byte_of 0) = 0.
Proof. reflexivity. Qed.

(** The encoder never writes a line break. *)
Lemma dropNewlines_encode (s : string) :
  dropNewlines (encode_go s) = encode_go s.
Proof.
  induction s as [|a|a b|a b c s IH] using string_ind3.
  - reflexivity.
  - cbn [encode_go dropNewlines].
    destruct (sextet_dec (quantum (byte_val a) 0 0) 18) as (_ & _ & ->); [lia|].
    destruct (sextet_dec (quantum (byte_val a) 0 0) 12) as (_ & _ & ->); [lia|].
    reflexivity.
  - cbn [encode_go dropNewlines].
    destruct (sextet_dec (quantum (byte_val a) (byte_val b) 0) 18)
      as (_ & _ & ->); [lia|].
    destruct (sextet_dec (quantum (byte_val a) (byte_val b) 0) 12)
      as (_ & _ & ->); [lia|].
    destruct (sextet_dec (quantum (byte_val a) (byte_val b) 0) 6)
      as (_ & _ & ->); [lia|].
    reflexivity.
  - rewrite encode_go_3. cbv zeta. cbn [dropNewlines].
    destruct (sextet_dec (quantum (byte_val a) (byte_val b) (byte_val c)) 18)
      as (_ & _ & ->); [lia|].
    destruct (sextet_dec (quantum (byte_val a) (byte_val b) (byte_val c)) 12)
      as (_ & _ & ->); [lia|].
    destruct (sextet_dec (quantum (byte_val a) (byte_val b) (byte_val c)) 6)
      as (_ & _ & ->); [lia|].
    destruct (sextet_dec (quantum (byte_val a) (byte_val b) (byte_val c)) 0)
      as (_ & _ & ->); [lia|].
    now rewrite IH.
Qed.

Definition zeroByte : ascii := byte_of 0.

Lemma decode_encode_go (s : string) : decode_go (encode_go s) = Some s.
Proof.
  induction s as [|a|a b|a b c s IH] using string_ind3.
  - reflexivity.
  - cbn [encode_go decode_go].
    set (val := quantum (byte_val a) 0 0).
    destruct (sextet_dec val 18) as (-> & _ & _); [lia|].
    destruct (sextet_dec val 12) as (-> & _ & _); [lia|].
    change (Ascii.eqb padChar padChar) with true. cbv iota.
    destruct (octets_of_quantum a zeroByte zeroByte
                ((val / 2 ^ 18) mod 64) ((val / 2 ^ 12) mod 64) 0 0)
      as (-> & _ & _); auto.
  - cbn [encode_go decode_go].
    set (val := quantum (byte_val a) (byte_val b) 0).
    destruct (sextet_dec val 18) as (-> & _ & _); [lia|].
    destruct (sextet_dec val 12) as (-> & _ & _); [lia|].
    destruct (sextet_dec val 6) as (-> & -> & _); [lia|].
    change (Ascii.eqb padChar padChar) with true. cbv iota.
    destruct (octets_of_quantum a b zeroByte
                ((val / 2 ^ 18) mod 64) ((val / 2 ^ 12) mod 64)
                ((val / 2 ^ 6) mod 64) 0)
      as (-> & -> & _); auto.
  - rewrite encode_go_3. cbv zeta. cbn [decode_go].
    set (val := quantum (byte_val a) (byte_val b) (byte_val c)).
    destruct (sextet_dec val 18) as (-> & _ & _); [lia|].
    destruct (sextet_dec val 12) as (-> & _ & _); [lia|].
    destruct (sextet_dec val 6) as (-> & -> & _); [lia|].
    destruct (sextet_dec val 0) as (-> & -> & _); [lia|].
    rewrite IH.
    destruct (octets_of_quantum a b c
                ((val / 2 ^ 18) mod 64) ((val / 2 ^ 12) mod 64)
                ((val / 2 ^ 6) mod 64) ((val / 2 ^ 0) mod 64))
      as (-> & -> & ->); auto.
Qed.

(** [DecodeString] undoes [EncodeToString]. *)
Lemma DecodeString_EncodeToString (s : string) :
  DecodeString (EncodeToString s) = Some s.
Proof.
  unfold DecodeString, EncodeToString.
  rewrite dropNewlines_encode. apply decode_encode_go.
Qed.

End Base64Facts.

(** ** Splitting at a separator *)

Section SplitFacts.

Import GoStrings.

Lemma split_go_without (s : string) :
  noPipe s = true -> split_go s O "|" = [s].
Proof.
  unfold noPipe. induction s as [|c s IH]; intros Hs; [reflexivity|].
  cbn [list_ascii_of_string forallb] in Hs.
  apply andb_true_iff in Hs as [Hc Hs]. apply negb_true_iff in Hc.
  cbn [split_go String.prefix]. rewrite Ascii.eqb_sym in Hc.
  destruct (ascii_dec "|" c) as [<-|Hne]; [discriminate|].
  rewrite (IH Hs). reflexivity.
Qed.

(** Two strings without the separator, joined by it, split into the two. *)
Lemma Split_pair (a b : string) :
  noPipe a = true -> noPipe b = true ->
  Split (a +:+ "|" +:+ b) "|" = [a; b].
Proof.
  unfold Split, noPipe. induction a as [|c a IH]; intros Ha Hb.
  - change ("" +:+ "|" +:+ b) with (String "|" b).
    cbn [split_go String.prefix].
    destruct (ascii_dec "|" "|") as [_|Hne]; [|contradiction].
    destruct b; cbn [String.length Nat.sub]; now rewrite (split_go_without _ Hb).
  - cbn [list_ascii_of_string forallb] in Ha.
    apply andb_true_iff in Ha as [Hc Ha]. apply negb_true_iff in Hc.
    rewrite append_cons. cbn [split_go String.prefix].
    destruct (ascii_dec "|" c) as [<-|Hne]; [discriminate|].
    rewrite (IH Ha Hb). reflexivity.
Qed.

End SplitFacts.

(** ** RFC 3339 timestamps *)

Section RFC3339Facts.

Import GoTime.

Definition twoDigitCheck (x : Z) : bool :=
  match appendInt x 2 with
  | String a (String b EmptyString) =>
      isDigit a && isDigit b && (digit_val a * 10 + digit_val b =? x)
  | _ => false
  end.

(** A number below 100 is printed on two digits. *)
Lemma two_digits (x : Z) :
  0 <= x < 100 ->
  exists a b, appendInt x 2 = String a (String b "") /\
              isDigit a = true /\ isDigit b = true /\
              digit_val a * 10 + digit_val b = x.
Proof.
  intros Hx.
  assert (Hc : twoDigitCheck x = true)
    by (apply (range_forall twoDigitCheck 100); [vm_compute; reflexivity | exact Hx]).
  unfold twoDigitCheck in Hc.
  destruct (appendInt x 2) as [|a [|b [|c r]]]; try discriminate.
  apply andb_true_iff in Hc as [Hc H3]. apply andb_true_iff in Hc as [H1 H2].
  exists a, b. repeat split; auto. lia.
Qed.

Lemma digit_char_digits (a b c d : Z) :
  0 <= a <= 9 -> 0 <= b <= 9 -> 0 <= c <= 9 -> 0 <= d <= 9 ->
  digitsValue (String (digit_char a) (String (digit_char b)
                 (String (digit_char c) (String (digit_char d) "")))) 0 =
  Some (((a * 10 + b) * 10 + c) * 10 + d).
Proof.
  intros Ha Hb Hc Hd. cbn [digitsValue].
  destruct (digit_char_val a Ha) as [-> ->].
  destruct (digit_char_val b Hb) as [-> ->].
  destruct (digit_char_val c Hc) as [-> ->].
  destruct (digit_char_val d Hd) as [-> ->].
  f_equal.
Qed.

(** A year from 0 to 9999 is printed on four digits. *)
Lemma four_digits (y : Z) :
  0 <= y < 10000 ->
  exists a b c d,
    appendInt y 4 = String a (String b (String c (String d ""))) /\
    digitsValue (String a (String b (String c (String d "")))) 0 = Some y.
Proof.
  intros Hy.
  exists (digit_char (y / 1000)), (digit_char (y / 100 mod 10)),
         (digit_char (y / 10 mod 10)), (digit_char (y mod 10)).
  split.
  - unfold appendInt. destruct (Z.ltb_spec y 0); [lia|].
    rewrite Z.abs_eq, append_nil_l by lia.
    destruct (Z.lt_ge_cases y 10) as [H1|H1];
      [|destruct (Z.lt_ge_cases y 100) as [H2|H2];
        [|destruct (Z.lt_ge_cases y 1000) as [H3|H3]]].
    + rewrite formatUint_small by lia.
      rewrite (Z.div_small y 1000), (Z.div_small y 100), (Z.div_small y 10),
              (Z.mod_small y 10) by lia.
      reflexivity.
    + rewrite formatUint_step, formatUint_small by (Z.div_mod_to_equations; lia).
      rewrite (Z.div_small y 1000), (Z.div_small y 100),
              (Z.mod_small (y / 10) 10) by (Z.div_mod_to_equations; lia).
      reflexivity.
    + rewrite (formatUint_step y), (formatUint_step (y / 10)), formatUint_small
        by (Z.div_mod_to_equations; lia).
      rewrite (Z.div_small y 1000) by lia.
      assert (E : y / 10 / 10 = (y / 100) mod 10)
        by (Z.div_mod_to_equations; lia).
      rewrite E. reflexivity.
    + rewrite (formatUint_step y), (formatUint_step (y / 10)),
              (formatUint_step (y / 10 / 10)), formatUint_small
        by (Z.div_mod_to_equations; lia).
      assert (E1 : y / 10 / 10 / 10 = y / 1000)
        by (Z.div_mod_to_equations; lia).
      assert (E2 : (y / 10 / 10) mod 10 = (y / 100) mod 10)
        by (Z.div_mod_to_equations; lia).
      rewrite E1, E2. reflexivity.
  - rewrite digit_char_digits by (Z.div_mod_to_equations; lia).
    f_equal. Z.div_mod_to_equations. lia.
Qed.

Lemma isDigit_noPipe (c : ascii) :
  isDigit c = true -> negb (Ascii.eqb c "|") = true.
Proof.
  intros Hc. destruct (Ascii.eqb_spec c "|"); [subst; discriminate | reflexivity].
Qed.

Lemma skip_nil (v : string) : skip v "" = Some v.
Proof. reflexivity. Qed.

Lemma skip_char (c : ascii) (v : string) :
  Ascii.eqb c " " = false -> skip (String c v) (String c "") = Some v.
Proof.
  intros Hc. unfold skip. cbn [String.length skip_go].
  now rewrite Hc, Ascii.eqb_refl.
Qed.

Lemma parseChunks_cons (prefix : string) (std : Std) (cs : list (string * Std))
    (f : Fields) (v : string) :
  parseChunks ((prefix, std) :: cs) f v =
  match skip v prefix with
  | Some v1 =>
      match parseStd std f v1 with
      | Some (f', v2) => parseChunks cs f' v2
      | None => None
      end
  | None => None
  end.
Proof. reflexivity. Qed.

Lemma getnum_two (a b : ascii) (rest : string) (fixed : bool) :
  isDigit a = true -> isDigit b = true ->
  getnum (String a (String b rest)) fixed =
  Some (digit_val a * 10 + digit_val b, rest).
Proof. intros Ha Hb. unfold getnum. now rewrite Ha, Hb. Qed.

(** The text that follows the seconds does not start a fraction. *)
Definition noFraction (z : string) : bool :=
  match z with
  | String p (String d _) => negb (commaOrPeriod p && isDigit d)
  | _ => true
  end.

Lemma parse_second (f : Fields) (a b : ascii) (z : string) (s : Z) :
  isDigit a = true -> isDigit b = true ->
  digit_val a * 10 + digit_val b = s -> 0 <= s < 60 ->
  noFraction z = true ->
  parseStd stdZeroSecond f (String a (String b z)) =
  Some ({| f_year := f_year f; f_month := f_month f; f_day := f_day f;
           f_hour := f_hour f; f_min := f_min f; f_sec := s;
           f_nsec := f_nsec f; f_utc := f_utc f;
           f_zoneOffset := f_zoneOffset f |}, z).
Proof.
  intros Ha Hb Hs Hr Hz. unfold parseStd. rewrite (getnum_two a b z true Ha Hb), Hs.
  destruct (Z.ltb_spec s 0); [lia|]. destruct (Z.leb_spec 60 s); [lia|].
  cbn [orb]. unfold noFraction in Hz.
  destruct z as [|p [|d r]]; try reflexivity.
  apply negb_true_iff in Hz. now rewrite Hz.
Qed.

(** The zone of a formatted timestamp, and the offset it is read back as:
    "Z" for UTC, else a sign, two digits of hours, a colon and two digits
    of minutes. *)
Lemma zone_roundtrip (f : Fields) (off : Z) :
  f_utc f = false ->
  off mod 60 = 0 -> - 86400 <= off <= 86400 ->
  let z :=
    if off =? 0 then "Z"
    else
      let zone := Z.quot off 60 in
      (if zone <? 0 then "-" else "+") +:+
      appendInt (Z.quot (Z.abs zone) 60) 2 +:+ ":" +:+
      appendInt (Z.rem (Z.abs zone) 60) 2 in
  exists f',
    parseStd stdISO8601ColonTZ f z = Some (f', "") /\
    f_year f' = f_year f /\ f_month f' = f_month f /\ f_day f' = f_day f /\
    f_hour f' = f_hour f /\ f_min f' = f_min f /\ f_sec f' = f_sec f /\
    f_nsec f' = f_nsec f /\
    (if f_utc f' then 0
     else if f_zoneOffset f' =? -1 then 0 else f_zoneOffset f') = off /\
    noFraction z = true /\ noPipe z = true.
Proof.
  intros Hutc Hm Hr z. subst z. cbv zeta.
  destruct (Z.eqb_spec off 0) as [->|Hne].
  - eexists. split; [reflexivity|]. cbn. tauto.
  - set (zone := Z.quot off 60).
    set (hh := Z.quot (Z.abs zone) 60). set (mm := Z.rem (Z.abs zone) 60).
    assert (Hhh : 0 <= hh <= 24 /\ 0 <= mm < 60 /\
                  (hh * 60 + mm) * 60 = Z.abs off /\
                  (zone < 0 <-> off < 0)).
    { assert (Hz : zone * 60 = off).
      { assert (Hoff : off = off / 60 * 60)
          by (pose proof (Z.div_mod off 60); lia).
        subst zone. rewrite Hoff at 1. rewrite Z.quot_mul by lia. lia. }
      pose proof (Z.quot_rem' (Z.abs zone) 60) as Hq.
      pose proof (Z.rem_bound_pos (Z.abs zone) 60 ltac:(lia) ltac:(lia)) as Hb.
      fold hh mm in Hq, Hb. lia. }
    destruct Hhh as (Hh & Hmm & Habs & Hsign).
    destruct (two_digits hh) as (h1 & h2 & -> & Hh1 & Hh2 & Hhv); [lia|].
    destruct (two_digits mm) as (m1 & m2 & -> & Hm1 & Hm2 & Hmv); [lia|].
    assert (Hparse : forall sg : ascii,
               Ascii.eqb sg "Z" = false ->
               parseStd stdISO8601ColonTZ f
                 (String sg (String h1 (String h2 (String ":"
                    (String m1 (String m2 "")))))) =
               if Ascii.eqb sg "+" then
                 Some ({| f_year := f_year f; f_month := f_month f;
                          f_day := f_day f; f_hour := f_hour f;
                          f_min := f_min f; f_sec := f_sec f;
                          f_nsec := f_nsec f; f_utc := f_utc f;
                          f_zoneOffset := Z.abs off |}, "")
               else if Ascii.eqb sg "-" then
                 Some ({| f_year := f_year f; f_month := f_month f;
                          f_day := f_day f; f_hour := f_hour f;
                          f_min := f_min f; f_sec := f_sec f;
                          f_nsec := f_nsec f; f_utc := f_utc f;
                          f_zoneOffset := - Z.abs off |}, "")
               else None).
    { intros sg Hsg. unfold parseStd.
      destruct (Ascii.eqb_spec sg "Z") as [|Hz]; [discriminate|].
      destruct sg as [[] [] [] [] [] [] [] []]; try contradiction;
        change (Ascii.eqb ":" ":") with true; cbn [negb];
        rewrite (getnum_two h1 h2 "" true Hh1 Hh2),
                (getnum_two m1 m2 "" true Hm1 Hm2), Hhv, Hmv;
        (destruct (Z.ltb_spec 24 hh); [lia|]);
        (destruct (Z.ltb_spec 60 mm); [lia|]);
        cbn [orb]; rewrite Habs; reflexivity. }
    assert (Hoff : off = off / 60 * 60)
      by (pose proof (Z.div_mod off 60); lia).
    assert (Hdigits : noPipe (String h1 (String h2 (String ":"
                                (String m1 (String m2 ""))))) = true).
    { unfold noPipe. cbn [list_ascii_of_string forallb].
      rewrite (isDigit_noPipe h1 Hh1), (isDigit_noPipe h2 Hh2),
              (isDigit_noPipe m1 Hm1), (isDigit_noPipe m2 Hm2).
      reflexivity. }
    destruct (Z.ltb_spec zone 0) as [Hneg|Hpos].
    + eexists. split.
      * rewrite !append_cons, !append_nil_l. rewrite Hparse by reflexivity.
        reflexivity.
      * cbn [f_year f_month f_day f_hour f_min f_sec f_nsec f_utc f_zoneOffset].
        rewrite Hutc, !append_cons, !append_nil_l.
        repeat split; try reflexivity.
        -- destruct (Z.eqb_spec (- Z.abs off) (-1)); lia.
        -- exact Hdigits.
    + eexists. split.
      * rewrite !append_cons, !append_nil_l. rewrite Hparse by reflexivity.
        reflexivity.
      * cbn [f_year f_month f_day f_hour f_min f_sec f_nsec f_utc f_zoneOffset].
        rewrite Hutc, !append_cons, !append_nil_l.
        repeat split; try reflexivity.
        -- destruct (Z.eqb_spec (Z.abs off) (-1)); lia.
        -- exact Hdigits.
Qed.

Lemma daysIn_le (m y : Z) : daysIn m y <= 31.
Proof.
  unfold daysIn. destruct ((m =? 2) && isLeap y); [lia|].
  destruct m as [|p|p]; try lia.
  do 4 (try destruct p as [p|p|]; try lia).
Qed.

(** [time.Parse(time.RFC3339, s)] reads back what [Format(time.RFC3339)]
    prints, when the timestamp has no fraction of a second, a year of four
    digits and a zone offset of whole minutes, at most a day. *)
Lemma Parse_FormatRFC3339 (ts : Time) :
  wf ts -> nsec ts = 0 -> 0 <= year ts <= 9999 ->
  offset ts mod 60 = 0 -> - 86400 <= offset ts <= 86400 ->
  Parse RFC3339 (FormatRFC3339 ts) = Some ts /\
  noPipe (FormatRFC3339 ts) = true.
Proof.
  destruct ts as [y mo d h mi s ns off]. unfold wf.
  cbn [year month day hour minute second nsec offset].
  intros (Hmo & Hd & Hh & Hmi & Hs & _) -> Hy Hoffm Hoffr.
  assert (Hd31 : d < 100) by (pose proof (daysIn_le mo y); lia).
  unfold FormatRFC3339.
  cbn [year month day hour minute second nsec offset].
  destruct (four_digits y) as (y1 & y2 & y3 & y4 & -> & Hyv); [lia|].
  destruct (two_digits mo) as (o1 & o2 & -> & Ho1 & Ho2 & Hov); [lia|].
  destruct (two_digits d) as (d1 & d2 & -> & Hd1 & Hd2 & Hdv); [lia|].
  destruct (two_digits h) as (h1 & h2 & -> & Hh1 & Hh2 & Hhv); [lia|].
  destruct (two_digits mi) as (i1 & i2 & -> & Hi1 & Hi2 & Hiv); [lia|].
  destruct (two_digits s) as (s1 & s2 & -> & Hs1 & Hs2 & Hsv); [lia|].
  set (f5 := {| f_year := y; f_month := mo; f_day := d; f_hour := h;
                f_min := mi; f_sec := s; f_nsec := 0; f_utc := false;
                f_zoneOffset := -1 |}).
  destruct (zone_roundtrip f5 off eq_refl Hoffm Hoffr)
    as (f' & Hz & Ey & Emo & Ed & Eh & Emi & Es & Ens & Eoff & Hnf & Hnp).
  cbv zeta in Hz, Hnf, Hnp.
  set (z := if off =? 0 then "Z" else _) in *. clearbody z.
  rewrite !append_cons, !append_nil_l. split.
  - unfold Parse. cbn [chunks RFC3339].
    rewrite parseChunks_cons, skip_nil.
    unfold parseStd at 1. rewrite Hyv.
    rewrite parseChunks_cons, skip_char by reflexivity.
    unfold parseStd at 1. rewrite (getnum_two o1 o2 _ true Ho1 Ho2), Hov.
    destruct (Z.leb_spec mo 0); [lia|]. destruct (Z.ltb_spec 12 mo); [lia|].
    cbn [orb].
    rewrite parseChunks_cons, skip_char by reflexivity.
    unfold parseStd at 1. rewrite (getnum_two d1 d2 _ true Hd1 Hd2), Hdv.
    rewrite parseChunks_cons, skip_char by reflexivity.
    unfold parseStd at 1. rewrite (getnum_two h1 h2 _ false Hh1 Hh2), Hhv.
    destruct (Z.ltb_spec h 0); [lia|]. destruct (Z.leb_spec 24 h); [lia|].
    cbn [orb].
    rewrite parseChunks_cons, skip_char by reflexivity.
    unfold parseStd at 1. rewrite (getnum_two i1 i2 _ true Hi1 Hi2), Hiv.
    destruct (Z.ltb_spec mi 0); [lia|]. destruct (Z.leb_spec 60 mi); [lia|].
    cbn [orb].
    rewrite parseChunks_cons, skip_char by reflexivity.
    rewrite (parse_second _ s1 s2 z s Hs1 Hs2 Hsv Hs Hnf).
    cbn [f_year f_month f_day f_hour f_min f_sec f_nsec f_utc f_zoneOffset
         fields0].
    rewrite parseChunks_cons, skip_nil. fold f5. rewrite Hz.
    cbn [parseChunks trailer]. rewrite skip_nil.
    rewrite Ey, Emo, Ed, Eh, Emi, Es, Ens, Eoff. subst f5.
    cbn [f_year f_month f_day f_hour f_min f_sec f_nsec].
    destruct (Z.ltb_spec mo 0); [lia|]. destruct (Z.ltb_spec d 0); [lia|].
    destruct (Z.ltb_spec d 1); [lia|].
    destruct (Z.ltb_spec (daysIn mo y) d); [lia|]. reflexivity.
  - unfold noPipe in *. cbn [list_ascii_of_string forallb].
    assert (Hyd : forallb (fun x => negb (Ascii.eqb x "|"))
                    (list_ascii_of_string
                       (String y1 (String y2 (String y3 (String y4 ""))))) = true)
      by (eapply digits_without; [reflexivity | exact Hyv]).
    cbn [list_ascii_of_string forallb] in Hyd.
    repeat (apply andb_true_iff in Hyd as [? Hyd]).
    rewrite (isDigit_noPipe o1 Ho1), (isDigit_noPipe o2 Ho2),
            (isDigit_noPipe d1 Hd1), (isDigit_noPipe d2 Hd2),
            (isDigit_noPipe h1 Hh1), (isDigit_noPipe h2 Hh2),
            (isDigit_noPipe i1 Hi1), (isDigit_noPipe i2 Hi2),
            (isDigit_noPipe s1 Hs1), (isDigit_noPipe s2 Hs2).
    repeat (apply andb_true_iff; split); auto.
Qed.

End RFC3339Facts.

(** ** Pagination cursors *)

Section Cursor.

Import GoTime Pagination.

(** The ways a cursor can be malformed: it is not base64; it does not
    decode to two parts around a "|"; its first part is no RFC 3339
    timestamp; its second part is no decimal [int64]. *)
Inductive Malformed (s : string) : Prop :=
| NotBase64 :
    Base64.DecodeString s = None -> Malformed s
| WrongPartCount (decoded : string) :
    Base64.DecodeString s = Some decoded ->
    length (GoStrings.Split decoded "|") <> 2%nat -> Malformed s
| BadTimestamp (decoded p0 p1 : string) :
    Base64.DecodeString s = Some decoded ->
    GoStrings.Split decoded "|" = [p0; p1] ->
    Parse RFC3339 p0 = None -> Malformed s
| BadID (decoded p0 p1 : string) (e : Strconv.NumError) :
    Base64.DecodeString s = Some decoded ->
    GoStrings.Split decoded "|" = [p0; p1] ->
    Strconv.ParseInt p1 = inl e -> Malformed s.

Lemma DecodeCursor_malformed (s : string) :
  s <> "" -> Malformed s -> exists e, DecodeCursor s = (zero, 0, Some e).
Proof.
  intros Hne Hm. unfold DecodeCursor.
  destruct (String.eqb_spec s ""); [contradiction|].
  destruct Hm as [Hd | decoded Hd Hlen | decoded p0 p1 Hd Hs Hp
                 | decoded p0 p1 e Hd Hs Hp]; rewrite Hd.
  - eauto.
  - destruct (GoStrings.Split decoded "|") as [|a [|b [|c l]]]; eauto.
    cbn in Hlen. congruence.
  - rewrite Hs, Hp. eauto.
  - rewrite Hs, Hp. destruct (Parse RFC3339 p0); eauto.
Qed.

Lemma DecodeCursor_EncodeCursor (ts : Time) (id : Z) :
  wf ts -> nsec ts = 0 -> 0 <= year ts <= 9999 ->
  offset ts mod 60 = 0 -> - 86400 <= offset ts <= 86400 ->
  - 2 ^ 63 <= id < 2 ^ 63 ->
  DecodeCursor (EncodeCursor ts id) = (ts, id, None).
Proof.
  intros Hwf Hns Hy Hom Hor Hid.
  destruct (Parse_FormatRFC3339 ts Hwf Hns Hy Hom Hor) as [Hparse Hnp].
  unfold DecodeCursor, EncodeCursor.
  destruct (String.eqb_spec (Base64.EncodeToString
              (FormatRFC3339 ts +:+ "|" +:+ Strconv.FormatInt id)) "") as [He|_].
  { exfalso. unfold Base64.EncodeToString in He.
    destruct (FormatRFC3339 ts) as [|c r] eqn:E; [discriminate|].
    rewrite append_cons in He.
    destruct (r +:+ "|" +:+ Strconv.FormatInt id) as [|c1 [|c2 r']];
      discriminate. }
  rewrite DecodeString_EncodeToString.
  rewrite (Split_pair _ _ Hnp (noPipe_FormatInt id)).
  now rewrite Hparse, (ParseInt_FormatInt id Hid).
Qed.

(** C4 (amended). [DecodeCursor (EncodeCursor ts id)] returns [(ts, id)]
    and no error for every [int64] id and every timestamp that RFC 3339
    with whole seconds can carry: no fraction of a second, a year from 0 to
    9999, a zone offset of whole minutes and at most a day. [DecodeCursor]
    of the empty string returns the zero timestamp, the id 0 and no error.
    [DecodeCursor] of a malformed string (not base64, wrong part count, bad
    timestamp or bad id) returns an error. *)
Theorem cursor_roundtrip (ts : Time) (id : Z) :
  wf ts -> nsec ts = 0 -> 0 <= year ts <= 9999 ->
  offset ts mod 60 = 0 -> - 86400 <= offset ts <= 86400 ->
  - 2 ^ 63 <= id < 2 ^ 63 ->
  DecodeCursor (EncodeCursor ts id) = (ts, id, None) /\
  DecodeCursor "" = (zero, 0, None) /\
  (forall s, s <> "" -> Malformed s ->
             exists e, DecodeCursor s = (zero, 0, Some e)).
Proof.
  intros. split; [now apply DecodeCursor_EncodeCursor|].
  split; [reflexivity|]. apply DecodeCursor_malformed.
Qed.

Definition wholeSecond : Time := Date 2025 8 8 10 0 0 0 0.
Definition halfSecond : Time := Date 2025 8 8 10 0 0 500000000 0.

Lemma wholeSecond_wf : wf wholeSecond.
Proof. unfold wf. cbn. lia. Qed.

Lemma cursor_roundtrip_witness :
  DecodeCursor (EncodeCursor wholeSecond 123) = (wholeSecond, 123, None).
Proof.
  apply (cursor_roundtrip wholeSecond 123).
  - exact wholeSecond_wf.
  - reflexivity.
  - cbn. lia.
  - reflexivity.
  - cbn. lia.
  - lia.
Defined.

(** C4, as stated, fails on a timestamp with half a second: the cursor
    carries whole seconds, and the decoded timestamp is half a second
    earlier. *)
Lemma cursor_loses_fraction :
  wf halfSecond /\
  DecodeCursor (EncodeCursor halfSecond 123) = (wholeSecond, 123, None) /\
  DecodeCursor (EncodeCursor halfSecond 123) <> (halfSecond, 123, None).
Proof.
  split; [unfold wf; cbn; lia|].
  assert (E : DecodeCursor (EncodeCursor halfSecond 123) = (wholeSecond, 123, None))
    by (vm_compute; reflexivity).
  split; [exact E|]. rewrite E. discriminate.
Qed.

Example cursor_of_test :
  EncodeCursor wholeSecond 123 = "MjAyNS0wOC0wOFQxMDowMDowMFp8MTIz".
Proof. vm_compute. reflexivity. Qed.

Example cursor_malformed_inputs :
  snd (DecodeCursor "!!!") = Some (Errorf "invalid cursor format") /\
  snd (DecodeCursor "aGVsbG8=") = Some (Errorf "invalid cursor format") /\
  snd (DecodeCursor (Base64.EncodeToString "yesterday|7")) =
    Some (Errorf "invalid timestamp in cursor") /\
  snd (DecodeCursor (Base64.EncodeToString "2025-08-08T10:00:00Z|seven")) =
    Some (Errorf "invalid id in cursor") /\
  snd (DecodeCursor (EncodeCursor (Date 10000 1 1 0 0 0 0 0) 1)) =
    Some (Errorf "invalid timestamp in cursor").
Proof. vm_compute. repeat split. Qed.

End Cursor.

(** ** File-level idempotency *)

Section Uploads.

Context `{Platform}.
Import Mapper Ingest.

(** A computation that leaves the uploads table as it found it. *)
Definition keepsUploads {A} (m : M A) : Prop :=
  forall w, Store.uploads (db (snd (m w))) = Store.uploads (db w).

Lemma keeps_ret {A} (a : A) : keepsUploads (ret a).
Proof. intros w. reflexivity. Qed.

Lemma keeps_bind {A B} (m : M A) (k : A -> M B) :
  keepsUploads m -> (forall a, keepsUploads (k a)) -> keepsUploads (bind m k).
Proof.
  intros Hm Hk w. unfold bind. specialize (Hm w).
  destruct (m w) as [a w1]. rewrite (Hk a w1). exact Hm.
Qed.

Lemma keeps_query {A} (q : Store.State -> A) : keepsUploads (query q).
Proof. intros w. reflexivity. Qed.

Lemma keeps_exec {A} (stmt : Store.State -> A * Store.State) :
  (forall d, Store.uploads (snd (stmt d)) = Store.uploads d) ->
  keepsUploads (exec stmt).
Proof.
  intros Hs w. unfold exec. specialize (Hs (db w)).
  destruct (stmt (db w)) as [a d]. exact Hs.
Qed.

Lemma keeps_findHeader (mapper : HeaderMapper) (patterns : list string) :
  keepsUploads (findHeader mapper patterns).
Proof. intros w. now rewrite findHeader_db. Qed.

Lemma keeps_forRows {S} (body : Z -> list string -> S -> M S) :
  (forall i cells s, keepsUploads (body i cells s)) ->
  forall rows i s, keepsUploads (forRows body i rows s).
Proof.
  intros Hb rows. induction rows as [|cells rows IH]; intros i s.
  - apply keeps_ret.
  - cbn [forRows]. apply keeps_bind; auto.
Qed.

Lemma insertVessel_uploads d imo name flag type :
  Store.uploads (snd (Store.insertVessel d imo name flag type)) = Store.uploads d.
Proof.
  unfold Store.insertVessel.
  destruct imo as [i|]; [destruct (Store.selectVesselByIMO d i)|]; reflexivity.
Qed.

Lemma updateVessel_uploads d id name flag type :
  Store.uploads (snd (Store.updateVessel d id name flag type)) = Store.uploads d.
Proof. reflexivity. Qed.

Lemma insertEngineReading_uploads d r :
  Store.uploads (snd (Store.insertEngineReading d r)) = Store.uploads d.
Proof.
  unfold Store.insertEngineReading. destruct (Store.vesselExists _ _); reflexivity.
Qed.

Lemma insertFuelTankReading_uploads d r :
  Store.uploads (snd (Store.insertFuelTankReading d r)) = Store.uploads d.
Proof.
  unfold Store.insertFuelTankReading. destruct (Store.vesselExists _ _); reflexivity.
Qed.

Lemma insertGeneratorReading_uploads d r :
  Store.uploads (snd (Store.insertGeneratorReading d r)) = Store.uploads d.
Proof.
  unfold Store.insertGeneratorReading. destruct (Store.vesselExists _ _); reflexivity.
Qed.

Lemma insertCCTVReading_uploads d r :
  Store.uploads (snd (Store.insertCCTVReading d r)) = Store.uploads d.
Proof.
  unfold Store.insertCCTVReading. destruct (Store.vesselExists _ _); reflexivity.
Qed.

Lemma insertImpactReading_uploads d r :
  Store.uploads (snd (Store.insertImpactReading d r)) = Store.uploads d.
Proof.
  unfold Store.insertImpactReading. destruct (Store.vesselExists _ _); reflexivity.
Qed.

Lemma insertLocationReading_uploads d r :
  Store.uploads (snd (Store.insertLocationReading d r)) = Store.uploads d.
Proof.
  unfold Store.insertLocationReading. destruct (Store.vesselExists _ _); reflexivity.
Qed.

Lemma replaceStreamLatest_uploads d v s t :
  Store.uploads (snd (Store.replaceStreamLatest d v s t)) = Store.uploads d.
Proof.
  unfold Store.replaceStreamLatest. destruct (Store.vesselExists _ _); reflexivity.
Qed.

Create HintDb uploads.

Hint Resolve keeps_ret keeps_query keeps_findHeader insertVessel_uploads
  updateVessel_uploads insertEngineReading_uploads
  insertFuelTankReading_uploads insertGeneratorReading_uploads
  insertCCTVReading_uploads insertImpactReading_uploads
  insertLocationReading_uploads replaceStreamLatest_uploads : uploads.

(** Walks a computation of [M]: binds, branches and statements. *)
Ltac keeps :=
  repeat
    match goal with
    | |- keepsUploads (bind _ _) => apply keeps_bind; [|intros]
    | |- keepsUploads (exec _) => apply keeps_exec; intros
    | |- keepsUploads (forRows _ _ _ _) => apply keeps_forRows; intros
    | |- keepsUploads (let '(_, _) := ?x in _) => destruct x
    | |- keepsUploads (if ?b then _ else _) => destruct b
    | |- keepsUploads (match ?x with _ => _ end) => destruct x
    | |- keepsUploads _ => solve [auto with uploads]
    | |- Store.uploads _ = Store.uploads _ => solve [auto with uploads]
    end.

Lemma keeps_processLocation hs data vesselID defaultTS mapper :
  keepsUploads (processLocationFromShipInfo hs data vesselID defaultTS mapper).
Proof.
  unfold processLocationFromShipInfo, locationValues, findTimestampHeader. keeps.
Qed.

Lemma keeps_vesselFromIdentifiers providedIMO vesselName :
  keepsUploads (vesselFromIdentifiers providedIMO vesselName).
Proof. unfold vesselFromIdentifiers. keeps. Qed.

Lemma keeps_processShipInfo f providedIMO vesselName uploadedAt :
  keepsUploads (processShipInfo f providedIMO vesselName uploadedAt).
Proof.
  pose proof keeps_processLocation. pose proof keeps_vesselFromIdentifiers.
  unfold processShipInfo. keeps.
Qed.

Lemma keeps_processEngineSheet f sheetName vesselID defaultTS :
  keepsUploads (processEngineSheet f sheetName vesselID defaultTS).
Proof.
  unfold processEngineSheet, findTimestampHeader. keeps.
  unfold engineRow. keeps.
Qed.

Lemma keeps_processFuelSheet f sheetName vesselID defaultTS :
  keepsUploads (processFuelSheet f sheetName vesselID defaultTS).
Proof.
  unfold processFuelSheet, findTimestampHeader. keeps.
  unfold fuelRow. keeps.
Qed.

Lemma keeps_processGeneratorSheet f sheetName vesselID defaultTS :
  keepsUploads (processGeneratorSheet f sheetName vesselID defaultTS).
Proof.
  unfold processGeneratorSheet, findTimestampHeader. keeps.
  unfold generatorRow. keeps.
Qed.

Lemma keeps_processCCTVSheet f sheetName vesselID defaultTS :
  keepsUploads (processCCTVSheet f sheetName vesselID defaultTS).
Proof.
  unfold processCCTVSheet, findTimestampHeader. keeps.
  unfold cctvRow. keeps.
Qed.

Lemma keeps_processImpactSheet f sheetName vesselID defaultTS :
  keepsUploads (processImpactSheet f sheetName vesselID defaultTS).
Proof.
  unfold processImpactSheet, findTimestampHeader. keeps.
  unfold impactRow. keeps.
Qed.

Lemma keeps_processSheets f vesselID uploadedAt sheets :
  forall acc, keepsUploads (processSheets f vesselID uploadedAt sheets acc).
Proof.
  pose proof keeps_processEngineSheet. pose proof keeps_processFuelSheet.
  pose proof keeps_processGeneratorSheet. pose proof keeps_processCCTVSheet.
  pose proof keeps_processImpactSheet.
  induction sheets as [|sheetName rest IH]; intros acc; cbn [processSheets].
  - apply keeps_ret.
  - apply keeps_bind; [|auto]. unfold processSheet. keeps.
Qed.

Lemma keeps_updateStreamLatest vesselID rowsInserted ts :
  keepsUploads (updateStreamLatest vesselID rowsInserted ts).
Proof.
  unfold updateStreamLatest.
  induction (map_to_list rowsInserted) as [|[stream count] l IH];
    cbn [fold_right]; keeps.
Qed.

(** [ProcessFile] writes nothing to the uploads table, whatever it is given
    and however it ends. *)
Lemma ProcessFile_keeps_uploads fileData filename imo vesselName periodStart now :
  keepsUploads (ProcessFile fileData filename imo vesselName periodStart now).
Proof.
  pose proof keeps_processShipInfo. pose proof keeps_processSheets.
  pose proof keeps_updateStreamLatest.
  unfold ProcessFile. keeps.
Qed.

End Uploads.

Section UploadExamples.

Local Existing Instance samplePlatform.
Import Ingest.

Definition statusOf (r : ProcessResult) : option string :=
  match r with
  | ProcessReturn (Some resp) None => Some (Status resp)
  | _ => None
  end.

Definition uploadOf (r : ProcessResult) : option Z :=
  match r with
  | ProcessReturn (Some resp) None => UploadID resp
  | _ => None
  end.

Definition ingestSample (w : World) : ProcessResult * World :=
  ProcessFile "file-1" "telemetry.xlsx" "2222222" "" (Some referenceTS)
              referenceTS w.

(** C1 fails on the code: the bytes "file-1" (which the reader opens as the
    sample workbook) are ingested twice. The first call answers "ingested"
    and leaves no upload row; the second call does not find the hash and
    answers "ingested" again, with the constant upload id 1; no upload row
    exists after either call. The readings are not duplicated: the
    row-level key drops them. *)
Theorem same_bytes_ingested_twice :
  let first := ingestSample emptyWorld in
  let second := ingestSample (snd first) in
  statusOf (fst first) = Some "ingested" /\
  Store.uploads (db (snd first)) = [] /\
  statusOf (fst second) = Some "ingested" /\
  uploadOf (fst second) = Some 1 /\
  Store.uploads (db (snd second)) = [] /\
  Store.engine_readings (db (snd second)) =
    Store.engine_readings (db (snd first)).
Proof. vm_compute. repeat split. Qed.

End UploadExamples.

(** ** The header mapper *)

Section Headers.

Context `{Platform}.
Import Mapper.

Lemma prefix_refl (s : string) : String.prefix s s = true.
Proof.
  induction s as [|c s IH]; [reflexivity|]. cbn.
  destruct (ascii_dec c c); [exact IH | contradiction].
Qed.

Lemma Contains_refl (s : string) : GoStrings.Contains s s = true.
Proof.
  destruct s as [|c s]; [reflexivity|].
  change (String.prefix (String c s) (String c s) ||
          GoStrings.Contains s (String c s) = true).
  now rewrite prefix_refl.
Qed.

(** The map of [NewHeaderMapper]: a normalized name leads to the last
    header that has it. *)
Lemma NewHeaderMapper_last (hs : list string) (k : string) :
  headers (NewHeaderMapper hs) !! k =
  last (filter (fun h => normalizeHeader h = k) hs).
Proof.
  unfold NewHeaderMapper. cbn [headers].
  induction hs as [|h hs IH] using rev_ind; [reflexivity|].
  rewrite fold_left_app, filter_app. cbn [fold_left].
  destruct (decide (normalizeHeader h = k)) as [<-|Hne].
  - rewrite lookup_insert_eq, filter_cons_True, filter_nil by reflexivity.
    now rewrite last_snoc.
  - rewrite lookup_insert_ne, filter_cons_False, filter_nil, app_nil_r by done.
    exact IH.
Qed.

Lemma NewHeaderMapper_Some (hs : list string) (k original : string) :
  headers (NewHeaderMapper hs) !! k = Some original ->
  original ∈ hs /\ normalizeHeader original = k.
Proof.
  rewrite NewHeaderMapper_last. intros Hl.
  apply last_Some_elem_of in Hl. now apply list_elem_of_filter in Hl as [? ?].
Qed.

Lemma NewHeaderMapper_key (hs : list string) (h : string) :
  h ∈ hs -> is_Some (headers (NewHeaderMapper hs) !! normalizeHeader h).
Proof.
  intros Hin. rewrite NewHeaderMapper_last.
  destruct (filter _ hs) as [|a l] eqn:E using rev_ind.
  - assert (Hf : h ∈ filter (fun h0 => normalizeHeader h0 = normalizeHeader h) hs)
      by now apply list_elem_of_filter.
    rewrite E in Hf. now apply elem_of_nil in Hf.
  - rewrite last_snoc. eauto.
Qed.

(** X1. [FindHeader] answers for the first pattern that some header
    matches, where a header matches a pattern when its normalized name
    contains it: the header returned is one of the sheet's and matches that
    pattern, and no header matches an earlier pattern. It answers
    [("", false)] only when no header matches any pattern. This holds for
    every order in which [range] visits the map. *)
Theorem FindHeader_first_matching_pattern (hs patterns : list string) (n : nat) :
  (forall k l, map_range k l ≡ₚ l) ->
  match FindHeader (NewHeaderMapper hs) patterns n with
  | (col, true, _) =>
      col ∈ hs /\
      exists ps1 p ps2,
        patterns = ps1 ++ p :: ps2 /\
        GoStrings.Contains (normalizeHeader col) p = true /\
        forall h q, h ∈ hs -> q ∈ ps1 ->
                    GoStrings.Contains (normalizeHeader h) q = false
  | (col, false, _) =>
      col = "" /\
      forall h q, h ∈ hs -> q ∈ patterns ->
                  GoStrings.Contains (normalizeHeader h) q = false
  end.
Proof.
  intros Hperm. revert n.
  induction patterns as [|p rest IH]; intros n; cbn [FindHeader].
  - split; [reflexivity|]. intros h q _ Hq. now apply elem_of_nil in Hq.
  - destruct (headers (NewHeaderMapper hs) !! p) as [original|] eqn:Hexact.
    + apply NewHeaderMapper_Some in Hexact as [Hin Hn]. split; [exact Hin|].
      exists [], p, rest. rewrite Hn, Contains_refl. repeat split.
      intros h q _ Hq. now apply elem_of_nil in Hq.
    + destruct (find _ _) as [[k original]|] eqn:Hfind.
      * apply find_some in Hfind as [Hin Hc]. cbn [fst] in Hc.
        apply list_elem_of_In in Hin. rewrite Hperm in Hin.
        apply elem_of_map_to_list in Hin.
        apply NewHeaderMapper_Some in Hin as [Hin Hn]. split; [exact Hin|].
        exists [], p, rest. rewrite Hn. repeat split; [exact Hc|].
        intros h q _ Hq. now apply elem_of_nil in Hq.
      * assert (Hnone : forall h, h ∈ hs ->
                  GoStrings.Contains (normalizeHeader h) p = false).
        { intros h Hh. destruct (NewHeaderMapper_key hs h Hh) as [o Ho].
          apply elem_of_map_to_list in Ho. rewrite <- (Hperm n) in Ho.
          apply list_elem_of_In in Ho.
          exact (find_none _ _ Hfind _ Ho). }
        specialize (IH (S n)).
        destruct (FindHeader (NewHeaderMapper hs) rest (S n)) as [[col found] n'].
        destruct found.
        -- destruct IH as (Hin & ps1 & q & ps2 & -> & Hc & Hbefore).
           split; [exact Hin|]. exists (p :: ps1), q, ps2.
           repeat split; [exact Hc|].
           intros h q' Hh Hq'. apply elem_of_cons in Hq' as [->|Hq']; auto.
        -- destruct IH as (-> & Hall). split; [reflexivity|].
           intros h q Hh Hq. apply elem_of_cons in Hq as [->|Hq]; auto.
Qed.

(** X2. A header is found by its normalized name, whatever the order of
    the map: [FindHeader] returns it for a first pattern that is the exact
    normalized name, unless a later header of the sheet has the same
    normalized name, in which case the last of them is returned. *)
Theorem header_found_by_its_normalized_name
    (hs1 hs2 : list string) (h : string) (patterns : list string) (n : nat) :
  (forall h', h' ∈ hs2 -> normalizeHeader h' <> normalizeHeader h) ->
  FindHeader (NewHeaderMapper (hs1 ++ h :: hs2)) (normalizeHeader h :: patterns) n
  = (h, true, n).
Proof.
  intros Hlast. cbn [FindHeader]. rewrite NewHeaderMapper_last.
  rewrite filter_app, filter_cons_True by reflexivity.
  assert (Hnone : filter (fun h0 => normalizeHeader h0 = normalizeHeader h) hs2
                  = []).
  { induction hs2 as [|a hs2 IH]; [reflexivity|].
    rewrite filter_cons_False by (apply Hlast; left).
    apply IH. intros h' Hh'. apply Hlast. now right. }
  rewrite Hnone. now rewrite last_snoc.
Qed.

(** *** Patterns that cannot match *)

Definition hasChar (c : ascii) (s : string) : bool :=
  existsb (Ascii.eqb c) (list_ascii_of_string s).

Lemma hasChar_app (c : ascii) (s1 s2 : string) :
  hasChar c (s1 +:+ s2) = hasChar c s1 || hasChar c s2.
Proof.
  unfold hasChar. induction s1 as [|a s1 IH]; [reflexivity|].
  rewrite append_cons. cbn. rewrite IH. now rewrite orb_assoc.
Qed.

Lemma prefix_hasChar (c : ascii) (p s : string) :
  String.prefix p s = true -> hasChar c p = true -> hasChar c s = true.
Proof.
  unfold hasChar. revert s. induction p as [|a p IH]; intros s Hp Hc.
  - discriminate.
  - destruct s as [|b s]; [discriminate|]. cbn in Hp.
    destruct (ascii_dec a b) as [<-|]; [|discriminate].
    cbn in Hc |- *. destruct (Ascii.eqb c a); [reflexivity|]. cbn in *. auto.
Qed.

Lemma Contains_hasChar (c : ascii) (s p : string) :
  GoStrings.Contains s p = true -> hasChar c p = true -> hasChar c s = true.
Proof.
  induction s as [|a s IH]; intros Hs Hc.
  - cbn in Hs. rewrite orb_false_r in Hs. eapply prefix_hasChar; eauto.
  - change (String.prefix p (String a s) || GoStrings.Contains s p = true) in Hs.
    apply orb_true_iff in Hs as [Hs|Hs]; [eapply prefix_hasChar; eauto|].
    unfold hasChar. cbn. fold (hasChar c s). rewrite (IH Hs Hc).
    apply orb_true_r.
Qed.

(** Replacing a character by an underscore leaves none of it, and brings
    nothing but underscores. *)
Lemma replace_char (a : ascii) (s : string) :
  a <> "_"%char ->
  hasChar a (GoStrings.ReplaceAll s (String a "") "_") = false /\
  forall c, c <> "_"%char ->
            hasChar c (GoStrings.ReplaceAll s (String a "") "_") = true ->
            hasChar c s = true.
Proof.
  intros Ha. unfold GoStrings.ReplaceAll.
  change (String.eqb (String a "") "") with false. cbv iota.
  induction s as [|b s [IH1 IH2]]; [split; [reflexivity | auto]|].
  cbn [GoStrings.replace_go String.length Nat.sub].
  assert (Hpre : String.prefix (String a "") (String b s) =
                 if ascii_dec a b then true else false)
    by (cbn; destruct (ascii_dec a b); [now destruct s | reflexivity]).
  rewrite Hpre. clear Hpre.
  destruct (ascii_dec a b) as [<-|Hab].
  - rewrite append_cons, append_nil_l. split.
    + unfold hasChar. cbn. fold (hasChar a (GoStrings.replace_go s 0 (String a "") "_")).
      rewrite IH1. destruct (Ascii.eqb_spec a "_"); [contradiction | reflexivity].
    + intros c Hc. unfold hasChar. cbn.
      destruct (Ascii.eqb_spec c "_"); [contradiction|]. cbn.
      intros Hin. apply IH2 in Hin; [|exact Hc].
      unfold hasChar in Hin. rewrite Hin. apply orb_true_r.
  - split.
    + unfold hasChar. cbn. fold (hasChar a (GoStrings.replace_go s 0 (String a "") "_")).
      rewrite IH1. destruct (Ascii.eqb_spec a b); [contradiction | reflexivity].
    + intros c Hc. unfold hasChar. cbn.
      destruct (Ascii.eqb c b); [reflexivity|]. cbn. now apply IH2.
Qed.

(** X3. A normalized header holds no space and no hyphen: both are
    replaced by underscores. A pattern with a space or a hyphen in it is
    therefore contained in no normalized header and is the exact name of
    none: patterns such as "Tank ID" and "Current Level(m3)", which
    [processFuelSheet] passes to [FindHeader], select no column. *)
Theorem pattern_with_space_or_hyphen_matches_nothing (p : string) :
  hasChar " " p = true \/ hasChar "-" p = true ->
  (forall h, GoStrings.Contains (normalizeHeader h) p = false) /\
  (forall hs, headers (NewHeaderMapper hs) !! p = None).
Proof.
  intros Hp.
  assert (Hfree : forall h, hasChar " " (normalizeHeader h) = false /\
                            hasChar "-" (normalizeHeader h) = false).
  { intros h. unfold normalizeHeader.
    set (t := GoStrings.TrimSpace (GoStrings.ToLower h)).
    destruct (replace_char " " t ltac:(discriminate)) as [Hs _].
    destruct (replace_char "-" (GoStrings.ReplaceAll t " " "_")
                ltac:(discriminate)) as [Hh Hkeep].
    split; [|exact Hh].
    destruct (hasChar " " (GoStrings.ReplaceAll _ "-" "_")) eqn:E;
      [|reflexivity].
    apply Hkeep in E; [congruence | discriminate]. }
  assert (Hno : forall h, GoStrings.Contains (normalizeHeader h) p = false).
  { intros h. destruct (Hfree h) as [Hs Hh].
    destruct (GoStrings.Contains (normalizeHeader h) p) eqn:E; [|reflexivity].
    destruct Hp as [Hp|Hp];
      pose proof (Contains_hasChar _ _ _ E Hp); congruence. }
  split; [exact Hno|].
  intros hs. destruct (headers (NewHeaderMapper hs) !! p) as [o|] eqn:E;
    [|reflexivity].
  apply NewHeaderMapper_Some in E as [_ E].
  specialize (Hno o). rewrite E, Contains_refl in Hno. discriminate.
Qed.

End Headers.

(** ** What a run leaves in place

    A relation [R] between the database before and after that is
    reflexive, transitive and respected by the statements a processor
    executes is respected by the processor. *)

Section Frames.

Context `{Platform}.
Import Mapper Ingest.

Variable R : relation Store.State.
Context `{!PreOrder R}.

Definition respects {A} (m : M A) : Prop :=
  forall w, R (db w) (db (snd (m w))).

Lemma respects_ret {A} (a : A) : respects (ret a).
Proof. intros w. reflexivity. Qed.

Lemma respects_bind {A B} (m : M A) (k : A -> M B) :
  respects m -> (forall a, respects (k a)) -> respects (bind m k).
Proof.
  intros Hm Hk w. unfold bind. specialize (Hm w).
  destruct (m w) as [a w1]. etransitivity; [exact Hm | apply Hk].
Qed.

Lemma respects_query {A} (q : Store.State -> A) : respects (query q).
Proof. intros w. reflexivity. Qed.

Lemma respects_exec {A} (stmt : Store.State -> A * Store.State) :
  (forall d, R d (snd (stmt d))) -> respects (exec stmt).
Proof.
  intros Hs w. unfold exec. specialize (Hs (db w)).
  destruct (stmt (db w)) as [a d]. exact Hs.
Qed.

Lemma respects_findHeader (mapper : HeaderMapper) (patterns : list string) :
  respects (findHeader mapper patterns).
Proof. intros w. rewrite findHeader_db. reflexivity. Qed.

Lemma respects_forRows {S} (body : Z -> list string -> S -> M S) :
  (forall i cells s, respects (body i cells s)) ->
  forall rows i s, respects (forRows body i rows s).
Proof.
  intros Hb rows. induction rows as [|cells rows IH]; intros i s.
  - apply respects_ret.
  - cbn [forRows]. apply respects_bind; auto.
Qed.

(** Walks a computation of [M]: binds, branches and statements. *)
Ltac frame :=
  repeat
    match goal with
    | |- respects (bind _ _) => apply respects_bind; [|intros]
    | |- respects (exec _) => apply respects_exec; intros
    | |- respects (forRows _ _ _ _) => apply respects_forRows; intros
    | |- respects (ret _) => apply respects_ret
    | |- respects (query _) => apply respects_query
    | |- respects (findHeader _ _) => apply respects_findHeader
    | |- respects (let '(_, _) := ?x in _) => destruct x
    | |- respects (if ?b then _ else _) => destruct b
    | |- respects (match ?x with _ => _ end) => destruct x
    | |- respects _ => solve [auto]
    | |- R _ _ => solve [auto]
    end.

(** *** The rows of one vessel

    The statements that insert a reading are respected when the reading
    has the vessel id that the processor was given. *)

Section OneVessel.

Variable vesselID : Z.

Hypothesis R_engine :
  forall d r, Store.r_vessel_id r = vesselID ->
              R d (snd (Store.insertEngineReading d r)).
Hypothesis R_fuel :
  forall d r, Store.r_vessel_id r = vesselID ->
              R d (snd (Store.insertFuelTankReading d r)).
Hypothesis R_generator :
  forall d r, Store.r_vessel_id r = vesselID ->
              R d (snd (Store.insertGeneratorReading d r)).
Hypothesis R_cctv :
  forall d r, Store.r_vessel_id r = vesselID ->
              R d (snd (Store.insertCCTVReading d r)).
Hypothesis R_impact :
  forall d r, Store.r_vessel_id r = vesselID ->
              R d (snd (Store.insertImpactReading d r)).

Lemma respects_processEngineSheet f sheetName defaultTS :
  respects (processEngineSheet f sheetName vesselID defaultTS).
Proof.
  unfold processEngineSheet, findTimestampHeader. frame.
  unfold engineRow. frame.
Qed.

Lemma respects_processFuelSheet f sheetName defaultTS :
  respects (processFuelSheet f sheetName vesselID defaultTS).
Proof.
  unfold processFuelSheet, findTimestampHeader. frame.
  unfold fuelRow. frame.
Qed.

Lemma respects_processGeneratorSheet f sheetName defaultTS :
  respects (processGeneratorSheet f sheetName vesselID defaultTS).
Proof.
  unfold processGeneratorSheet, findTimestampHeader. frame.
  unfold generatorRow. frame.
Qed.

Lemma respects_processCCTVSheet f sheetName defaultTS :
  respects (processCCTVSheet f sheetName vesselID defaultTS).
Proof.
  unfold processCCTVSheet, findTimestampHeader. frame.
  unfold cctvRow. frame.
Qed.

Lemma respects_processImpactSheet f sheetName defaultTS :
  respects (processImpactSheet f sheetName vesselID defaultTS).
Proof.
  unfold processImpactSheet, findTimestampHeader. frame.
  unfold impactRow. frame.
Qed.

Lemma respects_processSheet f uploadedAt sheetName acc :
  respects (processSheet f vesselID uploadedAt sheetName acc).
Proof.
  pose proof respects_processEngineSheet. pose proof respects_processFuelSheet.
  pose proof respects_processGeneratorSheet. pose proof respects_processCCTVSheet.
  pose proof respects_processImpactSheet.
  unfold processSheet. frame.
Qed.

Lemma respects_processSheets f uploadedAt sheets :
  forall acc, respects (processSheets f vesselID uploadedAt sheets acc).
Proof.
  induction sheets as [|sheetName rest IH]; intros acc; cbn [processSheets].
  - apply respects_ret.
  - apply respects_bind; [apply respects_processSheet | auto].
Qed.

Hypothesis R_location :
  forall d r, Store.r_vessel_id r = vesselID ->
              R d (snd (Store.insertLocationReading d r)).

Lemma respects_processLocation hs data defaultTS mapper :
  respects (processLocationFromShipInfo hs data vesselID defaultTS mapper).
Proof.
  unfold processLocationFromShipInfo, locationValues, findTimestampHeader. frame.
Qed.

End OneVessel.

(** *** The whole ingestion *)

Hypothesis R_engine : forall d r, R d (snd (Store.insertEngineReading d r)).
Hypothesis R_fuel : forall d r, R d (snd (Store.insertFuelTankReading d r)).
Hypothesis R_generator : forall d r, R d (snd (Store.insertGeneratorReading d r)).
Hypothesis R_cctv : forall d r, R d (snd (Store.insertCCTVReading d r)).
Hypothesis R_impact : forall d r, R d (snd (Store.insertImpactReading d r)).
Hypothesis R_location : forall d r, R d (snd (Store.insertLocationReading d r)).
Hypothesis R_insertVessel :
  forall d imo name flag type, R d (snd (Store.insertVessel d imo name flag type)).
Hypothesis R_updateVessel :
  forall d id name flag type, R d (snd (Store.updateVessel d id name flag type)).
Hypothesis R_latest :
  forall d v s t, R d (snd (Store.replaceStreamLatest d v s t)).

Lemma respects_vesselFromIdentifiers providedIMO vesselName :
  respects (vesselFromIdentifiers providedIMO vesselName).
Proof. unfold vesselFromIdentifiers. frame. Qed.

Lemma respects_processShipInfo f providedIMO vesselName uploadedAt :
  respects (processShipInfo f providedIMO vesselName uploadedAt).
Proof.
  assert (forall hs data vesselID defaultTS mapper,
             respects (processLocationFromShipInfo hs data vesselID defaultTS
                         mapper))
    by (intros; apply respects_processLocation; auto).
  pose proof respects_vesselFromIdentifiers.
  unfold processShipInfo. frame.
Qed.

Lemma respects_updateStreamLatest vesselID rowsInserted ts :
  respects (updateStreamLatest vesselID rowsInserted ts).
Proof.
  unfold updateStreamLatest.
  induction (map_to_list rowsInserted) as [|[stream count] l IH];
    cbn [fold_right]; frame.
Qed.

Lemma respects_ProcessFile fileData filename imo vesselName periodStart now :
  respects (ProcessFile fileData filename imo vesselName periodStart now).
Proof.
  pose proof respects_processShipInfo.
  assert (forall f vesselID uploadedAt sheets acc,
             respects (processSheets f vesselID uploadedAt sheets acc))
    by (intros; apply respects_processSheets; auto).
  pose proof respects_updateStreamLatest.
  unfold ProcessFile. frame.
Qed.

End Frames.

(** ** Ingestion only appends *)

Section AppendOnly.

Context `{Platform}.
Import Mapper Ingest.

(** What identifies a vessel row: its id and its IMO number. *)
Definition vesselIdentity (v : Store.Vessel) : Z * option string :=
  (Store.v_id v, Store.v_imo v).

(** [d'] has the rows of [d], in place, and maybe more after them; of a
    vessel row the name, the flag and the type may differ. The table of
    the latest timestamps is free. *)
Record grows (d d' : Store.State) : Prop := {
  grows_vessels :
    map vesselIdentity (Store.vessels d) `prefix_of`
    map vesselIdentity (Store.vessels d');
  grows_uploads : Store.uploads d' = Store.uploads d;
  grows_engine : Store.engine_readings d `prefix_of` Store.engine_readings d';
  grows_fuel :
    Store.fuel_tank_readings d `prefix_of` Store.fuel_tank_readings d';
  grows_generator :
    Store.generator_readings d `prefix_of` Store.generator_readings d';
  grows_cctv :
    Store.cctv_status_readings d `prefix_of` Store.cctv_status_readings d';
  grows_impact :
    Store.impact_vibration_readings d `prefix_of`
    Store.impact_vibration_readings d';
  grows_location :
    Store.location_readings d `prefix_of` Store.location_readings d'
}.

Global Instance grows_preorder : PreOrder grows.
Proof.
  split.
  - intros d. split; reflexivity.
  - intros d1 d2 d3 [] []. split; etransitivity; eassumption.
Qed.

Lemma insertOrIgnore_prefix {F} (rows : list (Store.Reading F)) r :
  rows `prefix_of` Store.insertOrIgnore rows r.
Proof.
  unfold Store.insertOrIgnore. destruct (existsb _ _); [reflexivity|].
  now exists [r].
Qed.

Lemma grows_insertVessel d imo name flag type :
  grows d (snd (Store.insertVessel d imo name flag type)).
Proof.
  assert (Hnew : forall v, grows d (Store.set_vessels d (Store.vessels d ++ [v]))).
  { intros v. split; try reflexivity. cbn. rewrite map_app. now eexists. }
  unfold Store.insertVessel.
  destruct imo as [i|]; [destruct (Store.selectVesselByIMO d i)|];
    cbn [snd]; auto; reflexivity.
Qed.

Lemma grows_updateVessel d id name flag type :
  grows d (snd (Store.updateVessel d id name flag type)).
Proof.
  split; try reflexivity. cbn. rewrite map_map.
  erewrite map_ext; [reflexivity|].
  intros v. cbn. now destruct (Store.v_id v =? id).
Qed.

Lemma grows_engine_insert d r : grows d (snd (Store.insertEngineReading d r)).
Proof.
  unfold Store.insertEngineReading.
  destruct (Store.vesselExists _ _); [|reflexivity].
  split; try reflexivity. apply insertOrIgnore_prefix.
Qed.

Lemma grows_fuel_insert d r : grows d (snd (Store.insertFuelTankReading d r)).
Proof.
  unfold Store.insertFuelTankReading.
  destruct (Store.vesselExists _ _); [|reflexivity].
  split; try reflexivity. apply insertOrIgnore_prefix.
Qed.

Lemma grows_generator_insert d r :
  grows d (snd (Store.insertGeneratorReading d r)).
Proof.
  unfold Store.insertGeneratorReading.
  destruct (Store.vesselExists _ _); [|reflexivity].
  split; try reflexivity. apply insertOrIgnore_prefix.
Qed.

Lemma grows_cctv_insert d r : grows d (snd (Store.insertCCTVReading d r)).
Proof.
  unfold Store.insertCCTVReading.
  destruct (Store.vesselExists _ _); [|reflexivity].
  split; try reflexivity. apply insertOrIgnore_prefix.
Qed.

Lemma grows_impact_insert d r : grows d (snd (Store.insertImpactReading d r)).
Proof.
  unfold Store.insertImpactReading.
  destruct (Store.vesselExists _ _); [|reflexivity].
  split; try reflexivity. apply insertOrIgnore_prefix.
Qed.

Lemma grows_location_insert d r :
  grows d (snd (Store.insertLocationReading d r)).
Proof.
  unfold Store.insertLocationReading.
  destruct (Store.vesselExists _ _); [|reflexivity].
  split; try reflexivity. apply insertOrIgnore_prefix.
Qed.

Lemma grows_latest d v s t : grows d (snd (Store.replaceStreamLatest d v s t)).
Proof.
  unfold Store.replaceStreamLatest.
  destruct (Store.vesselExists _ _); [|reflexivity]. split; reflexivity.
Qed.

(** X4. [ProcessFile] only appends, however it ends: after the call every
    reading table starts with the rows it had before, in the same order,
    the vessels table starts with the same vessels (same id, same IMO
    number; a name, flag or type may have been updated), and the uploads
    table is the same. No row is deleted and no reading is rewritten. *)
Theorem ProcessFile_only_appends
    (fileData filename imo vesselName : string)
    (periodStart : option GoTime.Time) (now : GoTime.Time) (w : World) :
  grows (db w)
        (db (snd (ProcessFile fileData filename imo vesselName periodStart
                              now w))).
Proof.
  apply (respects_ProcessFile grows);
    auto using grows_engine_insert, grows_fuel_insert, grows_generator_insert,
      grows_cctv_insert, grows_impact_insert, grows_insertVessel,
      grows_updateVessel, grows_location_insert, grows_latest.
Qed.

(** *** Whose rows are added *)

(** The rows of [rows'] that are not in [rows] belong to the vessel [id]. *)
Definition newFor {F} (id : Z) (rows rows' : list (Store.Reading F)) : Prop :=
  forall r, In r rows' -> In r rows \/ Store.r_vessel_id r = id.

Record addedFor (id : Z) (d d' : Store.State) : Prop := {
  added_engine : newFor id (Store.engine_readings d) (Store.engine_readings d');
  added_fuel :
    newFor id (Store.fuel_tank_readings d) (Store.fuel_tank_readings d');
  added_generator :
    newFor id (Store.generator_readings d) (Store.generator_readings d');
  added_cctv :
    newFor id (Store.cctv_status_readings d) (Store.cctv_status_readings d');
  added_impact :
    newFor id (Store.impact_vibration_readings d)
           (Store.impact_vibration_readings d');
  added_location :
    newFor id (Store.location_readings d) (Store.location_readings d')
}.

Lemma newFor_refl {F} (id : Z) (rows : list (Store.Reading F)) :
  newFor id rows rows.
Proof. intros r Hr. now left. Qed.

Lemma newFor_trans {F} (id : Z) (r1 r2 r3 : list (Store.Reading F)) :
  newFor id r1 r2 -> newFor id r2 r3 -> newFor id r1 r3.
Proof. intros H12 H23 r Hr. destruct (H23 r Hr); auto. Qed.

Global Instance addedFor_preorder (id : Z) : PreOrder (addedFor id).
Proof.
  split.
  - intros d. split; apply newFor_refl.
  - intros d1 d2 d3 [] []. split; eapply newFor_trans; eassumption.
Qed.

Lemma insertOrIgnore_newFor {F} (id : Z) (rows : list (Store.Reading F)) r :
  Store.r_vessel_id r = id -> newFor id rows (Store.insertOrIgnore rows r).
Proof.
  intros Hid x Hx. unfold Store.insertOrIgnore in Hx.
  destruct (existsb _ _); [now left|].
  apply in_app_or in Hx as [Hx|[<-|[]]]; auto.
Qed.

Lemma addedFor_engine id d r :
  Store.r_vessel_id r = id -> addedFor id d (snd (Store.insertEngineReading d r)).
Proof.
  intros Hid. unfold Store.insertEngineReading.
  destruct (Store.vesselExists _ _); [|reflexivity].
  split; try apply newFor_refl. now apply insertOrIgnore_newFor.
Qed.

Lemma addedFor_fuel id d r :
  Store.r_vessel_id r = id ->
  addedFor id d (snd (Store.insertFuelTankReading d r)).
Proof.
  intros Hid. unfold Store.insertFuelTankReading.
  destruct (Store.vesselExists _ _); [|reflexivity].
  split; try apply newFor_refl. now apply insertOrIgnore_newFor.
Qed.

Lemma addedFor_generator id d r :
  Store.r_vessel_id r = id ->
  addedFor id d (snd (Store.insertGeneratorReading d r)).
Proof.
  intros Hid. unfold Store.insertGeneratorReading.
  destruct (Store.vesselExists _ _); [|reflexivity].
  split; try apply newFor_refl. now apply insertOrIgnore_newFor.
Qed.

Lemma addedFor_cctv id d r :
  Store.r_vessel_id r = id -> addedFor id d (snd (Store.insertCCTVReading d r)).
Proof.
  intros Hid. unfold Store.insertCCTVReading.
  destruct (Store.vesselExists _ _); [|reflexivity].
  split; try apply newFor_refl. now apply insertOrIgnore_newFor.
Qed.

Lemma addedFor_impact id d r :
  Store.r_vessel_id r = id ->
  addedFor id d (snd (Store.insertImpactReading d r)).
Proof.
  intros Hid. unfold Store.insertImpactReading.
  destruct (Store.vesselExists _ _); [|reflexivity].
  split; try apply newFor_refl. now apply insertOrIgnore_newFor.
Qed.

Lemma addedFor_location id d r :
  Store.r_vessel_id r = id ->
  addedFor id d (snd (Store.insertLocationReading d r)).
Proof.
  intros Hid. unfold Store.insertLocationReading.
  destruct (Store.vesselExists _ _); [|reflexivity].
  split; try apply newFor_refl. now apply insertOrIgnore_newFor.
Qed.

Lemma addedFor_insertVessel id d imo name flag type :
  addedFor id d (snd (Store.insertVessel d imo name flag type)).
Proof.
  unfold Store.insertVessel.
  destruct imo as [i|]; [destruct (Store.selectVesselByIMO d i)|];
    split; apply newFor_refl.
Qed.

Lemma addedFor_updateVessel id d v name flag type :
  addedFor id d (snd (Store.updateVessel d v name flag type)).
Proof. split; apply newFor_refl. Qed.

End AppendOnly.

(** ** How an ingestion ends *)

Section Outcome.

Context `{Platform}.
Import Mapper Ingest.

(** [wp m Q w]: run from [w], the computation [m] ends with a result and a
    world that satisfy [Q]. *)
Definition wp {A} (m : M A) (Q : A -> World -> Prop) (w : World) : Prop :=
  Q (fst (m w)) (snd (m w)).

Lemma wp_ret {A} (a : A) (Q : A -> World -> Prop) (w : World) :
  Q a w -> wp (ret a) Q w.
Proof. exact id. Qed.

Lemma wp_bind {A B} (m : M A) (k : A -> M B) (Q : B -> World -> Prop)
    (w : World) :
  wp m (fun a w' => wp (k a) Q w') w -> wp (bind m k) Q w.
Proof. unfold wp, bind. destruct (m w) as [a w1]. exact id. Qed.

Lemma wp_consequence {A} (m : M A) (Q Q' : A -> World -> Prop) (w : World) :
  wp m Q w -> (forall a w', Q a w' -> Q' a w') -> wp m Q' w.
Proof. unfold wp. auto. Qed.

Lemma wp_query {A} (q : Store.State -> A) (Q : A -> World -> Prop) (w : World) :
  Q (q (db w)) w -> wp (query q) Q w.
Proof. exact id. Qed.

Lemma wp_exec {A} (stmt : Store.State -> A * Store.State)
    (Q : A -> World -> Prop) (w : World) :
  Q (fst (stmt (db w))) {| db := snd (stmt (db w)); ranges := ranges w |} ->
  wp (exec stmt) Q w.
Proof. unfold wp, exec. destruct (stmt (db w)) as [a d]. exact id. Qed.

Lemma wp_findHeader (mapper : HeaderMapper) (patterns : list string)
    (Q : string * bool -> World -> Prop) (w : World) :
  (forall col found n, Q (col, found) {| db := db w; ranges := n |}) ->
  wp (findHeader mapper patterns) Q w.
Proof.
  intros HQ. unfold wp, findHeader.
  destruct (FindHeader _ _ _) as [[col found] n]. apply HQ.
Qed.

Lemma wp_respects (R : relation Store.State) {A} (m : M A) (w : World) :
  respects R m -> wp m (fun _ w' => R (db w) (db w')) w.
Proof. intros Hm. apply Hm. Qed.

Lemma wp_conj {A} (m : M A) (Q Q' : A -> World -> Prop) (w : World) :
  wp m Q w -> wp m Q' w -> wp m (fun a w' => Q a w' /\ Q' a w') w.
Proof. unfold wp. auto. Qed.

(** One step through a computation. *)
Ltac wp_step :=
  cbv beta;
  match goal with
  | |- wp (bind _ _) _ _ => apply wp_bind
  | |- wp (ret _) _ _ => apply wp_ret
  | |- wp (query _) _ _ => apply wp_query
  | |- wp (exec _) _ _ => apply wp_exec
  | |- wp (findHeader _ _) _ _ => apply wp_findHeader; intros ? ? ?
  end.

Lemma vesselExists_grows (d d' : Store.State) (id : Z) :
  grows d d' ->
  Store.vesselExists d id = true -> Store.vesselExists d' id = true.
Proof.
  intros [[k Hk] _ _ _ _ _ _ _]. unfold Store.vesselExists.
  rewrite !existsb_exists. intros (v & Hin & Hv).
  assert (Hid : In (vesselIdentity v) (map vesselIdentity (Store.vessels d') ))
    by (rewrite Hk; apply in_or_app; left; now apply in_map).
  apply in_map_iff in Hid as (v' & Hv' & Hin').
  exists v'. split; [exact Hin'|]. unfold vesselIdentity in Hv'. congruence.
Qed.

(** What [INSERT INTO vessels] does. *)
Lemma insertVessel_outcome (d : Store.State) (imo : option string)
    (name : string) (flag type : option string) :
  match Store.insertVessel d imo name flag type with
  | (id, None, d') => Store.vesselExists d' id = true
  | (id, Some e, d') =>
      d' = d /\ id = 0 /\
      e = SqlError "UNIQUE constraint failed: vessels.imo" /\
      exists i, imo = Some i /\ is_Some (Store.selectVesselByIMO d i)
  end.
Proof.
  assert (Hnew : forall vs v, existsb (fun x => Store.v_id x =? Store.v_id v)
                                      (vs ++ [v]) = true).
  { intros vs v. rewrite existsb_app. cbn. rewrite Z.eqb_refl.
    now rewrite orb_true_r. }
  unfold Store.insertVessel.
  destruct imo as [i|]; [destruct (Store.selectVesselByIMO d i) eqn:E|];
    cbn; try exact (Hnew _ (Store.Build_Vessel _ _ _ _ _)).
  repeat split. eauto.
Qed.

(** How a call of [processShipInfo] can end, on a vessels table whose ids
    are not 0. *)
Definition shipInfoOutcome (providedIMO vesselName : string) (w : World)
    (r : ShipInfoResult) (w' : World) : Prop :=
  match r with
  | ShipInfoPanic => db w' = db w /\ providedIMO = "" /\ vesselName = ""
  | ShipInfoReturn id count warnings (Some e) =>
      db w' = db w /\ id = 0 /\ count = 0 /\ warnings = []
  | ShipInfoReturn id count warnings None =>
      Store.vesselExists (db w') id = true /\ addedFor id (db w) (db w')
  end.

Lemma vesselFromIdentifiers_outcome (providedIMO vesselName : string)
    (w0 w : World) :
  db w = db w0 ->
  wp (vesselFromIdentifiers providedIMO vesselName)
     (shipInfoOutcome providedIMO vesselName w0) w.
Proof.
  intros Hdb. unfold vesselFromIdentifiers.
  destruct (nonEmpty providedIMO) eqn:Himo.
  - wp_step. wp_step.
    pose proof (insertVessel_outcome (db w) (Some providedIMO)
                  (if String.eqb vesselName "" then "Vessel-" +:+ providedIMO
                   else vesselName) None None) as Hi.
    pose proof (fun id => addedFor_insertVessel id (db w) (Some providedIMO)
                  (if String.eqb vesselName "" then "Vessel-" +:+ providedIMO
                   else vesselName) None None) as Ha.
    destruct (Store.insertVessel _ _ _ _ _) as [[id [e|]] d']; cbn [fst snd] in *.
    + wp_step. cbn. destruct Hi as (-> & -> & _). auto.
    + wp_step. cbn. rewrite <- Hdb. auto.
  - destruct (String.eqb_spec vesselName "") as [->|Hname].
    + wp_step. cbn. auto.
    + wp_step. wp_step.
      pose proof (insertVessel_outcome (db w) None vesselName None None) as Hi.
      pose proof (fun id => addedFor_insertVessel id (db w) None vesselName
                    None None) as Ha.
      destruct (Store.insertVessel _ _ _ _ _) as [[id [e|]] d'];
        cbn [fst snd] in *.
      * destruct Hi as (_ & _ & _ & i & Hi & _). discriminate.
      * wp_step. cbn. rewrite <- Hdb. auto.
Qed.

Lemma processShipInfo_outcome (f : Workbook) (providedIMO vesselName : string)
    (uploadedAt : GoTime.Time) (w : World) :
  Forall (fun v => Store.v_id v <> 0) (Store.vessels (db w)) ->
  wp (processShipInfo f providedIMO vesselName uploadedAt)
     (shipInfoOutcome providedIMO vesselName w) w.
Proof.
  intros Hids. unfold processShipInfo. cbv zeta.
  destruct (String.eqb _ "");
    [now apply vesselFromIdentifiers_outcome|].
  destruct (GetRows f _) as [[|hs [|data rest]]|];
    try now apply vesselFromIdentifiers_outcome.
  apply wp_bind.
  apply (wp_consequence _
           (fun imo w1 => db w1 = db w /\ (imo = None -> providedIMO = ""))).
  { destruct (nonEmpty providedIMO) eqn:Himo.
    - wp_step. split; [reflexivity | discriminate].
    - wp_step. wp_step. cbv beta iota. wp_step. split; [reflexivity|].
      intros _. unfold nonEmpty in Himo.
      now destruct (String.eqb_spec providedIMO ""). }
  intros imo w1 [Hdb Himo].
  wp_step. wp_step. cbv beta iota zeta.
  wp_step. wp_step. cbv beta iota zeta.
  wp_step. wp_step. cbv beta iota zeta.
  cbn [db].
  set (flag := if found0 then _ else None).
  set (type := if found1 then _ else None).
  set (name := match (if found then headerCell hs data col else None) with
               | Some _ => _
               | None => _
               end).
  assert (Hname : name = None -> vesselName = "" /\ imo = None).
  { subst name. destruct (if found then _ else None); [discriminate|].
    unfold nonEmpty. destruct (String.eqb_spec vesselName ""); [|discriminate].
    destruct imo; [discriminate | auto]. }
  clearbody name flag type.
  set (Q := shipInfoOutcome providedIMO vesselName w).
  assert (Hlocate : forall id w2,
             Store.vesselExists (db w2) id = true ->
             addedFor id (db w) (db w2) ->
             wp (bind (processLocationFromShipInfo hs data id uploadedAt
                         (NewHeaderMapper hs))
                      (fun '(locationCount, locationWarnings) =>
                         ret (ShipInfoReturn id locationCount
                                locationWarnings None))) Q w2).
  { intros id w2 Hex Hadd. apply wp_bind.
    eapply wp_consequence.
    - apply wp_conj.
      + apply (wp_respects grows), (respects_processLocation grows id);
          auto using grows_location_insert.
      + apply (wp_respects (addedFor id)),
          (respects_processLocation (addedFor id) id);
          auto using addedFor_location.
    - intros [lc lw] w3 [Hg Ha]. apply wp_ret. cbn. split.
      + eapply vesselExists_grows; eauto.
      + etransitivity; eassumption. }
  assert (Hcreate : forall w2,
             db w2 = db w ->
             wp match name with
                | Some nm =>
                    bind (exec (fun d => Store.insertVessel d imo nm flag type))
                         (fun x : Z * option error =>
                            match x with
                            | (id, Some e) =>
                                ret (ShipInfoReturn 0 0 [] (Some e))
                            | (id, None) =>
                                bind (processLocationFromShipInfo hs data id
                                        uploadedAt (NewHeaderMapper hs))
                                     (fun '(locationCount, locationWarnings) =>
                                        ret (ShipInfoReturn id locationCount
                                               locationWarnings None))
                            end)
                | None => ret ShipInfoPanic
                end Q w2).
  { intros w2 Hw2. destruct name as [nm|].
    - wp_step. wp_step.
      pose proof (insertVessel_outcome (db w2) imo nm flag type) as Hi.
      pose proof (fun id => addedFor_insertVessel id (db w2) imo nm flag type)
        as Ha.
      destruct (Store.insertVessel _ _ _ _ _) as [[id [e|]] d'];
        cbn [fst snd] in *.
      + wp_step. cbn. destruct Hi as (-> & _). auto.
      + apply Hlocate; [exact Hi|]. cbn [db]. rewrite <- Hw2. apply Ha.
    - wp_step. cbn. destruct (Hname eq_refl) as [-> Hi]. auto. }
  wp_step. destruct imo as [i|].
  - wp_step. cbv beta. cbn [db].
    destruct (Store.selectVesselByIMO (db w1) i) as [existingID|] eqn:Hsel.
    + destruct name as [nm|];
        [|exfalso; destruct (Hname eq_refl); discriminate].
      wp_step. wp_step. cbn [fst snd Store.updateVessel].
      apply selectVesselByIMO_Some in Hsel as (v & Hin & Hid & _).
      assert (Hnz : existingID <> 0).
      { rewrite Hdb in Hin. rewrite List.Forall_forall in Hids.
        rewrite <- Hid. now apply Hids. }
      destruct (Z.eqb_spec existingID 0); [contradiction|].
      apply Hlocate; cbn [db].
      * apply (vesselExists_grows (db w1));
          [apply (grows_updateVessel (db w1) existingID nm flag type)|].
        unfold Store.vesselExists. apply existsb_exists. exists v.
        split; [exact Hin | lia].
      * rewrite <- Hdb.
        apply (addedFor_updateVessel existingID (db w1) existingID nm flag type).
    + now apply Hcreate.
  - wp_step. now apply Hcreate.
Qed.

(** *** The streams of the response *)

Definition sheetStreams : list string :=
  ["engines"; "fuel"; "generators"; "cctv"; "impact"].

Lemma processSheet_keys (f : Workbook) (vesselID : Z) (uploadedAt : GoTime.Time)
    (sheetName : string) (acc : gmap string Z * list string) (w : World)
    (k : string) :
  is_Some (fst (fst (processSheet f vesselID uploadedAt sheetName acc w)) !! k) ->
  is_Some (fst acc !! k) \/ k ∈ sheetStreams.
Proof.
  unfold processSheet, sheetStreams. destruct acc as [rowsInserted warnings].
  repeat (destruct (GoStrings.Contains _ _); cbn [orb]);
    unfold bind, ret;
    repeat match goal with
           | |- context [?p f sheetName vesselID uploadedAt w] =>
               destruct (p f sheetName vesselID uploadedAt w) as [[count warns] w1]
           end;
    cbn [fst]; auto;
    rewrite lookup_insert_is_Some;
    (intros [<-|[_ Hk]]; [right; set_solver | auto]).
Qed.

Lemma processSheets_keys (f : Workbook) (vesselID : Z) (uploadedAt : GoTime.Time)
    (sheets : list string) (k : string) :
  forall (acc : gmap string Z * list string) (w : World),
    is_Some (fst (fst (processSheets f vesselID uploadedAt sheets acc w)) !! k) ->
    is_Some (fst acc !! k) \/ k ∈ sheetStreams.
Proof.
  induction sheets as [|sheetName rest IH]; intros acc w; cbn [processSheets].
  - auto.
  - unfold bind.
    pose proof (processSheet_keys f vesselID uploadedAt sheetName acc w k) as Hs.
    destruct (processSheet _ _ _ _ _ _) as [acc' w1]. cbn [fst] in Hs.
    intros Hk. apply IH in Hk as [Hk|Hk]; auto.
Qed.

(** *** The latest timestamps *)

(** The tables other than [vessel_stream_latest] are the same. *)
Definition sameTables (d d' : Store.State) : Prop :=
  d' = Store.set_vessel_stream_latest d (Store.vessel_stream_latest d').

Local Instance sameTables_preorder : PreOrder sameTables.
Proof.
  split.
  - intros [] . reflexivity.
  - intros d1 d2 d3 H12 H23. unfold sameTables in *.
    rewrite H23 at 1. rewrite H12 at 1. reflexivity.
Qed.

Lemma updateStreamLatest_latest (vesselID : Z) (ts : GoTime.Time)
    (l : list (string * Z)) :
  forall w : World,
    Store.vesselExists (db w) vesselID = true ->
    let w' := snd (fold_right
                     (fun sc (k : M unit) =>
                        if 0 <? snd sc then
                          bind (exec (fun d => Store.replaceStreamLatest d
                                                 vesselID (fst sc) ts))
                               (fun _ => k)
                        else k)
                     (ret tt) l w) in
    sameTables (db w) (db w') /\
    forall stream,
      Store.vessel_stream_latest (db w) !! (vesselID, stream) = Some ts \/
      (exists count, In (stream, count) l /\ 0 < count) ->
      Store.vessel_stream_latest (db w') !! (vesselID, stream) = Some ts.
Proof.
  induction l as [|[s c] l IH]; intros w Hex; cbn [fold_right fst snd].
  - split; [reflexivity|]. intros stream [Hs|(count & [] & _)]. exact Hs.
  - destruct (Z.ltb_spec 0 c) as [Hc|Hc].
    + unfold bind, exec, Store.replaceStreamLatest. rewrite Hex.
      set (w1 := {| db := _; ranges := _ |}).
      specialize (IH w1 Hex). cbv zeta in IH. destruct IH as [Hsame Hl].
      split.
      * etransitivity; [|exact Hsame]. reflexivity.
      * intros stream Hs. apply Hl.
        destruct (decide (stream = s)) as [->|Hne].
        -- left. cbn. apply lookup_insert_eq.
        -- destruct Hs as [Hs|(count & [[= -> ->]|Hin] & Hpos)];
             [left|contradiction|eauto].
           cbn. rewrite lookup_insert_ne by congruence. exact Hs.
    + specialize (IH w Hex). cbv zeta in IH. destruct IH as [Hsame Hl].
      split; [exact Hsame|].
      intros stream [Hs|(count & [[= -> ->]|Hin] & Hpos)]; [auto | lia | eauto].
Qed.

(** *** [ProcessFile] *)

(** The ways [ProcessFile] ends, on a vessels table whose ids are not 0:
    a panic or an error, with the database as it was; the answer
    "already_ingested", with the database as it was; or the answer
    "ingested". *)
Definition processOutcome (fileData imo vesselName : string)
    (uploadedAt : GoTime.Time) (w : World) (r : ProcessResult) (w' : World)
  : Prop :=
  match r with
  | ProcessPanic => db w' = db w /\ imo = "" /\ vesselName = ""
  | ProcessReturn None (Some e) => db w' = db w
  | ProcessReturn (Some resp) None =>
      (Status resp = "already_ingested" /\ db w' = db w /\
       is_Some (UploadID resp) /\
       UploadID resp =
         Store.selectUploadByHash (db w) (Util.SHA256Hex fileData))
      \/
      (Status resp = "ingested" /\ UploadID resp = Some 1 /\
       Store.selectUploadByHash (db w) (Util.SHA256Hex fileData) = None /\
       exists id,
         VesselID resp = Some id /\
         Store.vesselExists (db w') id = true /\
         addedFor id (db w) (db w') /\
         (forall k, is_Some (RowsInserted resp !! k) ->
                    k ∈ "location" :: sheetStreams) /\
         (forall k c, RowsInserted resp !! k = Some c -> 0 < c ->
                      Store.vessel_stream_latest (db w') !! (id, k) =
                      Some uploadedAt))
  | _ => False
  end.

Lemma ProcessFile_outcome (fileData filename imo vesselName : string)
    (periodStart : option GoTime.Time) (now : GoTime.Time) (w : World) :
  Forall (fun v => Store.v_id v <> 0) (Store.vessels (db w)) ->
  wp (ProcessFile fileData filename imo vesselName periodStart now)
     (processOutcome fileData imo vesselName (default now periodStart) w) w.
Proof.
  intros Hids. unfold ProcessFile. cbv zeta. wp_step. wp_step. cbv beta.
  destruct (Store.selectUploadByHash _ _) as [uploadID|] eqn:Hsel.
  { wp_step. left. cbn. rewrite Hsel. eauto. }
  destruct (excelize_OpenReader fileData) as [f|]; [|wp_step; reflexivity].
  wp_step.
  eapply wp_consequence; [apply processShipInfo_outcome; exact Hids|].
  intros r w1 Hout. cbv beta.
  destruct r as [|vesselID lc lw [e|]]; cbn in Hout.
  - wp_step. exact Hout.
  - wp_step. cbn. tauto.
  - unfold wp, bind.
    set (acc := (if 0 <? lc then <["location":=lc]> ∅ else ∅, lw)).
    pose proof (processSheets_keys f vesselID (default now periodStart)
                  (GetSheetList f) ) as Hkeys.
    specialize (fun k => Hkeys k acc w1).
    assert (Hgrow : grows (db w1)
              (db (snd (processSheets f vesselID (default now periodStart)
                          (GetSheetList f) acc w1)))).
    { apply (respects_processSheets grows vesselID);
        auto using grows_engine_insert, grows_fuel_insert,
          grows_generator_insert, grows_cctv_insert, grows_impact_insert. }
    assert (Hadd : addedFor vesselID (db w1)
              (db (snd (processSheets f vesselID (default now periodStart)
                          (GetSheetList f) acc w1)))).
    { apply (respects_processSheets (addedFor vesselID) vesselID);
        auto using addedFor_engine, addedFor_fuel, addedFor_generator,
          addedFor_cctv, addedFor_impact. }
    destruct (processSheets _ _ _ _ _ _) as [[rowsInserted warnings] w2].
    cbn [fst snd] in Hkeys, Hgrow, Hadd. destruct Hout as [Hout Hadd0].
    apply (vesselExists_grows _ _ vesselID Hgrow) in Hout.
    unfold updateStreamLatest.
    destruct (updateStreamLatest_latest vesselID (default now periodStart)
                (map_to_list rowsInserted) w2 Hout) as [Hsame Hlatest].
    match type of Hsame with
    | context [fold_right ?g ?b ?l w2] =>
        destruct (fold_right g b l w2) as [[] w3]
    end.
    cbn [fst snd] in *.
    right. cbn. do 3 (split; [first [reflexivity | exact Hsel]|]).
    exists vesselID. split; [reflexivity|]. split; [|split; [|split]].
    + rewrite Hsame. exact Hout.
    + rewrite Hsame.
      transitivity (db w1); [exact Hadd0|].
      destruct Hadd. split; assumption.
    + intros k Hk. apply Hkeys in Hk as [Hk|Hk]; [|now right].
      subst acc. cbn [fst] in Hk.
      destruct (0 <? lc).
      * apply lookup_insert_is_Some in Hk as [<-|[_ Hk]]; [left|].
        now rewrite lookup_empty in Hk; destruct Hk.
      * now rewrite lookup_empty in Hk; destruct Hk.
    + intros k c Hk Hc. apply Hlatest. right. exists c. split; [|exact Hc].
      now apply list_elem_of_In, elem_of_map_to_list.
Qed.

End Outcome.

(** ** Properties of [ProcessFile] *)

Section ProcessFileProperties.

Context `{Platform}.
Import Mapper Ingest.

(** X5. A call of [ProcessFile] that does not answer writes nothing: when
    it returns an error (the workbook cannot be opened, no vessel can be
    made from the request and the ship-info sheet, or the IMO number is
    taken) or panics, the database is as it was before the call. The ids
    of the vessels table are those SQLite gives: never 0. *)
Theorem failed_ingestion_writes_nothing
    (fileData filename imo vesselName : string)
    (periodStart : option GoTime.Time) (now : GoTime.Time) (w : World) :
  Forall (fun v => Store.v_id v <> 0) (Store.vessels (db w)) ->
  let out := ProcessFile fileData filename imo vesselName periodStart now w in
  match fst out with
  | ProcessReturn (Some _) None => True
  | _ => db (snd out) = db w
  end.
Proof.
  intros Hids out. subst out.
  pose proof (ProcessFile_outcome fileData filename imo vesselName periodStart
                now w Hids) as Ho.
  unfold wp in Ho.
  destruct (ProcessFile _ _ _ _ _ _ _) as [r w']. cbn [fst snd] in *.
  destruct r as [|[resp|] [e|]]; cbn in Ho; tauto.
Qed.

(** X6. With an IMO number or a vessel name in the request, as the handler
    requires, [ProcessFile] does not panic: the vessel name that
    [processShipInfo] dereferences is then never nil. Whatever the request,
    the result is a response or an error, never both and never neither. *)
Theorem ingestion_with_identifier_returns
    (fileData filename imo vesselName : string)
    (periodStart : option GoTime.Time) (now : GoTime.Time) (w : World) :
  Forall (fun v => Store.v_id v <> 0) (Store.vessels (db w)) ->
  imo <> "" \/ vesselName <> "" ->
  match fst (ProcessFile fileData filename imo vesselName periodStart now w) with
  | ProcessReturn (Some _) None | ProcessReturn None (Some _) => True
  | _ => False
  end.
Proof.
  intros Hids Hident.
  pose proof (ProcessFile_outcome fileData filename imo vesselName periodStart
                now w Hids) as Ho.
  unfold wp in Ho.
  destruct (ProcessFile _ _ _ _ _ _ _) as [r w']. cbn [fst snd] in *.
  destruct r as [|[resp|] [e|]]; cbn in Ho; tauto.
Qed.

(** X7. The answer "ingested" always carries the upload id 1 (no upload
    row stands behind it: the hash of the file is not in the uploads table
    before the call, and the table is not written) and the id of a vessel
    that the database holds after the call; the keys of its [RowsInserted]
    map are among "location", "engines", "fuel", "generators", "cctv" and
    "impact". The only other answer is "already_ingested", with the id of
    the upload row that has the hash of the file. *)
Theorem ingested_response
    (fileData filename imo vesselName : string)
    (periodStart : option GoTime.Time) (now : GoTime.Time) (w : World)
    (resp : IngestResponse) :
  Forall (fun v => Store.v_id v <> 0) (Store.vessels (db w)) ->
  let out := ProcessFile fileData filename imo vesselName periodStart now w in
  fst out = ProcessReturn (Some resp) None ->
  (Status resp = "already_ingested" /\
   UploadID resp = Store.selectUploadByHash (db w) (Util.SHA256Hex fileData) /\
   is_Some (UploadID resp))
  \/
  (Status resp = "ingested" /\ UploadID resp = Some 1 /\
   Store.selectUploadByHash (db w) (Util.SHA256Hex fileData) = None /\
   Store.uploads (db (snd out)) = Store.uploads (db w) /\
   (exists id, VesselID resp = Some id /\
               Store.vesselExists (db (snd out)) id = true) /\
   forall k, is_Some (RowsInserted resp !! k) ->
             k ∈ ["location"; "engines"; "fuel"; "generators"; "cctv"; "impact"]).
Proof.
  intros Hids out Hout. subst out.
  pose proof (ProcessFile_outcome fileData filename imo vesselName periodStart
                now w Hids) as Ho.
  pose proof (ProcessFile_keeps_uploads fileData filename imo vesselName
                periodStart now w) as Hu.
  unfold wp in Ho.
  destruct (ProcessFile _ _ _ _ _ _ _) as [r w']. cbn [fst snd] in *.
  subst r. cbn in Ho.
  destruct Ho as [(Hs & _ & Hsome & Hid)
                 |(Hs & Hid & Hsel & id & Hv & Hex & _ & Hk & _)].
  - left. auto.
  - right. repeat split; eauto.
Qed.

(** X8. After the answer "ingested", the latest timestamp of every stream
    that reports a positive count is the time of the upload (the period
    start of the request, or else the current time), whatever the
    timestamps of the rows are, and whatever was stored as latest before,
    a later time included. *)
Theorem latest_is_upload_time
    (fileData filename imo vesselName : string)
    (periodStart : option GoTime.Time) (now : GoTime.Time) (w : World)
    (resp : IngestResponse) (id : Z) (stream : string) (count : Z) :
  Forall (fun v => Store.v_id v <> 0) (Store.vessels (db w)) ->
  let out := ProcessFile fileData filename imo vesselName periodStart now w in
  fst out = ProcessReturn (Some resp) None ->
  Status resp = "ingested" ->
  VesselID resp = Some id ->
  RowsInserted resp !! stream = Some count -> 0 < count ->
  Store.vessel_stream_latest (db (snd out)) !! (id, stream) =
  Some (default now periodStart).
Proof.
  intros Hids out Hout Hstatus Hid Hcount Hpos. subst out.
  pose proof (ProcessFile_outcome fileData filename imo vesselName periodStart
                now w Hids) as Ho.
  unfold wp in Ho.
  destruct (ProcessFile _ _ _ _ _ _ _) as [r w']. cbn [fst snd] in *.
  subst r. cbn in Ho.
  destruct Ho as [(Hs & _)|(_ & _ & _ & id' & Hv & _ & _ & _ & Hl)].
  - rewrite Hstatus in Hs. discriminate.
  - rewrite Hid in Hv. injection Hv as <-. eauto.
Qed.

(** X9. Every reading that [ProcessFile] adds belongs to the vessel of
    its answer: a row that is in a reading table after the call is either a
    row that was there before, or a row with the vessel id of the
    response. This holds for the five telemetry tables and for the
    location table. *)
Theorem added_readings_belong_to_the_vessel
    (fileData filename imo vesselName : string)
    (periodStart : option GoTime.Time) (now : GoTime.Time) (w : World)
    (resp : IngestResponse) (id : Z) :
  Forall (fun v => Store.v_id v <> 0) (Store.vessels (db w)) ->
  let out := ProcessFile fileData filename imo vesselName periodStart now w in
  fst out = ProcessReturn (Some resp) None ->
  VesselID resp = Some id ->
  addedFor id (db w) (db (snd out)).
Proof.
  intros Hids out Hout Hid. subst out.
  pose proof (ProcessFile_outcome fileData filename imo vesselName periodStart
                now w Hids) as Ho.
  unfold wp in Ho.
  destruct (ProcessFile _ _ _ _ _ _ _) as [r w']. cbn [fst snd] in *.
  subst r. cbn in Ho.
  destruct Ho as [(_ & -> & _)|(_ & _ & _ & id' & Hv & _ & Ha & _)].
  - reflexivity.
  - rewrite Hid in Hv. now injection Hv as <-.
Qed.

End ProcessFileProperties.

(** ** Vessels made from the request alone *)

Section RequestVessels.

Context `{Platform}.
Import Mapper Ingest.

(** The header row and the data row of the ship-info sheet, when the
    workbook has such a sheet and it can be read and has two rows: the
    condition under which [processShipInfo] reads the sheet. *)
Definition shipInfoRows (f : Workbook) : option (list string * list string) :=
  match find isShipInfoSheet (GetSheetList f) with
  | Some sheet =>
      match GetRows f sheet with
      | Some (hs :: data :: _) => Some (hs, data)
      | _ => None
      end
  | None => None
  end.

Lemma processShipInfo_without_rows (f : Workbook)
    (providedIMO vesselName : string) (uploadedAt : GoTime.Time) :
  shipInfoRows f = None ->
  processShipInfo f providedIMO vesselName uploadedAt =
  vesselFromIdentifiers providedIMO vesselName.
Proof.
  unfold shipInfoRows, processShipInfo. cbv zeta.
  destruct (find isShipInfoSheet (GetSheetList f)) as [sheet|] eqn:E;
    [|reflexivity].
  change (default "" (Some sheet)) with sheet. apply find_some in E as [_ E].
  rewrite (shipInfoSheet_nonempty _ E).
  destruct (GetRows f sheet) as [[|hs [|data rest]]|]; try reflexivity.
  discriminate.
Qed.

(** X10. Without a ship-info sheet to read (none in the workbook, or one
    that cannot be read or has fewer than two rows), [processShipInfo]
    inserts a vessel and never looks one up. With an IMO number that a
    stored vessel already has, the insert fails on the UNIQUE constraint:
    [ProcessFile] returns that error and leaves the database as it was. A
    second file for a known vessel is thus refused unless it has a
    ship-info sheet. *)
Theorem known_imo_without_ship_info_is_refused
    (fileData filename imo vesselName : string)
    (periodStart : option GoTime.Time) (now : GoTime.Time) (w : World)
    (f : Workbook) :
  Store.selectUploadByHash (db w) (Util.SHA256Hex fileData) = None ->
  excelize_OpenReader fileData = Some f ->
  shipInfoRows f = None ->
  imo <> "" ->
  is_Some (Store.selectVesselByIMO (db w) imo) ->
  ProcessFile fileData filename imo vesselName periodStart now w =
  (ProcessReturn None
     (Some (Errorf ("error processing ship info: " +:+
                    "UNIQUE constraint failed: vessels.imo"))), w).
Proof.
  intros Hhash Hopen Hrows Himo [id Hknown].
  unfold ProcessFile. cbv zeta. unfold bind at 1, query. cbn [db fst snd].
  rewrite Hhash, Hopen. unfold bind at 1.
  rewrite (processShipInfo_without_rows _ _ _ _ Hrows).
  unfold vesselFromIdentifiers, nonEmpty.
  destruct (String.eqb_spec imo ""); [contradiction|]. cbn [negb].
  unfold bind, exec, Store.insertVessel. rewrite Hknown.
  destruct w. reflexivity.
Qed.

Lemma max_id_snoc (ids : list Z) (x : Z) :
  fold_right Z.max 0 (ids ++ [x]) = Z.max (fold_right Z.max 0 ids) (Z.max x 0).
Proof.
  induction ids as [|a ids IH]; cbn [fold_right app]; [lia|].
  rewrite IH. lia.
Qed.

Lemma max_id_nonneg (ids : list Z) : 0 <= fold_right Z.max 0 ids.
Proof. induction ids as [|a ids IH]; cbn [fold_right]; lia. Qed.

(** X11. A vessel that is known by its name only (no IMO number in the
    request, no ship-info sheet to read) is inserted anew by every call of
    [processShipInfo]: two calls with the same name return two vessels,
    with consecutive ids, and the table has two more rows, both with that
    name and without IMO number. *)
Theorem vessel_by_name_is_inserted_each_time
    (f : Workbook) (vesselName : string) (t1 t2 : GoTime.Time) (w : World) :
  shipInfoRows f = None ->
  vesselName <> "" ->
  let first := processShipInfo f "" vesselName t1 w in
  let second := processShipInfo f "" vesselName t2 (snd first) in
  let id := Store.nextVesselID (db w) in
  let row i := {| Store.v_id := i; Store.v_imo := None;
                  Store.v_name := vesselName; Store.v_flag := None;
                  Store.v_type := None |} in
  fst first = ShipInfoReturn id 0 [] None /\
  fst second = ShipInfoReturn (id + 1) 0 [] None /\
  Store.vessels (db (snd second)) =
    Store.vessels (db w) ++ [row id; row (id + 1)].
Proof.
  intros Hrows Hname first second id row. subst first second.
  rewrite !(processShipInfo_without_rows _ _ _ _ Hrows).
  unfold vesselFromIdentifiers. cbn [nonEmpty String.eqb negb].
  destruct (String.eqb_spec vesselName ""); [contradiction|].
  unfold bind, exec, Store.insertVessel, ret. cbn [fst snd db].
  assert (Hnext : Store.nextVesselID
                    (Store.set_vessels (db w) (Store.vessels (db w) ++ [row id]))
                  = id + 1).
  { unfold Store.nextVesselID. cbn [Store.vessels Store.set_vessels].
    rewrite map_app. cbn [map]. rewrite max_id_snoc. cbn [Store.v_id row].
    subst id. unfold Store.nextVesselID.
    pose proof (max_id_nonneg (map Store.v_id (Store.vessels (db w)))). lia. }
  fold id. fold (row id). rewrite Hnext. fold (row (id + 1)).
  repeat split. cbn [Store.vessels Store.set_vessels].
  now rewrite <- app_assoc.
Qed.

End RequestVessels.

(** ** The rows of a sheet *)

Section Rows.

Context `{Platform}.
Import Mapper Ingest.

Ltac wp_step :=
  cbv beta;
  match goal with
  | |- wp (bind _ _) _ _ => apply wp_bind
  | |- wp (ret _) _ _ => apply wp_ret
  | |- wp (query _) _ _ => apply wp_query
  | |- wp (exec _) _ _ => apply wp_exec
  | |- wp (findHeader _ _) _ _ => apply wp_findHeader; intros ? ? ?
  end.

(** The loop over the rows keeps an invariant of its body. *)
Lemma wp_forRows {S} (body : Z -> list string -> S -> M S)
    (I : Z -> S -> World -> Prop) (rows : list (list string)) :
  (forall i cells s w, I i s w -> wp (body i cells s) (I (i + 1)) w) ->
  forall i s w,
    I i s w ->
    wp (forRows body i rows s) (I (i + Z.of_nat (length rows))) w.
Proof.
  intros Hbody. induction rows as [|cells rows IH]; intros i s w HI.
  - cbn [forRows length]. apply wp_ret. now rewrite Z.add_0_r.
  - cbn [forRows length]. apply wp_bind.
    eapply wp_consequence; [apply Hbody, HI|].
    intros s' w' HI'. cbv beta.
    replace (i + Z.of_nat (Datatypes.S (length rows)))
      with (i + 1 + Z.of_nat (length rows)) by lia.
    now apply IH.
Qed.

(** X12. A sheet that cannot be read or has fewer than two rows (no row,
    or the header row alone) is reported by every sheet processor as
    "error reading <name> sheet", with the count 0 and nothing written: a
    sheet with headers and no data is an error, not an empty stream. *)
Theorem sheet_without_data_is_an_error
    (f : Workbook) (sheetName : string) (vesselID : Z)
    (defaultTS : GoTime.Time) (w : World) :
  (forall hs r1 rest, GetRows f sheetName <> Some (hs :: r1 :: rest)) ->
  let answer := ((0, ["error reading " +:+ sheetName +:+ " sheet"]), w) in
  processEngineSheet f sheetName vesselID defaultTS w = answer /\
  processFuelSheet f sheetName vesselID defaultTS w = answer /\
  processGeneratorSheet f sheetName vesselID defaultTS w = answer /\
  processCCTVSheet f sheetName vesselID defaultTS w = answer /\
  processImpactSheet f sheetName vesselID defaultTS w = answer.
Proof.
  intros Hshort answer.
  unfold processEngineSheet, processFuelSheet, processGeneratorSheet,
    processCCTVSheet, processImpactSheet.
  destruct (GetRows f sheetName) as [[|hs [|r1 rest]]|];
    try (repeat split; reflexivity).
  now destruct (Hshort hs r1 rest).
Qed.

(** Every row so far is counted or has a warning, and the vessel is
    there. *)
Definition accounted (vesselID : Z) (i : Z) (acc : Z * list string)
    (w : World) : Prop :=
  Store.vesselExists (db w) vesselID = true /\
  fst acc + Z.of_nat (length (snd acc)) = i - 1.

(** Every row so far is counted, and there is no warning. *)
Definition allCounted (vesselID : Z) (i : Z) (acc : Z * list string)
    (w : World) : Prop :=
  Store.vesselExists (db w) vesselID = true /\
  fst acc = i - 1 /\ snd acc = [].

Lemma engineRow_accounted hs vesselID defaultTS hasTS tsCol engineNoCol rpmCol
    tempCol pressureCol alarmsCol mappedCols i cells acc w :
  accounted vesselID i acc w ->
  wp (engineRow hs vesselID defaultTS hasTS tsCol engineNoCol rpmCol tempCol
                pressureCol alarmsCol mappedCols i cells acc)
     (accounted vesselID (i + 1)) w.
Proof.
  destruct acc as [inserted warnings]. intros [Hex Hn]. cbn [fst snd] in Hn.
  unfold engineRow. destruct (0 <? length _)%nat.
  - wp_step. split; [exact Hex|]. cbn [fst snd]. rewrite length_app. cbn. lia.
  - wp_step. wp_step. unfold Store.insertEngineReading. cbn [Store.r_vessel_id].
    rewrite Hex. cbn [fst snd]. wp_step. split; [exact Hex|]. cbn. lia.
Qed.

Lemma fuelRow_accounted hs vesselID defaultTS hasTS tsCol tankNoCol capCol
    curCol tempCol mappedCols i cells acc w :
  accounted vesselID i acc w ->
  wp (fuelRow hs vesselID defaultTS hasTS tsCol tankNoCol capCol curCol tempCol
              mappedCols i cells acc)
     (accounted vesselID (i + 1)) w.
Proof.
  destruct acc as [inserted warnings]. intros [Hex Hn]. cbn [fst snd] in Hn.
  unfold fuelRow. destruct (0 <? length _)%nat.
  - wp_step. split; [exact Hex|]. cbn [fst snd]. rewrite length_app. cbn. lia.
  - wp_step. wp_step. unfold Store.insertFuelTankReading.
    cbn [Store.r_vessel_id]. rewrite Hex. cbn [fst snd]. wp_step.
    split; [exact Hex|]. cbn. lia.
Qed.

Lemma generatorRow_accounted hs vesselID defaultTS hasTS tsCol genNoCol loadCol
    voltageCol freqCol fuelRateCol mappedCols i cells acc w :
  accounted vesselID i acc w ->
  wp (generatorRow hs vesselID defaultTS hasTS tsCol genNoCol loadCol
                   voltageCol freqCol fuelRateCol mappedCols i cells acc)
     (accounted vesselID (i + 1)) w.
Proof.
  destruct acc as [inserted warnings]. intros [Hex Hn]. cbn [fst snd] in Hn.
  unfold generatorRow. destruct (0 <? length _)%nat.
  - wp_step. split; [exact Hex|]. cbn [fst snd]. rewrite length_app. cbn. lia.
  - wp_step. wp_step. unfold Store.insertGeneratorReading.
    cbn [Store.r_vessel_id]. rewrite Hex. cbn [fst snd]. wp_step.
    split; [exact Hex|]. cbn. lia.
Qed.

Lemma cctvRow_counted hs vesselID defaultTS hasTS tsCol camIDCol statusCol
    uptimeCol mappedCols i cells acc w :
  allCounted vesselID i acc w ->
  wp (cctvRow hs vesselID defaultTS hasTS tsCol camIDCol statusCol uptimeCol
              mappedCols i cells acc)
     (allCounted vesselID (i + 1)) w.
Proof.
  destruct acc as [inserted warnings]. intros (Hex & Hn & Hw).
  cbn [fst snd] in Hn, Hw. unfold cctvRow.
  wp_step. wp_step. unfold Store.insertCCTVReading. cbn [Store.r_vessel_id].
  rewrite Hex. cbn [fst snd]. wp_step. repeat split; auto. cbn. lia.
Qed.

Lemma impactRow_counted hs vesselID defaultTS hasTS tsCol sensorIDCol accelCol
    shockCol notesCol mappedCols i cells acc w :
  allCounted vesselID i acc w ->
  wp (impactRow hs vesselID defaultTS hasTS tsCol sensorIDCol accelCol shockCol
                notesCol mappedCols i cells acc)
     (allCounted vesselID (i + 1)) w.
Proof.
  destruct acc as [inserted warnings]. intros (Hex & Hn & Hw).
  cbn [fst snd] in Hn, Hw. unfold impactRow.
  wp_step. wp_step. unfold Store.insertImpactReading. cbn [Store.r_vessel_id].
  rewrite Hex. cbn [fst snd]. wp_step. repeat split; auto. cbn. lia.
Qed.

(** X13. On a sheet with data rows, for a vessel that exists, every data
    row is accounted for: an engine, fuel or generator row is either
    counted as inserted or answered with one warning, so the count and
    the number of warnings add up to the number of data rows; a CCTV or
    impact row is always counted, and these sheets give no warning. *)
Theorem sheet_rows_are_accounted_for
    (f : Workbook) (sheetName : string) (vesselID : Z)
    (defaultTS : GoTime.Time) (w : World)
    (hs r1 : list string) (rest : list (list string)) :
  GetRows f sheetName = Some (hs :: r1 :: rest) ->
  Store.vesselExists (db w) vesselID = true ->
  let n := Z.of_nat (length (r1 :: rest)) in
  let sums (out : Z * list string) :=
    fst out + Z.of_nat (length (snd out)) = n in
  sums (fst (processEngineSheet f sheetName vesselID defaultTS w)) /\
  sums (fst (processFuelSheet f sheetName vesselID defaultTS w)) /\
  sums (fst (processGeneratorSheet f sheetName vesselID defaultTS w)) /\
  fst (processCCTVSheet f sheetName vesselID defaultTS w) = (n, []) /\
  fst (processImpactSheet f sheetName vesselID defaultTS w) = (n, []).
Proof.
  intros Hrows Hex n sums.
  assert (Hstart : forall w', db w' = db w -> accounted vesselID 1 (0, []) w')
    by (intros w' Hw'; split; [rewrite Hw'; exact Hex | reflexivity]).
  assert (Hstart' : forall w', db w' = db w -> allCounted vesselID 1 (0, []) w')
    by (intros w' Hw'; repeat split; rewrite Hw'; exact Hex).
  assert (Hend : forall (m : M (Z * list string)),
             wp m (accounted vesselID (1 + n)) w -> sums (fst (m w))).
  { intros m [_ Hm]. unfold sums. lia. }
  assert (Hend' : forall (m : M (Z * list string)),
             wp m (allCounted vesselID (1 + n)) w -> fst (m w) = (n, [])).
  { intros m (_ & Hc & Hw). destruct (fst (m w)) as [c ws].
    cbn [fst snd] in *. f_equal; [lia | exact Hw]. }
  repeat split; [apply Hend | apply Hend | apply Hend | apply Hend' | apply Hend'].
  - unfold processEngineSheet, findTimestampHeader. rewrite Hrows.
    repeat (wp_step; cbv beta iota).
    apply wp_forRows; [intros; now apply engineRow_accounted|].
    now apply Hstart.
  - unfold processFuelSheet, findTimestampHeader. rewrite Hrows.
    repeat (wp_step; cbv beta iota). cbv zeta.
    apply wp_forRows; [intros; now apply fuelRow_accounted|].
    now apply Hstart.
  - unfold processGeneratorSheet, findTimestampHeader. rewrite Hrows.
    repeat (wp_step; cbv beta iota).
    apply wp_forRows; [intros; now apply generatorRow_accounted|].
    now apply Hstart.
  - unfold processCCTVSheet, findTimestampHeader. rewrite Hrows.
    repeat (wp_step; cbv beta iota).
    apply wp_forRows; [intros; now apply cctvRow_counted|].
    now apply Hstart'.
  - unfold processImpactSheet, findTimestampHeader. rewrite Hrows.
    repeat (wp_step; cbv beta iota).
    apply wp_forRows; [intros; now apply impactRow_counted|].
    now apply Hstart'.
Qed.

End Rows.

(** ** Processing a sheet again

    The reading tables have the key (vessel_id, ts, row_hash) and the
    processors insert with INSERT OR IGNORE: rows that are processed a
    second time are dropped by the database. *)

Section Replay.

Context `{Platform}.
Import Mapper Ingest.

(** The order in which [range] visits a map is the same every time. *)
Hypothesis range_order : forall n m l, map_range n l = map_range m l.

Lemma FindHeader_any_count (hm : HeaderMapper) (patterns : list string)
    (n m : nat) :
  fst (FindHeader hm patterns n) = fst (FindHeader hm patterns m).
Proof.
  revert n m. induction patterns as [|p rest IH]; intros n m; cbn [FindHeader].
  - reflexivity.
  - destruct (headers hm !! p); [reflexivity|].
    rewrite (range_order n m).
    destruct (find _ _) as [[k original]|]; [reflexivity | apply IH].
Qed.

(** Every key of a table of [d] is a key of the same table of [d']. *)
Definition keysIn {F} (rows rows' : list (Store.Reading F)) : Prop :=
  forall r, In r rows -> existsb (Store.sameKey r) rows' = true.

Record covers (d d' : Store.State) : Prop := {
  covers_engine : keysIn (Store.engine_readings d) (Store.engine_readings d');
  covers_fuel :
    keysIn (Store.fuel_tank_readings d) (Store.fuel_tank_readings d');
  covers_generator :
    keysIn (Store.generator_readings d) (Store.generator_readings d');
  covers_cctv :
    keysIn (Store.cctv_status_readings d) (Store.cctv_status_readings d');
  covers_impact :
    keysIn (Store.impact_vibration_readings d)
           (Store.impact_vibration_readings d');
  covers_location :
    keysIn (Store.location_readings d) (Store.location_readings d')
}.

Lemma sameKey_refl {F} (r : Store.Reading F) : Store.sameKey r r = true.
Proof.
  unfold Store.sameKey.
  now rewrite Z.eqb_refl, bool_decide_eq_true_2, String.eqb_refl.
Qed.

Lemma keysIn_refl {F} (rows : list (Store.Reading F)) : keysIn rows rows.
Proof.
  intros r Hin. apply existsb_exists. exists r. auto using sameKey_refl.
Qed.

Lemma covers_refl (d : Store.State) : covers d d.
Proof. split; apply keysIn_refl. Qed.

Lemma keysIn_prefix {F} (rows1 rows2 rows' : list (Store.Reading F)) :
  rows1 `prefix_of` rows2 -> keysIn rows2 rows' -> keysIn rows1 rows'.
Proof.
  intros [k ->] Hk r Hin. apply Hk, in_or_app. now left.
Qed.

(** What the sheet processors do to the database: the vessels stay, the
    reading tables get rows at their end. *)
Record appends (d d' : Store.State) : Prop := {
  appends_vessels : Store.vessels d' = Store.vessels d;
  appends_grows : grows d d'
}.

Local Instance appends_preorder : PreOrder appends.
Proof.
  split.
  - intros d. split; reflexivity.
  - intros d1 d2 d3 [] []. split; [congruence | etransitivity; eassumption].
Qed.

Lemma covers_appends (d1 d2 d' : Store.State) :
  appends d1 d2 -> covers d2 d' -> covers d1 d'.
Proof.
  intros [_ []] []. split; eapply keysIn_prefix; eassumption.
Qed.

(** A computation that, run again on a database that has the keys it
    left, gives the same result and writes nothing. *)
Definition replays {A} (m : M A) : Prop :=
  respects appends m /\
  forall w w2,
    Store.vessels (db w2) = Store.vessels (db w) ->
    covers (db (snd (m w))) (db w2) ->
    fst (m w2) = fst (m w) /\ db (snd (m w2)) = db w2.

Lemma replays_ret {A} (a : A) : replays (ret a).
Proof. split; [apply respects_ret; apply _ | auto]. Qed.

Lemma replays_bind {A B} (m : M A) (k : A -> M B) :
  replays m -> (forall a, replays (k a)) -> replays (bind m k).
Proof.
  intros [Hm Rm] Hk. split.
  - apply respects_bind; [apply _ | exact Hm | intros a; apply Hk].
  - intros w w2 Hv Hc. unfold bind in *.
    specialize (Hm w). specialize (Rm w w2 Hv).
    destruct (m w) as [a w1]. cbn [fst snd] in *.
    destruct (Hk a) as [Hka Rk]. specialize (Hka w1). specialize (Rk w1).
    destruct (k a w1) as [b w1'] eqn:Ek. cbn [fst snd] in *.
    destruct Rm as [Ea Ed]; [eapply covers_appends; eassumption|].
    destruct (m w2) as [a2 w2']. cbn [fst snd] in *. subst a2.
    destruct (Rk w2') as [Eb Ed'].
    + rewrite Ed, Hv. symmetry. apply Hm.
    + rewrite Ed. exact Hc.
    + split; congruence.
Qed.

Lemma replays_findHeader (mapper : HeaderMapper) (patterns : list string) :
  replays (findHeader mapper patterns).
Proof.
  split; [apply respects_findHeader; apply _|].
  intros w w2 _ _. unfold findHeader.
  pose proof (FindHeader_any_count mapper patterns (ranges w2) (ranges w)) as E.
  destruct (FindHeader mapper patterns (ranges w2)) as [[c2 f2] n2].
  destruct (FindHeader mapper patterns (ranges w)) as [[c f] n].
  cbn [fst snd] in *. now rewrite E.
Qed.

Lemma replays_forRows {S} (body : Z -> list string -> S -> M S) :
  (forall i cells s, replays (body i cells s)) ->
  forall rows i s, replays (forRows body i rows s).
Proof.
  intros Hb rows. induction rows as [|cells rows IH]; intros i s.
  - apply replays_ret.
  - cbn [forRows]. apply replays_bind; auto.
Qed.

Lemma insertOrIgnore_known {F} (rows : list (Store.Reading F)) r :
  existsb (Store.sameKey r) rows = true -> Store.insertOrIgnore rows r = rows.
Proof. unfold Store.insertOrIgnore. now intros ->. Qed.

Lemma insertOrIgnore_In {F} (rows : list (Store.Reading F)) r :
  existsb (Store.sameKey r) rows = true \/ In r (Store.insertOrIgnore rows r).
Proof.
  unfold Store.insertOrIgnore.
  destruct (existsb _ _) eqn:E; [now left | right].
  apply in_or_app. right. now left.
Qed.

Lemma vesselExists_vessels (d d' : Store.State) (id : Z) :
  Store.vessels d' = Store.vessels d ->
  Store.vesselExists d' id = Store.vesselExists d id.
Proof. unfold Store.vesselExists. now intros ->. Qed.

Lemma sameKey_spec {F} (a b : Store.Reading F) :
  Store.sameKey a b = true <->
  Store.r_vessel_id a = Store.r_vessel_id b /\
  Store.r_ts a = Store.r_ts b /\
  Store.r_row_hash a = Store.r_row_hash b.
Proof.
  unfold Store.sameKey.
  rewrite !andb_true_iff, Z.eqb_eq, bool_decide_eq_true, String.eqb_eq. tauto.
Qed.

Lemma known_key {F} (rows rows2 : list (Store.Reading F)) r :
  keysIn (Store.insertOrIgnore rows r) rows2 ->
  existsb (Store.sameKey r) rows2 = true.
Proof.
  intros Hk. unfold Store.insertOrIgnore in Hk.
  destruct (existsb (Store.sameKey r) rows) eqn:E.
  - apply existsb_exists in E as (r0 & Hin & H0).
    specialize (Hk r0 Hin). apply existsb_exists in Hk as (r1 & Hin1 & H1).
    apply existsb_exists. exists r1. split; [exact Hin1|].
    apply sameKey_spec in H0, H1. apply sameKey_spec. intuition congruence.
  - apply Hk, in_or_app. right. now left.
Qed.

Lemma replays_engine r :
  replays (exec (fun d => Store.insertEngineReading d r)).
Proof.
  split.
  - apply respects_exec. intros d. split; [|apply grows_engine_insert].
    unfold Store.insertEngineReading. now destruct (Store.vesselExists _ _).
  - intros w w2 Hv Hc. unfold exec, Store.insertEngineReading in *.
    rewrite (vesselExists_vessels _ _ _ Hv).
    destruct (Store.vesselExists (db w) _); [|auto].
    cbn [fst snd db] in *. destruct Hc as [Hc _ _ _ _ _].
    cbn [Store.engine_readings Store.set_engine_readings] in Hc.
    rewrite (insertOrIgnore_known _ _ (known_key _ _ _ Hc)).
    now destruct (db w2).
Qed.

Lemma replays_fuel r :
  replays (exec (fun d => Store.insertFuelTankReading d r)).
Proof.
  split.
  - apply respects_exec. intros d. split; [|apply grows_fuel_insert].
    unfold Store.insertFuelTankReading. now destruct (Store.vesselExists _ _).
  - intros w w2 Hv Hc. unfold exec, Store.insertFuelTankReading in *.
    rewrite (vesselExists_vessels _ _ _ Hv).
    destruct (Store.vesselExists (db w) _); [|auto].
    cbn [fst snd db] in *. destruct Hc as [_ Hc _ _ _ _].
    cbn [Store.fuel_tank_readings Store.set_fuel_tank_readings] in Hc.
    rewrite (insertOrIgnore_known _ _ (known_key _ _ _ Hc)).
    now destruct (db w2).
Qed.

Lemma replays_generator r :
  replays (exec (fun d => Store.insertGeneratorReading d r)).
Proof.
  split.
  - apply respects_exec. intros d. split; [|apply grows_generator_insert].
    unfold Store.insertGeneratorReading. now destruct (Store.vesselExists _ _).
  - intros w w2 Hv Hc. unfold exec, Store.insertGeneratorReading in *.
    rewrite (vesselExists_vessels _ _ _ Hv).
    destruct (Store.vesselExists (db w) _); [|auto].
    cbn [fst snd db] in *. destruct Hc as [_ _ Hc _ _ _].
    cbn [Store.generator_readings Store.set_generator_readings] in Hc.
    rewrite (insertOrIgnore_known _ _ (known_key _ _ _ Hc)).
    now destruct (db w2).
Qed.

Lemma replays_cctv r :
  replays (exec (fun d => Store.insertCCTVReading d r)).
Proof.
  split.
  - apply respects_exec. intros d. split; [|apply grows_cctv_insert].
    unfold Store.insertCCTVReading. now destruct (Store.vesselExists _ _).
  - intros w w2 Hv Hc. unfold exec, Store.insertCCTVReading in *.
    rewrite (vesselExists_vessels _ _ _ Hv).
    destruct (Store.vesselExists (db w) _); [|auto].
    cbn [fst snd db] in *. destruct Hc as [_ _ _ Hc _ _].
    cbn [Store.cctv_status_readings Store.set_cctv_status_readings] in Hc.
    rewrite (insertOrIgnore_known _ _ (known_key _ _ _ Hc)).
    now destruct (db w2).
Qed.

Lemma replays_impact r :
  replays (exec (fun d => Store.insertImpactReading d r)).
Proof.
  split.
  - apply respects_exec. intros d. split; [|apply grows_impact_insert].
    unfold Store.insertImpactReading. now destruct (Store.vesselExists _ _).
  - intros w w2 Hv Hc. unfold exec, Store.insertImpactReading in *.
    rewrite (vesselExists_vessels _ _ _ Hv).
    destruct (Store.vesselExists (db w) _); [|auto].
    cbn [fst snd db] in *. destruct Hc as [_ _ _ _ Hc _].
    cbn [Store.impact_vibration_readings Store.set_impact_vibration_readings]
      in Hc.
    rewrite (insertOrIgnore_known _ _ (known_key _ _ _ Hc)).
    now destruct (db w2).
Qed.

Lemma replays_location r :
  replays (exec (fun d => Store.insertLocationReading d r)).
Proof.
  split.
  - apply respects_exec. intros d. split; [|apply grows_location_insert].
    unfold Store.insertLocationReading. now destruct (Store.vesselExists _ _).
  - intros w w2 Hv Hc. unfold exec, Store.insertLocationReading in *.
    rewrite (vesselExists_vessels _ _ _ Hv).
    destruct (Store.vesselExists (db w) _); [|auto].
    cbn [fst snd db] in *. destruct Hc as [_ _ _ _ _ Hc].
    cbn [Store.location_readings Store.set_location_readings] in Hc.
    rewrite (insertOrIgnore_known _ _ (known_key _ _ _ Hc)).
    now destruct (db w2).
Qed.

Ltac replay :=
  repeat
    match goal with
    | |- replays (bind _ _) => apply replays_bind; [|intros]
    | |- replays (forRows _ _ _ _) => apply replays_forRows; intros
    | |- replays (ret _) => apply replays_ret
    | |- replays (findHeader _ _) => apply replays_findHeader
    | |- replays (exec _) =>
        first [apply replays_engine | apply replays_fuel
              | apply replays_generator | apply replays_cctv
              | apply replays_impact | apply replays_location]
    | |- replays (let '(_, _) := ?x in _) => destruct x
    | |- replays (if ?b then _ else _) => destruct b
    | |- replays (match ?x with _ => _ end) => destruct x
    | |- replays _ => solve [auto]
    end.

Lemma replays_processEngineSheet f sheetName vesselID defaultTS :
  replays (processEngineSheet f sheetName vesselID defaultTS).
Proof.
  unfold processEngineSheet, findTimestampHeader. replay.
  unfold engineRow. replay.
Qed.

Lemma replays_processFuelSheet f sheetName vesselID defaultTS :
  replays (processFuelSheet f sheetName vesselID defaultTS).
Proof.
  unfold processFuelSheet, findTimestampHeader. replay.
  unfold fuelRow. replay.
Qed.

Lemma replays_processGeneratorSheet f sheetName vesselID defaultTS :
  replays (processGeneratorSheet f sheetName vesselID defaultTS).
Proof.
  unfold processGeneratorSheet, findTimestampHeader. replay.
  unfold generatorRow. replay.
Qed.

Lemma replays_processCCTVSheet f sheetName vesselID defaultTS :
  replays (processCCTVSheet f sheetName vesselID defaultTS).
Proof.
  unfold processCCTVSheet, findTimestampHeader. replay.
  unfold cctvRow. replay.
Qed.

Lemma replays_processImpactSheet f sheetName vesselID defaultTS :
  replays (processImpactSheet f sheetName vesselID defaultTS).
Proof.
  unfold processImpactSheet, findTimestampHeader. replay.
  unfold impactRow. replay.
Qed.

Lemma replays_processLocation hs data vesselID defaultTS mapper :
  replays (processLocationFromShipInfo hs data vesselID defaultTS mapper).
Proof.
  unfold processLocationFromShipInfo, locationValues, findTimestampHeader.
  replay.
Qed.

Lemma replays_processSheets f vesselID uploadedAt sheets :
  forall acc, replays (processSheets f vesselID uploadedAt sheets acc).
Proof.
  pose proof replays_processEngineSheet. pose proof replays_processFuelSheet.
  pose proof replays_processGeneratorSheet. pose proof replays_processCCTVSheet.
  pose proof replays_processImpactSheet.
  induction sheets as [|sheetName rest IH]; intros acc; cbn [processSheets].
  - apply replays_ret.
  - apply replays_bind; [|auto]. unfold processSheet. replay.
Qed.

Lemma replays_again {A} (m : M A) (w : World) :
  replays m ->
  fst (m (snd (m w))) = fst (m w) /\ db (snd (m (snd (m w)))) = db (snd (m w)).
Proof.
  intros [Hm Rm]. apply Rm; [apply Hm | apply covers_refl].
Qed.

(** X14. A sheet that is processed a second time, for the same vessel and
    with the same default timestamp, adds no row: the database after the
    second run is the database after the first. The second run gives the
    same count and the same warnings as the first, so the count of a run
    is the number of rows that were accepted, not the number of rows that
    were added. This holds for each of the five sheet processors, when
    [range] visits the header map in the same order in both runs. *)
Theorem sheet_processed_again_adds_nothing
    (process : Workbook -> string -> Z -> GoTime.Time -> M (Z * list string))
    (f : Workbook) (sheetName : string) (vesselID : Z)
    (defaultTS : GoTime.Time) (w : World) :
  In process [processEngineSheet; processFuelSheet; processGeneratorSheet;
              processCCTVSheet; processImpactSheet] ->
  let first := process f sheetName vesselID defaultTS w in
  let second := process f sheetName vesselID defaultTS (snd first) in
  fst second = fst first /\ db (snd second) = db (snd first).
Proof.
  intros Hp first second. subst first second. apply replays_again.
  cbn [In] in Hp.
  destruct Hp as [<-|[<-|[<-|[<-|[<-|[]]]]]];
    auto using replays_processEngineSheet, replays_processFuelSheet,
      replays_processGeneratorSheet, replays_processCCTVSheet,
      replays_processImpactSheet.
Qed.

End Replay.
(** ** The same file again *)

Section Reingest.

Context `{Platform}.
Import Mapper Ingest.

(** The order in which [range] visits a map is the same every time. *)
Hypothesis range_order : forall n m l, map_range n l = map_range m l.

(** The rows of the six reading tables and the latest timestamps: the
    database without the vessels and the uploads. *)
Definition readings (d : Store.State) :=
  (Store.engine_readings d, Store.fuel_tank_readings d,
   Store.generator_readings d, Store.cctv_status_readings d,
   Store.impact_vibration_readings d, Store.location_readings d,
   Store.vessel_stream_latest d).

(** What [processShipInfo] does once it has the IMO number of the
    request and the name, flag and type for the vessel: the vessel is
    looked up, updated or inserted, and the location row is processed. *)
Definition vesselOfIMO (hs data : list string) (imo nm : string)
    (fl ty : option string) (uploadedAt : GoTime.Time) : M ShipInfoResult :=
  let mapper := NewHeaderMapper hs in
  let locate (vesselID : Z) : M ShipInfoResult :=
    bind (processLocationFromShipInfo hs data vesselID uploadedAt mapper)
         (fun x => let '(locationCount, locationWarnings) := x in
            ret (ShipInfoReturn vesselID locationCount locationWarnings None)) in
  let create : M ShipInfoResult :=
    bind (exec (fun d => Store.insertVessel d (Some imo) nm fl ty))
         (fun x => let '(id, err) := x in
            match err with
            | Some e => ret (ShipInfoReturn 0 0 [] (Some e))
            | None => locate id
            end) in
  bind (query (fun d => Store.selectVesselByIMO d imo))
       (fun existing =>
          match existing with
          | Some existingID =>
              bind (exec (fun d => Store.updateVessel d existingID nm fl ty))
                   (fun err =>
                      match err with
                      | Some e => ret (ShipInfoReturn 0 0 [] (Some e))
                      | None =>
                          if existingID =? 0 then create else locate existingID
                      end)
          | None => create
          end).

Lemma findHeader_any_count (mapper : HeaderMapper) (patterns : list string)
    (w w' : World) :
  fst (findHeader mapper patterns w) = fst (findHeader mapper patterns w').
Proof.
  unfold findHeader.
  pose proof (FindHeader_any_count range_order mapper patterns
                (ranges w) (ranges w')) as E.
  destruct (FindHeader mapper patterns (ranges w)) as [[c f] n].
  destruct (FindHeader mapper patterns (ranges w')) as [[c' f'] n'].
  cbn [fst] in *. exact E.
Qed.

Lemma processShipInfo_with_rows (f : Workbook) (imo vesselName : string)
    (uploadedAt : GoTime.Time) (hs data : list string) :
  shipInfoRows f = Some (hs, data) -> imo <> "" ->
  exists (nm : string) (fl ty : option string),
    forall w, exists n,
      processShipInfo f imo vesselName uploadedAt w =
      vesselOfIMO hs data imo nm fl ty uploadedAt
                  {| db := db w; ranges := n |}.
Proof.
  intros Hrows Himo. unfold shipInfoRows in Hrows.
  destruct (find isShipInfoSheet (GetSheetList f)) as [sheet|] eqn:Hsheet;
    [|discriminate].
  destruct (GetRows f sheet) as [[|hs' [|data' rest]]|] eqn:Hget;
    try discriminate.
  injection Hrows as -> ->.
  assert (Hne : nonEmpty imo = true).
  { unfold nonEmpty. destruct (String.eqb_spec imo ""); [contradiction|reflexivity]. }
  pose (w0 := {| db := Store.empty; ranges := 0%nat |}).
  pose (mapper := NewHeaderMapper hs).
  pose (pn := fst (findHeader mapper ["name"; "vessel_name"; "ship_name"] w0)).
  pose (pf := fst (findHeader mapper ["flag"] w0)).
  pose (pt := fst (findHeader mapper ["type"; "vessel_type"; "ship_type"] w0)).
  exists (match (if snd pn then headerCell hs data (fst pn) else None) with
          | Some nm => nm
          | None => if nonEmpty vesselName then vesselName
                    else "Vessel-" +:+ imo
          end),
         (if snd pf then headerCell hs data (fst pf) else None),
         (if snd pt then headerCell hs data (fst pt) else None).
  intros w. unfold processShipInfo. rewrite Hsheet.
  cbn [default from_option id].
  rewrite (shipInfoSheet_nonempty sheet) by (apply find_some in Hsheet; tauto).
  rewrite Hget, Hne. unfold bind at 1. unfold ret at 1.
  fold mapper. unfold bind.
  pose proof (findHeader_any_count mapper ["name"; "vessel_name"; "ship_name"]
                w w0) as A1.
  pose proof (findHeader_db mapper ["name"; "vessel_name"; "ship_name"] w) as D1.
  destruct (findHeader mapper ["name"; "vessel_name"; "ship_name"] w)
    as [[nameCol foundN] w1].
  pose proof (findHeader_any_count mapper ["flag"] w1 w0) as A2.
  pose proof (findHeader_db mapper ["flag"] w1) as D2.
  destruct (findHeader mapper ["flag"] w1) as [[flagCol foundF] w2].
  pose proof (findHeader_any_count mapper ["type"; "vessel_type"; "ship_type"]
                w2 w0) as A3.
  pose proof (findHeader_db mapper ["type"; "vessel_type"; "ship_type"] w2)
    as D3.
  destruct (findHeader mapper ["type"; "vessel_type"; "ship_type"] w2)
    as [[typeCol foundT] w3].
  cbn [fst snd] in A1, A2, A3, D1, D2, D3.
  fold pn in A1. fold pf in A2. fold pt in A3. rewrite <- A1, <- A2, <- A3.
  cbn [fst snd]. exists (ranges w3).
  replace {| db := db w; ranges := ranges w3 |} with w3
    by (destruct w3; cbn in *; congruence).
  unfold vesselOfIMO, bind. fold mapper.
  destruct (if foundN then headerCell hs data nameCol else None) as [nm|];
    [reflexivity|].
  destruct (nonEmpty vesselName); reflexivity.
Qed.

(** Every row of the vessel [id] has this name, flag and type. *)
Definition settled (d : Store.State) (id : Z) (nm : string)
    (fl ty : option string) : Prop :=
  forall v, In v (Store.vessels d) -> Store.v_id v = id ->
            Store.v_name v = nm /\ Store.v_flag v = fl /\ Store.v_type v = ty.

Lemma updateVessel_settled d id nm fl ty :
  settled (snd (Store.updateVessel d id nm fl ty)) id nm fl ty.
Proof.
  intros v Hin Hid. cbn in Hin. apply in_map_iff in Hin as (v0 & <- & _).
  destruct (Store.v_id v0 =? id) eqn:E; cbn in *; [auto|].
  apply Z.eqb_neq in E. contradiction.
Qed.

Lemma updateVessel_same d id nm fl ty :
  settled d id nm fl ty -> Store.updateVessel d id nm fl ty = (None, d).
Proof.
  intros Hs. unfold Store.updateVessel. f_equal.
  replace (map _ (Store.vessels d)) with (Store.vessels d);
    [now destruct d|].
  unfold settled in Hs. induction (Store.vessels d) as [|v vs IH];
    [reflexivity|].
  cbn [map]. rewrite <- IH by (intros; apply Hs; [now right | assumption]).
  destruct (Z.eqb_spec (Store.v_id v) id) as [E|_]; [|reflexivity].
  destruct (Hs v (or_introl eq_refl) E) as (<- & <- & <-). now destruct v.
Qed.

Lemma nextVesselID_fresh d v :
  In v (Store.vessels d) -> Store.v_id v < Store.nextVesselID d.
Proof.
  unfold Store.nextVesselID. induction (Store.vessels d) as [|a vs IH];
    [contradiction|].
  cbn [map fold_right]. intros [->|Hin]; [lia|]. specialize (IH Hin). lia.
Qed.

Lemma vesselOfIMO_first hs data imo nm fl ty uploadedAt w :
  Forall (fun v => Store.v_id v <> 0) (Store.vessels (db w)) ->
  exists id wv,
    id <> 0 /\
    Store.selectVesselByIMO (db wv) imo = Some id /\
    settled (db wv) id nm fl ty /\
    vesselOfIMO hs data imo nm fl ty uploadedAt w =
    (let '(lc, lw, w1) :=
       processLocationFromShipInfo hs data id uploadedAt (NewHeaderMapper hs)
                                   wv in
     (ShipInfoReturn id lc lw None, w1)).
Proof.
  intros Hids. unfold vesselOfIMO, bind, query. cbn [fst snd].
  destruct (Store.selectVesselByIMO (db w) imo) as [existingID|] eqn:Hsel.
  - assert (Hne : existingID <> 0).
    { apply selectVesselByIMO_Some in Hsel as (v & Hin & <- & _).
      rewrite List.Forall_forall in Hids. now apply Hids. }
    exists existingID,
      {| db := snd (Store.updateVessel (db w) existingID nm fl ty);
         ranges := ranges w |}.
    split; [exact Hne|]. split; [|split].
    + cbn [db]. now rewrite selectVesselByIMO_update.
    + apply updateVessel_settled.
    + unfold exec. cbn [Store.updateVessel fst snd].
      apply Z.eqb_neq in Hne. rewrite Hne.
      destruct (processLocationFromShipInfo _ _ _ _ _ _) as [[lc lw] w1].
      reflexivity.
  - unfold exec, Store.insertVessel. rewrite Hsel.
    set (id := Store.nextVesselID (db w)).
    set (row := Store.Build_Vessel id (Some imo) nm fl ty).
    exists id,
      {| db := Store.set_vessels (db w) (Store.vessels (db w) ++ [row]);
         ranges := ranges w |}.
    split; [|split; [|split]].
    + subst id. unfold Store.nextVesselID.
      pose proof (max_id_nonneg (map Store.v_id (Store.vessels (db w)))). lia.
    + unfold Store.selectVesselByIMO in *. cbn.
      destruct (find _ (Store.vessels (db w))) eqn:E; [discriminate|].
      rewrite find_append, E. cbn. now rewrite bool_decide_eq_true_2.
    + intros v Hin Hid. cbn in Hin. apply in_app_or in Hin as [Hin|[<-|[]]].
      * apply nextVesselID_fresh in Hin. subst id. lia.
      * cbn. auto.
    + destruct (processLocationFromShipInfo _ _ _ _ _ _) as [[lc lw] w1].
      reflexivity.
Qed.

Lemma vesselOfIMO_known hs data imo nm fl ty uploadedAt id w :
  id <> 0 ->
  Store.selectVesselByIMO (db w) imo = Some id ->
  settled (db w) id nm fl ty ->
  vesselOfIMO hs data imo nm fl ty uploadedAt w =
  (let '(lc, lw, w1) :=
     processLocationFromShipInfo hs data id uploadedAt (NewHeaderMapper hs) w in
   (ShipInfoReturn id lc lw None, w1)).
Proof.
  intros Hne Hsel Hs. unfold vesselOfIMO, bind, query. cbn [fst snd].
  rewrite Hsel. unfold exec. rewrite (updateVessel_same _ _ _ _ _ Hs).
  apply Z.eqb_neq in Hne. rewrite Hne.
  replace {| db := db w; ranges := ranges w |} with w by now destruct w.
  destruct (processLocationFromShipInfo _ _ _ _ _ _) as [[lc lw] w1].
  reflexivity.
Qed.

Lemma processShipInfo_again (f : Workbook) (imo vesselName : string)
    (uploadedAt : GoTime.Time) (hs data : list string) (w : World) :
  shipInfoRows f = Some (hs, data) -> imo <> "" ->
  Forall (fun v => Store.v_id v <> 0) (Store.vessels (db w)) ->
  exists id lc lw w1,
    processShipInfo f imo vesselName uploadedAt w =
      (ShipInfoReturn id lc lw None, w1) /\
    Store.vesselExists (db w1) id = true /\
    forall w2,
      Store.vessels (db w2) = Store.vessels (db w1) ->
      covers (db w1) (db w2) ->
      fst (processShipInfo f imo vesselName uploadedAt w2) =
        ShipInfoReturn id lc lw None /\
      db (snd (processShipInfo f imo vesselName uploadedAt w2)) = db w2.
Proof.
  intros Hrows Himo Hids.
  destruct (processShipInfo_with_rows f imo vesselName uploadedAt hs data
              Hrows Himo) as (nm & fl & ty & Hform).
  destruct (Hform w) as [n ->].
  destruct (vesselOfIMO_first hs data imo nm fl ty uploadedAt
              {| db := db w; ranges := n |} Hids)
    as (id & wv & Hne & Hsel & Hset & ->).
  destruct (replays_processLocation range_order hs data id uploadedAt
              (NewHeaderMapper hs)) as [_ Hrep].
  pose proof (processLocation_vessels hs data id uploadedAt
                (NewHeaderMapper hs) wv) as Hv.
  specialize (Hrep wv).
  destruct (processLocationFromShipInfo hs data id uploadedAt
              (NewHeaderMapper hs) wv) as [[lc lw] w1].
  cbn [fst snd] in Hv, Hrep.
  exists id, lc, lw, w1. split; [reflexivity|]. split.
  - apply selectVesselByIMO_Some in Hsel as (v & Hin & Hid & _).
    unfold Store.vesselExists. rewrite Hv. apply existsb_exists.
    exists v. split; [exact Hin|]. now apply Z.eqb_eq.
  - intros w2 Hv2 Hc. destruct (Hform w2) as [n2 ->].
    rewrite (vesselOfIMO_known hs data imo nm fl ty uploadedAt id).
    + destruct (Hrep {| db := db w2; ranges := n2 |}) as [E D];
        [cbn [db]; congruence | exact Hc |].
      destruct (processLocationFromShipInfo _ _ _ _ _ _) as [[lc2 lw2] w2'].
      cbn [fst snd db] in *. now injection E as -> ->.
    + exact Hne.
    + cbn [db]. rewrite <- Hsel. apply selectVesselByIMO_ext. congruence.
    + cbn [db]. unfold settled in *. rewrite Hv2, Hv. exact Hset.
Qed.

Lemma updateStreamLatest_again (vesselID : Z) (ts : GoTime.Time)
    (rowsInserted : gmap string Z) (w : World) :
  (forall stream count,
      rowsInserted !! stream = Some count -> 0 < count ->
      Store.vessel_stream_latest (db w) !! (vesselID, stream) = Some ts) ->
  db (snd (updateStreamLatest vesselID rowsInserted ts w)) = db w.
Proof.
  unfold updateStreamLatest. intros Hl.
  assert (Hl' : forall stream count,
             In (stream, count) (map_to_list rowsInserted) -> 0 < count ->
             Store.vessel_stream_latest (db w) !! (vesselID, stream) = Some ts).
  { intros s c Hin. apply Hl. now apply elem_of_map_to_list, list_elem_of_In. }
  clear Hl. revert w Hl'.
  induction (map_to_list rowsInserted) as [|[s c] l IH]; intros w Hl;
    cbn [fold_right fst snd]; [reflexivity|].
  destruct (Z.ltb_spec 0 c) as [Hc|Hc].
  - unfold bind, exec, Store.replaceStreamLatest.
    destruct (Store.vesselExists (db w) vesselID).
    + cbn [fst snd]. rewrite insert_id by (apply (Hl s c); [now left | exact Hc]).
      replace (Store.set_vessel_stream_latest (db w)
                 (Store.vessel_stream_latest (db w))) with (db w)
        by now destruct (db w).
      rewrite IH; [reflexivity|]. intros s' c' Hin. apply Hl. now right.
    + cbn [fst snd]. rewrite IH; [reflexivity|].
      intros s' c' Hin. apply Hl. now right.
  - apply IH. intros s' c' Hin. apply Hl. now right.
Qed.

Lemma covers_sameTables (d d' : Store.State) : sameTables d d' -> covers d d'.
Proof. unfold sameTables. intros ->. split; apply keysIn_refl. Qed.

Lemma ProcessFile_already (fileData filename imo vesselName : string)
    (periodStart : option GoTime.Time) (now : GoTime.Time) (w : World)
    (uploadID : Z) :
  Store.selectUploadByHash (db w) (Util.SHA256Hex fileData) = Some uploadID ->
  ProcessFile fileData filename imo vesselName periodStart now w =
  (ProcessReturn
     (Some {| Status := "already_ingested"; UploadID := Some uploadID;
              VesselID := None; RowsInserted := ∅; Warnings := [] |})
     None, w).
Proof.
  intros Hsel. unfold ProcessFile, bind, query. cbn [fst snd].
  now rewrite Hsel.
Qed.

Lemma ProcessFile_ingests (fileData filename imo vesselName : string)
    (periodStart : option GoTime.Time) (now : GoTime.Time) (w : World)
    (f : Workbook) (id lc : Z) (lw : list string) (w1 : World)
    (rowsInserted : gmap string Z) (warnings : list string) (w2 : World) :
  Store.selectUploadByHash (db w) (Util.SHA256Hex fileData) = None ->
  excelize_OpenReader fileData = Some f ->
  processShipInfo f imo vesselName (default now periodStart) w =
    (ShipInfoReturn id lc lw None, w1) ->
  processSheets f id (default now periodStart) (GetSheetList f)
    (if 0 <? lc then <["location" := lc]> ∅ else ∅, lw) w1 =
    (rowsInserted, warnings, w2) ->
  ProcessFile fileData filename imo vesselName periodStart now w =
  (ProcessReturn
     (Some {| Status := "ingested"; UploadID := Some 1;
              VesselID := Some id; RowsInserted := rowsInserted;
              Warnings := warnings |})
     None,
   snd (updateStreamLatest id rowsInserted (default now periodStart) w2)).
Proof.
  intros Hsel Hopen Hship Hsheets. unfold ProcessFile, bind, query.
  cbn [fst snd]. rewrite Hsel, Hopen. cbv zeta. rewrite Hship, Hsheets.
  destruct (updateStreamLatest _ _ _ _) as [[] w3]. reflexivity.
Qed.

(** X23. The same file, ingested again for the same IMO number and with
    the same upload time, adds no reading: when the request names the IMO
    number and the workbook has a ship-info sheet with a data row, the
    second call gives the answer of the first, and the six reading tables
    and the latest timestamps are as the first call left them. The vessel
    row is found by its IMO number and updated to the same name, flag and
    type. [range] visits the header map in the same order in both calls. *)
Theorem same_file_again_adds_no_reading
    (fileData filename imo vesselName : string)
    (periodStart : option GoTime.Time) (now1 now2 : GoTime.Time) (w : World)
    (f : Workbook) (hs data : list string) :
  Forall (fun v => Store.v_id v <> 0) (Store.vessels (db w)) ->
  excelize_OpenReader fileData = Some f ->
  shipInfoRows f = Some (hs, data) ->
  imo <> "" ->
  default now1 periodStart = default now2 periodStart ->
  let first :=
    ProcessFile fileData filename imo vesselName periodStart now1 w in
  let second :=
    ProcessFile fileData filename imo vesselName periodStart now2 (snd first) in
  (exists resp, fst first = ProcessReturn (Some resp) None) /\
  fst second = fst first /\
  readings (db (snd second)) = readings (db (snd first)).
Proof.
  intros Hids Hopen Hrows Himo Hts first second. subst second first.
  destruct (Store.selectUploadByHash (db w) (Util.SHA256Hex fileData))
    as [uploadID|] eqn:Hsel.
  { rewrite (ProcessFile_already _ _ _ _ _ now1 _ _ Hsel). cbn [fst snd].
    rewrite (ProcessFile_already _ _ _ _ _ now2 _ _ Hsel). eauto. }
  set (ts := default now1 periodStart).
  destruct (processShipInfo_again f imo vesselName ts hs data w Hrows Himo Hids)
    as (id & lc & lw & w1 & Hship & Hex & Hagain).
  set (acc := (if 0 <? lc then <["location" := lc]> (∅ : gmap string Z)
               else ∅, lw)).
  destruct (replays_processSheets range_order f id ts (GetSheetList f) acc)
    as [Happ Hrep].
  specialize (Happ w1). specialize (Hrep w1).
  destruct (processSheets f id ts (GetSheetList f) acc w1)
    as [[rowsInserted warnings] w2] eqn:Hsheets.
  cbn [fst snd] in Happ, Hrep.
  assert (Hex2 : Store.vesselExists (db w2) id = true).
  { now rewrite (vesselExists_vessels _ _ _ (appends_vessels _ _ Happ)). }
  pose proof (updateStreamLatest_latest id ts (map_to_list rowsInserted) w2 Hex2)
    as Hlatest.
  cbv zeta in Hlatest. fold (updateStreamLatest id rowsInserted ts) in Hlatest.
  destruct Hlatest as [Hsame Hlatest].
  pose proof (ProcessFile_keeps_uploads fileData filename imo vesselName
                periodStart now1 w) as Hup.
  rewrite (ProcessFile_ingests _ _ _ _ _ now1 _ _ _ _ _ _ _ _ _
             Hsel Hopen Hship Hsheets) in *.
  fold ts in Hup |- *.
  set (w3 := snd (updateStreamLatest id rowsInserted ts w2)) in *.
  cbn [fst snd] in Hup |- *. split; [eauto|].
  assert (Hv3 : Store.vessels (db w3) = Store.vessels (db w1)).
  { rewrite Hsame. cbn. apply Happ. }
  pose proof (covers_sameTables _ _ Hsame) as Hc3.
  assert (Hsel3 : Store.selectUploadByHash (db w3) (Util.SHA256Hex fileData)
                  = None).
  { unfold Store.selectUploadByHash in *. now rewrite Hup. }
  destruct (Hagain w3 Hv3 (covers_appends _ _ _ Happ Hc3)) as [E3 D3].
  destruct (processShipInfo f imo vesselName ts w3) as [r3 w3'] eqn:Hship3.
  cbn [fst snd] in E3, D3. subst r3.
  destruct (Hrep w3') as [E4 D4]; [congruence | now rewrite D3 |].
  destruct (processSheets f id ts (GetSheetList f) acc w3')
    as [[rowsInserted' warnings'] w4] eqn:Hsheets4.
  cbn [fst snd] in E4, D4. injection E4 as -> ->.
  pose proof (ProcessFile_ingests fileData filename imo vesselName periodStart
                now2 w3 f id lc lw w3' rowsInserted warnings w4 Hsel3 Hopen)
    as Hsecond.
  rewrite <- Hts in Hsecond. rewrite (Hsecond Hship3 Hsheets4).
  cbn [fst snd]. split; [reflexivity|]. fold ts.
  rewrite updateStreamLatest_again; [congruence|].
  intros stream count Hs Hc. rewrite D4, D3. apply Hlatest. right.
  exists count. split; [|exact Hc].
  now apply list_elem_of_In, elem_of_map_to_list.
Qed.

End Reingest.
(** ** The counts of a response *)

Section Counts.

Context `{Platform}.
Import Mapper Ingest.

Ltac wp_step :=
  cbv beta;
  match goal with
  | |- wp (bind _ _) _ _ => apply wp_bind
  | |- wp (ret _) _ _ => apply wp_ret
  | |- wp (query _) _ _ => apply wp_query
  | |- wp (exec _) _ _ => apply wp_exec
  | |- wp (findHeader _ _) _ _ => apply wp_findHeader; intros ? ? ?
  end.

(** The stream a sheet goes to: the [switch] of the loop over the sheets
    of [ProcessFile], which takes the first case that matches. *)
Definition streamOf (sheetName : string) : option string :=
  let sheetNameLower := GoStrings.ToLower sheetName in
  if GoStrings.Contains sheetNameLower "engine" then Some "engines"
  else if GoStrings.Contains sheetNameLower "fuel" then Some "fuel"
  else if GoStrings.Contains sheetNameLower "generator" then Some "generators"
  else if GoStrings.Contains sheetNameLower "cctv" then Some "cctv"
  else if GoStrings.Contains sheetNameLower "impact" ||
          GoStrings.Contains sheetNameLower "vibration" then Some "impact"
  else None.

(** The number of data rows of a sheet: 0 when the sheet cannot be read
    or has fewer than two rows. *)
Definition dataRows (f : Workbook) (sheetName : string) : Z :=
  match GetRows f sheetName with
  | Some (hs :: r1 :: rest) => Z.of_nat (length (r1 :: rest))
  | _ => 0
  end.

Lemma processCCTVSheet_count f sheetName vesselID defaultTS w :
  Store.vesselExists (db w) vesselID = true ->
  fst (fst (processCCTVSheet f sheetName vesselID defaultTS w)) =
  dataRows f sheetName.
Proof.
  intros Hex. unfold dataRows.
  assert (Hstart : forall w', db w' = db w ->
                              allCounted vesselID 1 (0, []) w')
    by (intros w' Hw'; repeat split; rewrite Hw'; exact Hex).
  assert (Hwp : forall hs r1 rest,
             GetRows f sheetName = Some (hs :: r1 :: rest) ->
             wp (processCCTVSheet f sheetName vesselID defaultTS)
                (allCounted vesselID (1 + Z.of_nat (length (r1 :: rest)))) w).
  { intros hs r1 rest Hrows.
    unfold processCCTVSheet, findTimestampHeader. rewrite Hrows.
    repeat (wp_step; cbv beta iota).
    apply wp_forRows; [intros; now apply cctvRow_counted|].
    now apply Hstart. }
  destruct (GetRows f sheetName) as [[|hs [|r1 rest]]|] eqn:Hrows;
    try (unfold processCCTVSheet; rewrite Hrows; reflexivity).
  destruct (Hwp hs r1 rest eq_refl) as (_ & Hc & _). lia.
Qed.

Lemma processImpactSheet_count f sheetName vesselID defaultTS w :
  Store.vesselExists (db w) vesselID = true ->
  fst (fst (processImpactSheet f sheetName vesselID defaultTS w)) =
  dataRows f sheetName.
Proof.
  intros Hex. unfold dataRows.
  assert (Hstart : forall w', db w' = db w ->
                              allCounted vesselID 1 (0, []) w')
    by (intros w' Hw'; repeat split; rewrite Hw'; exact Hex).
  assert (Hwp : forall hs r1 rest,
             GetRows f sheetName = Some (hs :: r1 :: rest) ->
             wp (processImpactSheet f sheetName vesselID defaultTS)
                (allCounted vesselID (1 + Z.of_nat (length (r1 :: rest)))) w).
  { intros hs r1 rest Hrows.
    unfold processImpactSheet, findTimestampHeader. rewrite Hrows.
    repeat (wp_step; cbv beta iota).
    apply wp_forRows; [intros; now apply impactRow_counted|].
    now apply Hstart. }
  destruct (GetRows f sheetName) as [[|hs [|r1 rest]]|] eqn:Hrows;
    try (unfold processImpactSheet; rewrite Hrows; reflexivity).
  destruct (Hwp hs r1 rest eq_refl) as (_ & Hc & _). lia.
Qed.

(** A sheet of another stream leaves the count of the stream [k]. *)
Lemma processSheet_other f vesselID uploadedAt sheetName acc w (k : string) :
  streamOf sheetName <> Some k ->
  fst (fst (processSheet f vesselID uploadedAt sheetName acc w)) !! k =
  fst acc !! k.
Proof.
  destruct acc as [rowsInserted warnings]. unfold streamOf, processSheet.
  cbv zeta. intros Hk.
  repeat match goal with
  | |- context [if ?b then _ else _] => destruct b
  | |- context [bind ?m _ w] =>
      unfold bind; destruct (m w) as [[count warns] w']
  end; cbn [fst snd ret]; try reflexivity;
    apply lookup_insert_ne; congruence.
Qed.

Lemma processSheets_app f vesselID uploadedAt sheets1 sheets2 :
  forall acc w,
    processSheets f vesselID uploadedAt (sheets1 ++ sheets2) acc w =
    let '(acc', w') := processSheets f vesselID uploadedAt sheets1 acc w in
    processSheets f vesselID uploadedAt sheets2 acc' w'.
Proof.
  induction sheets1 as [|s rest IH]; intros acc w; [reflexivity|].
  cbn [app processSheets]. unfold bind.
  destruct (processSheet f vesselID uploadedAt s acc w) as [acc1 w1].
  apply IH.
Qed.

Lemma processSheets_other f vesselID uploadedAt sheets (k : string) :
  (forall s, In s sheets -> streamOf s <> Some k) ->
  forall acc w,
    fst (fst (processSheets f vesselID uploadedAt sheets acc w)) !! k =
    fst acc !! k.
Proof.
  induction sheets as [|s rest IH]; intros Hk acc w; [reflexivity|].
  cbn [processSheets]. unfold bind.
  pose proof (processSheet_other f vesselID uploadedAt s acc w k
                (Hk s (or_introl eq_refl))) as E.
  destruct (processSheet f vesselID uploadedAt s acc w) as [acc1 w1].
  cbn [fst] in E. rewrite <- E. apply IH. intros s' Hin. apply Hk. now right.
Qed.

Lemma processSheets_vessel f vesselID uploadedAt sheets acc w :
  Store.vesselExists (db w) vesselID = true ->
  Store.vesselExists
    (db (snd (processSheets f vesselID uploadedAt sheets acc w))) vesselID
  = true.
Proof.
  apply vesselExists_grows.
  apply (respects_processSheets grows vesselID);
    auto using grows_engine_insert, grows_fuel_insert, grows_generator_insert,
      grows_cctv_insert, grows_impact_insert.
Qed.

(** The answer "ingested" comes from the loop over the sheets, run for a
    vessel that exists. *)
Lemma ProcessFile_ingested_inv (fileData filename imo vesselName : string)
    (periodStart : option GoTime.Time) (now : GoTime.Time) (w : World)
    (f : Workbook) (resp : IngestResponse) :
  Forall (fun v => Store.v_id v <> 0) (Store.vessels (db w)) ->
  excelize_OpenReader fileData = Some f ->
  fst (ProcessFile fileData filename imo vesselName periodStart now w) =
    ProcessReturn (Some resp) None ->
  Status resp = "ingested" ->
  exists id lc lw w1,
    Store.vesselExists (db w1) id = true /\
    VesselID resp = Some id /\
    RowsInserted resp =
    fst (fst (processSheets f id (default now periodStart) (GetSheetList f)
                (if 0 <? lc then <["location" := lc]> ∅ else ∅, lw) w1)).
Proof.
  intros Hids Hopen Hfirst Hstatus.
  destruct (Store.selectUploadByHash (db w) (Util.SHA256Hex fileData))
    as [uploadID|] eqn:Hsel.
  { rewrite (ProcessFile_already _ _ _ _ _ _ _ _ Hsel) in Hfirst.
    cbn [fst] in Hfirst. injection Hfirst as <-. discriminate. }
  pose proof (processShipInfo_outcome f imo vesselName
                (default now periodStart) w Hids) as Hout.
  unfold wp in Hout.
  destruct (processShipInfo f imo vesselName (default now periodStart) w)
    as [r w1] eqn:Hship.
  cbn [fst snd] in Hout.
  unfold ProcessFile, bind, query in Hfirst. cbn [fst snd] in Hfirst.
  rewrite Hsel, Hopen in Hfirst. cbv zeta in Hfirst. rewrite Hship in Hfirst.
  destruct r as [|id lc lw [e|]]; try discriminate.
  exists id, lc, lw, w1. destruct Hout as [Hex _]. split; [exact Hex|].
  destruct (processSheets _ _ _ _ _ _) as [[rowsInserted warnings] w2].
  destruct (updateStreamLatest _ _ _ _) as [[] w3].
  cbn [fst] in Hfirst. injection Hfirst as <-. auto.
Qed.

(** X24. The count that a response gives for a stream is that of the last
    sheet of the stream: each sheet overwrites the entry of its stream in
    [RowsInserted]. For the CCTV and the impact stream, whose rows are all
    counted, the entry is the number of data rows of the last sheet that
    goes to the stream (0 when that sheet cannot be read or has no data
    row), whatever the sheets before it hold; their rows are stored and
    not counted. *)
Theorem count_is_of_the_last_sheet
    (fileData filename imo vesselName : string)
    (periodStart : option GoTime.Time) (now : GoTime.Time) (w : World)
    (f : Workbook) (resp : IngestResponse)
    (before after : list string) (sheetName stream : string) :
  Forall (fun v => Store.v_id v <> 0) (Store.vessels (db w)) ->
  excelize_OpenReader fileData = Some f ->
  fst (ProcessFile fileData filename imo vesselName periodStart now w) =
    ProcessReturn (Some resp) None ->
  Status resp = "ingested" ->
  GetSheetList f = before ++ sheetName :: after ->
  stream = "cctv" \/ stream = "impact" ->
  streamOf sheetName = Some stream ->
  (forall s, In s after -> streamOf s <> Some stream) ->
  RowsInserted resp !! stream = Some (dataRows f sheetName).
Proof.
  intros Hids Hopen Hfirst Hstatus Hsheets Hstream Hs Hafter.
  destruct (ProcessFile_ingested_inv _ _ _ _ _ _ _ _ _ Hids Hopen Hfirst Hstatus)
    as (id & lc & lw & w1 & Hex & _ & ->).
  rewrite Hsheets, processSheets_app.
  pose proof (processSheets_vessel f id (default now periodStart) before
                (if 0 <? lc then <["location" := lc]> ∅ else ∅, lw) w1 Hex)
    as Hex1.
  destruct (processSheets f id (default now periodStart) before _ w1)
    as [[rowsInserted warnings] w2].
  cbn [fst snd] in Hex1. cbn [processSheets]. unfold bind.
  assert (Hcount :
            fst (fst (processSheet f id (default now periodStart) sheetName
                        (rowsInserted, warnings) w2)) !! stream =
            Some (dataRows f sheetName)).
  { unfold streamOf in Hs. unfold processSheet. cbv zeta in Hs |- *.
    destruct (GoStrings.Contains _ "engine");
      [destruct Hstream; congruence|].
    destruct (GoStrings.Contains _ "fuel");
      [destruct Hstream; congruence|].
    destruct (GoStrings.Contains _ "generator");
      [destruct Hstream; congruence|].
    destruct (GoStrings.Contains _ "cctv").
    - injection Hs as <-. unfold bind.
      rewrite <- (processCCTVSheet_count f sheetName id
                    (default now periodStart) w2 Hex1).
      destruct (processCCTVSheet _ _ _ _ _) as [[count warns] w3].
      cbn [fst snd ret]. apply lookup_insert_eq.
    - destruct (_ || _); [|discriminate]. injection Hs as <-. unfold bind.
      rewrite <- (processImpactSheet_count f sheetName id
                    (default now periodStart) w2 Hex1).
      destruct (processImpactSheet _ _ _ _ _) as [[count warns] w3].
      cbn [fst snd ret]. apply lookup_insert_eq. }
  destruct (processSheet f id (default now periodStart) sheetName
              (rowsInserted, warnings) w2) as [acc w3].
  rewrite (processSheets_other _ _ _ _ _ Hafter). exact Hcount.
Qed.

End Counts.

(** ** The handlers *)

Section Handlers.

Context `{Platform}.
Import Mapper Ingest Api.

Lemma telemetryLimit_range (c : Ctx) : 1 <= telemetryLimit c <= 1000.
Proof.
  unfold telemetryLimit. destruct (nonEmpty _); [|lia].
  destruct (Strconv.Atoi _) as [e|l]; [lia|].
  destruct (Z.ltb_spec 0 l), (Z.leb_spec l 1000); cbn [andb]; lia.
Qed.

(** The loop stops with no row left when the result set has at most one
    row more than the loop may take. *)
Lemma scanRows_rest (limit : Z) (rows : list ResultRow) :
  forall (count : Z) (items : list Reading) (ts : GoTime.Time) (id : Z)
         (s : Scan),
    scanRows rows count limit items ts id = inr s ->
    Z.of_nat (length rows) <= limit - count + 1 ->
    count <= limit ->
    rest s = [].
Proof.
  induction rows as [|row rows IH]; intros count items ts id s Hs Hlen Hc;
    cbn [scanRows] in Hs.
  - now injection Hs as <-.
  - cbn [length] in Hlen. destruct (Z.ltb_spec count limit).
    + destruct row as [reading|err]; [|discriminate].
      apply IH in Hs; [exact Hs | lia | lia].
    + injection Hs as <-. cbn [rest]. destruct rows; [reflexivity|].
      cbn [length] in Hlen. lia.
Qed.

(** The loop takes at most [limit - count] rows. *)
Lemma scanRows_items (limit : Z) (rows : list ResultRow) :
  forall (count : Z) (items : list Reading) (ts : GoTime.Time) (id : Z)
         (s : Scan),
    scanRows rows count limit items ts id = inr s ->
    count <= limit ->
    Z.of_nat (length (Api.items s)) <= Z.of_nat (length items) + limit - count.
Proof.
  induction rows as [|row rows IH]; intros count items ts id s Hs Hc;
    cbn [scanRows] in Hs.
  - injection Hs as <-. cbn [Api.items]. lia.
  - destruct (Z.ltb_spec count limit).
    + destruct row as [reading|err]; [|discriminate].
      apply IH in Hs; [|lia]. rewrite length_app in Hs. cbn [length] in Hs. lia.
    + injection Hs as <-. cbn [Api.items]. lia.
Qed.

(** X15. [GetVesselTelemetry] never answers with a next cursor. The
    statement asks for [limit + 1] rows; the loop [for rows.Next() &&
    count < limit] calls [rows.Next()] once more after the last row it
    takes, which passes the extra row; the test [if rows.Next()] that
    follows then finds the result set at its end. A page has at most
    [limit] items, at most 1000, and every other answer is an error with
    status 400 or 500. The driver honours LIMIT: a statement that ends in
    "LIMIT ?" with the argument [n >= 0] gives at most [n] rows. *)
Theorem telemetry_page_has_no_next_cursor
    (sqlQuery : string -> list SqlValue -> error + list ResultRow) (c : Ctx) :
  (forall query args n rows,
      0 <= n ->
      sqlQuery (query +:+ " ORDER BY ts, id LIMIT ?") (args ++ [SqlInt n])
        = inr rows ->
      Z.of_nat (length rows) <= n) ->
  match GetVesselTelemetry sqlQuery c with
  | Respond status (PageBody items nextCursor) =>
      status = 200 /\ nextCursor = None /\
      Z.of_nat (length items) <= telemetryLimit c <= 1000
  | Respond status (ErrorBody _) => status = 400 \/ status = 500
  | _ => False
  end.
Proof.
  intros Hlimit. pose proof (telemetryLimit_range c) as Hrange.
  unfold GetVesselTelemetry.
  destruct (Strconv.ParseInt _) as [e|vesselID]; [now left|].
  destruct (String.eqb _ ""); [now left|].
  destruct (Pagination.DecodeCursor _) as [[cursorTS cursorID] [e|]];
    [now left|].
  destruct (streamQuery _ _ _) as [q|]; [|now left].
  cbv zeta.
  match goal with
  | |- context [sqlQuery (fst ?q' +:+ _) (snd ?q' ++ _)] => set (q3 := q')
  end.
  destruct (sqlQuery _ _) as [e|rows] eqn:Hq; [now right|].
  apply Hlimit in Hq; [|lia].
  destruct (scanRows rows 0 (telemetryLimit c) [] GoTime.zero 0) as [e|s] eqn:Hs;
    [now right|].
  pose proof (scanRows_rest _ _ _ _ _ _ _ Hs ltac:(lia) ltac:(lia)) as Hrest.
  pose proof (scanRows_items _ _ _ _ _ _ _ Hs ltac:(lia)) as Hitems.
  rewrite Hrest. cbn [length] in Hitems. repeat split; lia.
Qed.

Lemma no_upload_no_hash (d : Store.State) (fileHash : string) :
  Store.uploads d = [] -> Store.selectUploadByHash d fileHash = None.
Proof. unfold Store.selectUploadByHash. now intros ->. Qed.

(** X16. On a database without upload rows, which is every database that
    only this program has written, [PostIngestXLSX] never answers 409 and
    never panics: it answers 200 with the status "ingested" and the upload
    id 1, or 400, or 500. An answer 400 or 500 leaves the database as it
    was, and the uploads table is empty after every answer, so the
    condition holds for the next request as well. *)
Theorem ingest_handler_answers
    (allowUnsafeDuplicateIngest : bool) (c : Ctx) (now : GoTime.Time)
    (w : World) :
  Forall (fun v => Store.v_id v <> 0) (Store.vessels (db w)) ->
  Store.uploads (db w) = [] ->
  let out := PostIngestXLSX allowUnsafeDuplicateIngest c now w in
  Store.uploads (db (snd out)) = [] /\
  match fst out with
  | Respond status (IngestBody resp) =>
      status = 200 /\ Status resp = "ingested" /\ UploadID resp = Some 1
  | Respond status (ErrorBody _) =>
      (status = 400 \/ status = 500) /\ db (snd out) = db w
  | _ => False
  end.
Proof.
  intros Hids Hup out. subst out. unfold PostIngestXLSX. cbv zeta.
  destruct (String.eqb (Query c "imo") "" &&
            String.eqb (Query c "vessel_name") "") eqn:Hident;
    [cbn; auto|].
  assert (Hid : Query c "imo" <> "" \/ Query c "vessel_name" <> "").
  { apply andb_false_iff in Hident as [E|E]; [left|right];
      intros E'; rewrite E' in E; discriminate. }
  destruct (if nonEmpty _ then _ else _) as [periodStart|]; [|cbn; auto].
  destruct (formFile c) as [file|]; [|cbn; auto].
  destruct (content file) as [| |fileData]; try (cbn; auto).
  unfold bind.
  pose proof (ProcessFile_outcome fileData (Filename file) (Query c "imo")
                (Query c "vessel_name") periodStart now w Hids) as Ho.
  pose proof (ProcessFile_keeps_uploads fileData (Filename file)
                (Query c "imo") (Query c "vessel_name") periodStart now w) as Hu.
  unfold wp in Ho.
  destruct (ProcessFile _ _ _ _ _ _ _) as [r w']. cbn [fst snd] in *.
  rewrite Hup in Hu.
  destruct r as [|[resp|] [e|]]; cbn in Ho; try tauto; cbn; auto.
  destruct Ho as [(_ & _ & [id Hsome] & Hsel)|(Hs & Hu1 & _)].
  - rewrite (no_upload_no_hash _ _ Hup) in Hsel. congruence.
  - rewrite Hs. cbn. auto.
Qed.

(** X17. The upload id that an ingestion reports cannot be fetched:
    after a request to [PostIngestXLSX] on a database without upload rows,
    [GetUpload] answers 404 for the id 1, as for every id. *)
Theorem reported_upload_is_not_found
    (allowUnsafeDuplicateIngest : bool) (c : Ctx) (now : GoTime.Time)
    (w : World) (c' : Ctx) :
  Store.uploads (db w) = [] ->
  let w' := snd (PostIngestXLSX allowUnsafeDuplicateIngest c now w) in
  (Params c' "id" = "1" ->
   fst (GetUpload c' w') = Respond 404 (ErrorBody "upload not found")) /\
  (fst (GetUpload c' w') = Respond 404 (ErrorBody "upload not found") \/
   fst (GetUpload c' w') = Respond 400 (ErrorBody "invalid upload id")).
Proof.
  intros Hup w'.
  assert (Hw' : Store.uploads (db w') = []).
  { subst w'. unfold PostIngestXLSX. cbv zeta.
    destruct (_ && _); [exact Hup|].
    destruct (if nonEmpty _ then _ else _) as [periodStart|]; [|exact Hup].
    destruct (formFile c) as [file|]; [|exact Hup].
    destruct (content file) as [| |fileData]; try exact Hup.
    unfold bind.
    pose proof (ProcessFile_keeps_uploads fileData (Filename file)
                  (Query c "imo") (Query c "vessel_name") periodStart now w)
      as Hu.
    destruct (ProcessFile _ _ _ _ _ _ _) as [r w1]. cbn [fst snd] in *.
    rewrite Hup in Hu.
    destruct r as [|[resp|] [e|]]; try exact Hu.
    destruct (_ && _); exact Hu. }
  assert (Hget : forall id, selectUploadByID (db w') id = None)
    by (intros id; unfold selectUploadByID; now rewrite Hw').
  unfold GetUpload. split.
  - intros ->. change (Strconv.ParseInt "1") with (inr 1 : Strconv.NumError + Z).
    unfold bind, query. cbn [fst snd]. now rewrite Hget.
  - destruct (Strconv.ParseInt _) as [e|id]; [now right|].
    unfold bind, query. cbn [fst snd]. rewrite Hget. now left.
Qed.

(** *** The statements of the telemetry handler *)

(** The number of placeholders of a statement. *)
Fixpoint placeholders (query : string) : nat :=
  match query with
  | EmptyString => O
  | String c rest =>
      if Ascii.eqb c "?" then Datatypes.S (placeholders rest)
      else placeholders rest
  end.

Lemma placeholders_append (a b : string) :
  placeholders (a +:+ b) = (placeholders a + placeholders b)%nat.
Proof.
  induction a as [|c a IH]; [reflexivity|].
  rewrite append_cons. cbn [placeholders]. rewrite IH.
  now destruct (Ascii.eqb c "?").
Qed.

(** A statement with as many placeholders as arguments. *)
Definition balanced (q : string * list SqlValue) : Prop :=
  placeholders (fst q) = length (snd q).

Lemma balanced_clause (q : string * list SqlValue) (clause : string)
    (args : list SqlValue) :
  balanced q -> placeholders clause = length args ->
  balanced (fst q +:+ clause, snd q ++ args).
Proof.
  unfold balanced. cbn [fst snd]. intros Hq Hc.
  rewrite placeholders_append, length_app. congruence.
Qed.

Lemma balanced_numberFilter c key clause q :
  placeholders clause = 1%nat -> balanced q ->
  balanced (numberFilter c key clause q).
Proof.
  intros Hc Hq. unfold numberFilter. cbv zeta.
  destruct (nonEmpty _); [|exact Hq].
  destruct (Strconv.Atoi _); [exact Hq|]. now apply balanced_clause.
Qed.

Lemma balanced_textFilter c key clause q :
  placeholders clause = 1%nat -> balanced q ->
  balanced (textFilter c key clause q).
Proof.
  intros Hc Hq. unfold textFilter. cbv zeta.
  destruct (nonEmpty _); [|exact Hq]. now apply balanced_clause.
Qed.

Lemma balanced_timeFilter c key clause q :
  placeholders clause = 1%nat -> balanced q ->
  balanced (timeFilter c key clause q).
Proof.
  intros Hc Hq. unfold timeFilter. cbv zeta.
  destruct (nonEmpty _); [|exact Hq].
  destruct (GoTime.Parse _ _); [|exact Hq]. now apply balanced_clause.
Qed.

Lemma balanced_streamQuery c stream vesselID q :
  streamQuery c stream vesselID = Some q -> balanced q.
Proof.
  unfold streamQuery.
  repeat (destruct (String.eqb stream _);
          [intros [= <-];
           first [apply balanced_numberFilter | apply balanced_textFilter
                 | idtac]; reflexivity|]).
  discriminate.
Qed.

(** X26. Every statement that [GetVesselTelemetry] and [GetVesselLatest]
    send to the database has as many placeholders as arguments, whatever
    the request: the values of the request are passed as arguments and the
    text of the statement is put together from constants. A driver that
    refuses every other statement gives the same answers. *)
Theorem telemetry_statement_matches_its_arguments
    (sqlQuery : string -> list SqlValue -> error + list ResultRow)
    (sqlQueryRow : string -> list SqlValue -> RowResult)
    (refused : error) (c : Ctx) :
  GetVesselTelemetry
    (fun query args =>
       if (placeholders query =? length args)%nat then sqlQuery query args
       else inl refused) c =
  GetVesselTelemetry sqlQuery c /\
  GetVesselLatest
    (fun query args =>
       if (placeholders query =? length args)%nat then sqlQueryRow query args
       else RowFails refused) c =
  GetVesselLatest sqlQueryRow c.
Proof.
  split.
  - unfold GetVesselTelemetry.
    destruct (Strconv.ParseInt _) as [e|vesselID]; [reflexivity|]. cbv zeta.
    destruct (String.eqb _ ""); [reflexivity|].
    destruct (Pagination.DecodeCursor _) as [[cursorTS cursorID] [e|]];
      [reflexivity|].
    destruct (streamQuery c _ vesselID) as [q|] eqn:Hq; [|reflexivity].
    apply balanced_streamQuery in Hq.
    apply (balanced_timeFilter c "from" " AND ts >= ?" _ eq_refl) in Hq.
    apply (balanced_timeFilter c "to" " AND ts <= ?" _ eq_refl) in Hq.
    set (q2 := timeFilter c "to" _ _) in *.
    assert (Hq3 : balanced
              (if negb (IsZero cursorTS)
               then (fst q2 +:+ " AND (ts > ? OR (ts = ? AND id > ?))",
                     snd q2 ++ [SqlTime cursorTS; SqlTime cursorTS;
                                SqlInt cursorID])
               else q2)).
    { destruct (negb _); [|exact Hq]. now apply balanced_clause. }
    set (q3 := if negb _ then _ else _) in *.
    apply (balanced_clause q3 " ORDER BY ts, id LIMIT ?"
             [SqlInt (telemetryLimit c + 1)]) in Hq3; [|reflexivity].
    unfold balanced in Hq3. cbn [fst snd] in Hq3.
    apply Nat.eqb_eq in Hq3. now rewrite Hq3.
  - unfold GetVesselLatest.
    destruct (Strconv.ParseInt _) as [e|vesselID]; [reflexivity|]. cbv zeta.
    destruct (String.eqb _ ""); [reflexivity|].
    destruct (String.eqb _ "engines"); [|reflexivity].
    set (q := numberFilter c _ _ _).
    assert (Hq : balanced q)
      by (apply balanced_numberFilter; reflexivity).
    apply (balanced_clause q " ORDER BY ts DESC, id DESC LIMIT 1" [])
      in Hq; [|reflexivity].
    unfold balanced in Hq. cbn [fst snd] in Hq. rewrite app_nil_r in Hq.
    apply Nat.eqb_eq in Hq. now rewrite Hq.
Qed.

(** *** Filters that cannot be read *)

(** The request without the query parameter [key]. *)
Definition withoutQuery (key : string) (c : Ctx) : Ctx :=
  {| params := params c; queries := delete key (queries c);
     formFile := formFile c |}.

Lemma Query_without_eq (key : string) (c : Ctx) :
  Query (withoutQuery key c) key = "".
Proof. unfold Query, withoutQuery. cbn [queries]. now rewrite lookup_delete_eq. Qed.

Lemma Query_without_ne (key k : string) (c : Ctx) :
  key <> k -> Query (withoutQuery key c) k = Query c k.
Proof.
  intros Hk. unfold Query, withoutQuery. cbn [queries].
  now rewrite lookup_delete_ne.
Qed.

Ltac without key :=
  unfold GetVesselTelemetry, GetVesselLatest, telemetryLimit, streamQuery,
    numberFilter, textFilter, timeFilter;
  change (Params (withoutQuery key ?c)) with (Params c);
  rewrite ?Query_without_eq;
  rewrite !Query_without_ne by discriminate;
  change (nonEmpty "") with false; cbv iota.

(** X27. A filter of a request that cannot be read is dropped without an
    error: with a [from] or [to] that is not an RFC 3339 time, or an
    [engine_no], [tank_no] or [gen_no] that is not a number, the telemetry
    handler and the latest handler answer as for the request without that
    parameter, so the client gets the rows that the filter was meant to
    exclude. *)
Theorem unreadable_filter_is_dropped
    (sqlQuery : string -> list SqlValue -> error + list ResultRow)
    (sqlQueryRow : string -> list SqlValue -> RowResult)
    (c : Ctx) (key : string) :
  In key ["from"; "to"] /\ GoTime.Parse GoTime.RFC3339 (Query c key) = None \/
  In key ["engine_no"; "tank_no"; "gen_no"] /\
    (exists e, Strconv.Atoi (Query c key) = inl e) ->
  GetVesselTelemetry sqlQuery c =
    GetVesselTelemetry sqlQuery (withoutQuery key c) /\
  GetVesselLatest sqlQueryRow c =
    GetVesselLatest sqlQueryRow (withoutQuery key c).
Proof.
  cbn [In].
  intros [[[<-|[<-|[]]] Hp]|[[<-|[<-|[<-|[]]]] [e He]]]; split.
  - without "from". rewrite Hp. now destruct (nonEmpty (Query c "from")).
  - without "from". reflexivity.
  - without "to". rewrite Hp. now destruct (nonEmpty (Query c "to")).
  - without "to". reflexivity.
  - without "engine_no". rewrite He.
    now destruct (nonEmpty (Query c "engine_no")).
  - without "engine_no". rewrite He.
    now destruct (nonEmpty (Query c "engine_no")).
  - without "tank_no". rewrite He. now destruct (nonEmpty (Query c "tank_no")).
  - without "tank_no". reflexivity.
  - without "gen_no". rewrite He. now destruct (nonEmpty (Query c "gen_no")).
  - without "gen_no". reflexivity.
Qed.

(** X29. The latest endpoint serves the engine stream only: for the
    streams fuel, generators, cctv, impact and location, which the
    telemetry endpoint answers with a statement on their tables,
    [GetVesselLatest] sends no statement and answers 400, "stream not
    implemented for latest endpoint" when the vessel id is a number. *)
Theorem latest_is_for_engines_only
    (sqlQueryRow : string -> list SqlValue -> RowResult) (c : Ctx) :
  In (Query c "stream") ["fuel"; "generators"; "cctv"; "impact"; "location"] ->
  (forall vesselID, is_Some (streamQuery c (Query c "stream") vesselID)) /\
  GetVesselLatest sqlQueryRow c =
  Respond 400
    (ErrorBody
       (match Strconv.ParseInt (Params c "id") with
        | inl _ => "invalid vessel id"
        | inr _ => "stream not implemented for latest endpoint"
        end)).
Proof.
  intros Hs. unfold GetVesselLatest, streamQuery. cbv zeta. cbn [In] in Hs.
  destruct Hs as [<-|[<-|[<-|[<-|[<-|[]]]]]]; cbn [String.eqb Ascii.eqb
    Bool.eqb]; (split; [intros; eexists; reflexivity|]);
    now destruct (Strconv.ParseInt _).
Qed.

End Handlers.

(** ** Hashes *)

Section Hashes.

Import Sha256 Util.

Definition isHex (c : ascii) : bool :=
  existsb (Ascii.eqb c) (list_ascii_of_string hextable).

Lemma hexdigit_isHex (n : Z) : isHex (hexdigit n) = true.
Proof.
  unfold hexdigit. generalize (Z.to_nat n). intros k.
  do 16 (destruct k as [|k]; [reflexivity|]). reflexivity.
Qed.

Lemma hexEncode_length (bs : list Z) :
  String.length (hexEncode bs) = (2 * length bs)%nat.
Proof.
  induction bs as [|b bs IH]; [reflexivity|].
  cbn [hexEncode String.length length]. rewrite IH. lia.
Qed.

Lemma hexEncode_isHex (bs : list Z) :
  forallb isHex (list_ascii_of_string (hexEncode bs)) = true.
Proof.
  induction bs as [|b bs IH]; [reflexivity|].
  cbn [hexEncode list_ascii_of_string forallb].
  now rewrite !hexdigit_isHex, IH.
Qed.

Lemma Sum256_length (data : list Z) : length (Sum256 data) = 32%nat.
Proof.
  unfold Sum256.
  destruct (blocks _ _ _) as [[[[[[[h0 h1] h2] h3] h4] h5] h6] h7].
  reflexivity.
Qed.

(** X18. [SHA256Hex] gives 64 characters, each a digit or a letter from
    a to f, whatever the input; and so does [HashRow], whatever the vessel,
    the timestamp, the stream and the keys. *)
Theorem hashes_are_64_hex_digits :
  (forall data : string,
      String.length (SHA256Hex data) = 64%nat /\
      forallb isHex (list_ascii_of_string (SHA256Hex data)) = true) /\
  (forall (vesselID : Z) (ts : GoTime.Time) (stream : string)
          (keys : list string),
      String.length (HashRow vesselID ts stream keys) = 64%nat /\
      forallb isHex (list_ascii_of_string (HashRow vesselID ts stream keys))
        = true).
Proof.
  assert (Hsha : forall data : string,
             String.length (SHA256Hex data) = 64%nat /\
             forallb isHex (list_ascii_of_string (SHA256Hex data)) = true).
  { intros data. unfold SHA256Hex.
    now rewrite hexEncode_length, Sum256_length, hexEncode_isHex. }
  split; [exact Hsha|]. intros. apply Hsha.
Qed.

End Hashes.

(** ** Numbers of engines, tanks and generators *)

Section RowNumbers.

Context `{Platform}.
Import Strconv GoTime Mapper Ingest.

Definition noDigit (s : string) : bool :=
  forallb (fun c => negb (isDigit c)) (list_ascii_of_string s).

Definition startsWithoutDigit (s : string) : bool :=
  match s with
  | String c _ => negb (isDigit c)
  | EmptyString => true
  end.

Lemma spanDigits_value (s : string) :
  exists v, digitsValue (fst (spanDigits s)) 0 = Some v.
Proof.
  assert (Hgen : forall a, exists v, digitsValue (fst (spanDigits s)) a = Some v).
  { induction s as [|c s IH]; intros a; [cbn; eauto|].
    cbn [spanDigits]. destruct (isDigit c) eqn:Hc; [|cbn; eauto].
    destruct (spanDigits s) as [d r]. cbn [fst digitsValue] in *.
    rewrite Hc. apply IH. }
  apply Hgen.
Qed.

Lemma findDigits_value (s : string) :
  exists v, digitsValue (findDigits s) 0 = Some v.
Proof.
  induction s as [|c s IH]; [cbn; eauto|].
  cbn [findDigits]. destruct (isDigit c); [apply spanDigits_value | exact IH].
Qed.

Lemma parseUint_go_ge (s : string) :
  forall n v : Z, 0 <= n -> parseUint_go s n = inr v -> n <= v.
Proof.
  induction s as [|c s IH]; intros n v Hn Hp; cbn [parseUint_go] in Hp.
  - injection Hp as <-. lia.
  - destruct (isDigit c) eqn:Hc; [|discriminate].
    destruct (_ <=? n); [discriminate|].
    destruct (_ <? _); [discriminate|].
    pose proof (isDigit_val c Hc). apply IH in Hp; lia.
Qed.

Lemma isDigit_not_sign (c : ascii) :
  isDigit c = true -> Ascii.eqb c "+" = false /\ Ascii.eqb c "-" = false.
Proof.
  intros Hc. split.
  - destruct (Ascii.eqb_spec c "+") as [->|]; [discriminate | reflexivity].
  - destruct (Ascii.eqb_spec c "-") as [->|]; [discriminate | reflexivity].
Qed.

Lemma findDigits_noDigit (pre s : string) :
  noDigit pre = true -> findDigits (pre +:+ s) = findDigits s.
Proof.
  unfold noDigit. induction pre as [|c pre IH]; intros Hn.
  - now rewrite append_nil_l.
  - cbn [list_ascii_of_string forallb] in Hn.
    apply andb_true_iff in Hn as [Hc Hn]. apply negb_true_iff in Hc.
    rewrite append_cons. cbn [findDigits]. rewrite Hc. auto.
Qed.

Lemma spanDigits_run (d post : string) :
  startsWithoutDigit post = true ->
  forall a v, digitsValue d a = Some v -> spanDigits (d +:+ post) = (d, post).
Proof.
  intros Hpost. induction d as [|c d IH]; intros a v Hv.
  - rewrite append_nil_l. destruct post as [|c post]; [reflexivity|].
    cbn in Hpost |- *. apply negb_true_iff in Hpost. now rewrite Hpost.
  - cbn [digitsValue] in Hv. destruct (isDigit c) eqn:Hc; [|discriminate].
    rewrite append_cons. cbn [spanDigits]. rewrite Hc.
    now rewrite (IH _ _ Hv).
Qed.

(** X19. The number of an engine, a tank or a generator is read from the
    first run of digits of the cell. It is never negative, a sign before
    the digits is dropped, and it is below 2^63 (a longer run gives no
    number). A cell that holds the decimal form of [n] between text
    without digits and text that does not start with a digit, as in
    "Engine #2 (Port)", gives [n]. *)
Theorem row_number_is_first_digit_run (col : string)
    (row : gmap string string) :
  (forall n, rowNumber col row = Some n -> 0 <= n < 2 ^ 63) /\
  (forall (pre post : string) (n : Z),
      col <> "" ->
      row !! col = Some (pre +:+ FormatInt n +:+ post) ->
      0 <= n < 2 ^ 63 ->
      noDigit pre = true -> startsWithoutDigit post = true ->
      rowNumber col row = Some n).
Proof.
  split.
  - intros n. unfold rowNumber.
    destruct (nonEmpty col); [|discriminate].
    destruct (findDigits_value (cell row col)) as [v Hv].
    destruct (findDigits (cell row col)) as [|c m]; [discriminate|].
    cbn [nonEmpty String.eqb negb].
    cbn [digitsValue] in Hv. destruct (isDigit c) eqn:Hc; [|discriminate].
    destruct (isDigit_not_sign c Hc) as [Hplus Hminus].
    unfold Atoi, Strconv.ParseInt. cbv zeta. rewrite Hplus, Hminus.
    cbn [orb negb andb].
    unfold ParseUint.
    destruct (parseUint_go (String c m) 0) as [e|un] eqn:Hp; [discriminate|].
    apply parseUint_go_ge in Hp; [|lia].
    destruct (Z.leb_spec (2 ^ 63) un); [discriminate|].
    intros [= <-]. lia.
  - intros pre post n Hcol Hrow Hn Hpre Hpost. unfold rowNumber, nonEmpty.
    destruct (String.eqb_spec col ""); [contradiction|]. cbn [negb].
    unfold cell. rewrite Hrow. cbn [default from_option id].
    rewrite (findDigits_noDigit _ _ Hpre).
    assert (Hf : FormatInt n = formatUint n).
    { unfold FormatInt. destruct (Z.ltb_spec n 0); [lia | reflexivity]. }
    destruct (formatUint_value n) as [Hv Hne]; [lia|].
    assert (Hfind : findDigits (FormatInt n +:+ post) = FormatInt n).
    { rewrite Hf. destruct (formatUint n) as [|c d] eqn:Ed; [contradiction|].
      rewrite append_cons. cbn [findDigits].
      cbn [digitsValue] in Hv. destruct (isDigit c) eqn:Hc; [|discriminate].
      rewrite <- append_cons.
      assert (Hall : digitsValue (String c d) 0 = Some n)
        by (cbn [digitsValue]; now rewrite Hc).
      now rewrite (spanDigits_run _ _ Hpost _ _ Hall). }
    rewrite Hfind.
    destruct (String.eqb_spec (FormatInt n) "") as [E|_].
    { rewrite Hf in E. contradiction. }
    cbn [negb]. unfold Atoi. rewrite ParseInt_FormatInt by lia. reflexivity.
Qed.

End RowNumbers.

(** ** Timestamps without a zone *)

Section ZonelessTimestamps.

Context `{Platform}.
Import GoTime Mapper.

(** The elements of the layouts other than the zone. *)
Definition zoneless (std : Std) : bool :=
  match std with
  | stdISO8601ColonTZ => false
  | _ => true
  end.

Lemma parseStd_keeps_zone (std : Std) (f f' : Fields) (v r : string) :
  zoneless std = true ->
  parseStd std f v = Some (f', r) ->
  f_utc f' = f_utc f /\ f_zoneOffset f' = f_zoneOffset f.
Proof.
  intros Hz Hp.
  destruct std; try discriminate Hz;
    try (apply parseStd_clock_keeps_date in Hp; [tauto | reflexivity]);
    unfold parseStd in Hp.
  - destruct v as [|a [|b [|c [|d rest]]]]; try discriminate.
    destruct (digitsValue _ 0); [|discriminate].
    injection Hp as <- <-. cbn. tauto.
  - destruct (getnum v true) as [[m r']|]; [|discriminate].
    destruct (_ || _); [discriminate|]. injection Hp as <- <-. cbn. tauto.
  - destruct (getnum v true) as [[d r']|]; [|discriminate].
    injection Hp as <- <-. cbn. tauto.
Qed.

Lemma parseChunks_keeps_zone (cs : list (string * Std)) :
  forallb (fun c => zoneless (snd c)) cs = true ->
  forall (f f' : Fields) (v r : string),
    parseChunks cs f v = Some (f', r) ->
    f_utc f' = f_utc f /\ f_zoneOffset f' = f_zoneOffset f.
Proof.
  induction cs as [|[prefix std] cs IH]; intros Hall f f' v r Hp.
  - injection Hp as <- <-. tauto.
  - cbn in Hall. apply andb_true_iff in Hall as [Hc Hall].
    cbn [parseChunks] in Hp.
    destruct (skip v prefix) as [v1|]; [|discriminate].
    destruct (parseStd std f v1) as [[f1 v2]|] eqn:E; [|discriminate].
    apply (parseStd_keeps_zone _ _ _ _ _ Hc) in E.
    apply (IH Hall) in Hp. intuition congruence.
Qed.

Lemma Parse_zoneless_utc (layout : Layout) (v : string) (t : Time) :
  forallb (fun c => zoneless (snd c)) (chunks layout) = true ->
  Parse layout v = Some t -> offset t = 0.
Proof.
  intros Hall Hp. unfold Parse in Hp.
  destruct (parseChunks _ _ _) as [[f v1]|] eqn:E; [|discriminate].
  apply (parseChunks_keeps_zone _ Hall) in E as [Hu Hz]. cbn in Hu, Hz.
  destruct (skip v1 _) as [[|]|]; try discriminate.
  destruct (_ || _); [discriminate|].
  injection Hp as <-. cbn [offset]. now rewrite Hu, Hz.
Qed.

(** X20. A timestamp that [ParseTimestamp] accepts is in UTC unless the
    value is in the RFC 3339 form, which names its offset: the seven
    layouts without a zone give the clock reading of the cell as a UTC
    time, whatever the zone of the ship or of the server. *)
Theorem timestamp_without_zone_is_utc (s : string) (t : Time) :
  ParseTimestamp s = (t, None) ->
  Parse RFC3339 (GoStrings.TrimSpace s) = Some t \/
  Parse RFC3339 (GoStrings.TrimSpace s) = None /\ offset t = 0.
Proof.
  unfold ParseTimestamp. destruct (String.eqb s ""); [discriminate|].
  unfold timestampFormats. cbn [firstParse].
  destruct (Parse RFC3339 _) as [t0|]; [intros [= <-]; now left|].
  intros Hp. right. split; [reflexivity|].
  repeat match type of Hp with
         | context [Parse ?l ?v] =>
             let E := fresh "E" in
             destruct (Parse l v) as [t1|] eqn:E; cbv beta iota in Hp;
               [injection Hp as <-;
                apply (Parse_zoneless_utc l v _ eq_refl E)|]
         end.
  discriminate.
Qed.

End ZonelessTimestamps.

(** ** Values that are not numbers *)

Section NotANumber.

Context `{Platform}.
Import Mapper.

Lemma SFcompare_self (x : spec_float) :
  x = S754_nan \/ SFcompare x x = Some Eq.
Proof.
  destruct x as [s|s| |s m e]; cbn; auto; right.
  - now destruct s.
  - rewrite Z.compare_refl, Pos.compare_cont_refl. now destruct s.
Qed.

Lemma is_nan_spec (v : float) :
  PrimFloat.is_nan v = true -> Prim2SF v = S754_nan.
Proof.
  unfold PrimFloat.is_nan. rewrite FloatAxioms.eqb_spec. unfold SFeqb.
  destruct (SFcompare_self (Prim2SF v)) as [E|E]; [auto|].
  rewrite E. discriminate.
Qed.

Lemma nan_not_below (v c : float) :
  PrimFloat.is_nan v = true ->
  PrimFloat.ltb v c = false /\ PrimFloat.ltb c v = false.
Proof.
  intros Hv. apply is_nan_spec in Hv.
  rewrite !FloatAxioms.ltb_spec, Hv. unfold SFltb. split; [reflexivity|].
  now destruct (Prim2SF c).
Qed.

(** The value, when it is a number. *)
Definition number (x : option float) : option float :=
  match x with
  | Some v => if PrimFloat.is_nan v then None else Some v
  | None => None
  end.

(** X21. The validators take a NaN for an absent value: no check warns
    about a field that holds a NaN (every comparison with it is false), so
    a row is not skipped for it, and the warnings about the other fields
    are the same as without the field. *)
Theorem validators_ignore_nan :
  (forall rpm temp pressure,
      ValidateEngineData rpm temp pressure =
      ValidateEngineData (number rpm) (number temp) (number pressure)) /\
  (forall level volume temp,
      ValidateFuelData level volume temp =
      ValidateFuelData (number level) (number volume) (number temp)) /\
  (forall load voltage frequency fuelRate,
      ValidateGeneratorData load voltage frequency fuelRate =
      ValidateGeneratorData (number load) (number voltage) (number frequency)
                            (number fuelRate)) /\
  (forall latitude longitude course speed,
      ValidateLocationData latitude longitude course speed =
      ValidateLocationData (number latitude) (number longitude) (number course)
                           (number speed)).
Proof.
  unfold ValidateEngineData, ValidateFuelData, ValidateGeneratorData,
    ValidateLocationData.
  repeat split; intros; cbv zeta;
    repeat match goal with
           | x : option float |- _ =>
               destruct x as [x|]; cbn [number];
                 [destruct (PrimFloat.is_nan x) eqn:?|]
           end;
    repeat match goal with
           | E : PrimFloat.is_nan ?v = true |- context [PrimFloat.ltb ?v ?c] =>
               rewrite (proj1 (nan_not_below v c E))
           | E : PrimFloat.is_nan ?v = true |- context [PrimFloat.ltb ?c ?v] =>
               rewrite (proj2 (nan_not_below v c E))
           end;
    reflexivity.
Qed.

End NotANumber.

(** ** The extra columns of a row *)

Section ExtraColumns.

Context `{Platform}.
Import Mapper.

(** X22. [BuildExtraJSON] never fails. It depends on the unmapped columns
    of the row only: two rows that agree outside the mapped columns give
    the same JSON, so the values that went into the typed fields of a
    reading do not reach its [extra_json]; and a row whose unmapped cells
    are all empty gives "{}". *)
Theorem extra_json_has_unmapped_columns_only (row : gmap string string)
    (mappedCols : list string) :
  snd (BuildExtraJSON row mappedCols) = None /\
  ((forall k v, row !! k = Some v -> k ∈ mappedCols \/ v = "") ->
   fst (BuildExtraJSON row mappedCols) = "{}") /\
  (forall row' : gmap string string,
      (forall k, k ∉ mappedCols -> row' !! k = row !! k) ->
      BuildExtraJSON row' mappedCols = BuildExtraJSON row mappedCols).
Proof.
  unfold BuildExtraJSON. cbv zeta. repeat split.
  - now destruct (decide _).
  - intros Hall.
    assert (Hempty : filter (fun kv : string * string =>
                               (kv.1 ∉ mappedCols) /\ (kv.2 <> "")) row = ∅).
    { apply map_empty_filter. intros k v Hk [Hm Hv]. cbn in Hm, Hv.
      destruct (Hall k v Hk); contradiction. }
    rewrite Hempty. reflexivity.
  - intros row' Hsame.
    assert (Heq : filter (fun kv : string * string =>
                            (kv.1 ∉ mappedCols) /\ (kv.2 <> "")) row' =
                  filter (fun kv : string * string =>
                            (kv.1 ∉ mappedCols) /\ (kv.2 <> "")) row).
    { apply map_eq. intros k. apply option_eq. intros v.
      rewrite !map_lookup_filter_Some. cbn.
      split; intros (Hk & Hm & Hv); (split; [|tauto]);
        [rewrite <- Hsame | rewrite Hsame]; assumption. }
    now rewrite Heq.
Qed.

End ExtraColumns.

(** ** The cells of a row *)

Section RowCells.

Context `{Platform}.
Import Ingest.

Lemma combine_lookup (hs cells : list string) (i : nat) :
  combine hs cells !! i =
  match hs !! i, cells !! i with
  | Some h, Some v => Some (h, v)
  | _, _ => None
  end.
Proof.
  revert cells i. induction hs as [|h hs IH]; intros [|v cells] [|i];
    try reflexivity.
  - cbn. now destruct (hs !! i).
  - cbn. apply IH.
Qed.

Lemma fold_insert_other (l : list (string * string)) (h : string) :
  (forall hc, hc ∈ l -> fst hc <> h) ->
  forall m : gmap string string,
    fold_left (fun m hc => <[fst hc := snd hc]> m) l m !! h = m !! h.
Proof.
  induction l as [|hc l IH]; intros Hl m; [reflexivity|].
  cbn [fold_left]. rewrite IH by (intros; apply Hl; now right).
  apply lookup_insert_ne, Hl. now left.
Qed.

Lemma fold_insert_last (l1 l2 : list (string * string)) (h v : string) :
  (forall hc, hc ∈ l2 -> fst hc <> h) ->
  forall m : gmap string string,
    fold_left (fun m hc => <[fst hc := snd hc]> m) (l1 ++ (h, v) :: l2) m !! h
    = Some v.
Proof.
  intros Hl m. rewrite fold_left_app. cbn [fold_left fst snd].
  rewrite (fold_insert_other _ _ Hl). apply lookup_insert_eq.
Qed.

(** X28. The cell that a processor reads for a header is the cell of the
    last column with that header among the columns the row has: of two
    columns with the same header text the later one is read. A header that
    no such column carries (the header is not in the sheet, or the row
    ends before its column) reads as the empty string. *)
Theorem cell_is_of_the_last_column (hs cells : list string) (h : string) :
  (forall (i : nat) (v : string),
      hs !! i = Some h -> cells !! i = Some v ->
      (forall j, (i < j < length cells)%nat -> hs !! j <> Some h) ->
      cell (rowMap hs cells) h = v) /\
  ((forall i, (i < length cells)%nat -> hs !! i <> Some h) ->
   cell (rowMap hs cells) h = "").
Proof.
  unfold cell, rowMap. split.
  - intros i v Hh Hv Hlater.
    assert (Hi : combine hs cells !! i = Some (h, v))
      by now rewrite combine_lookup, Hh, Hv.
    rewrite <- (take_drop_middle _ _ _ Hi), fold_insert_last; [reflexivity|].
    intros [h' v'] [k Hk]%list_elem_of_lookup Heq. cbn [fst] in Heq. subst h'.
    rewrite lookup_drop, combine_lookup in Hk.
    destruct (hs !! (Datatypes.S i + k)%nat) as [h'|] eqn:Eh; [|discriminate].
    destruct (cells !! (Datatypes.S i + k)%nat) as [v''|] eqn:Ev;
      [|discriminate].
    injection Hk as -> ->. apply (Hlater (Datatypes.S i + k)%nat); [|exact Eh].
    apply lookup_lt_Some in Ev. lia.
  - intros Hnone. rewrite fold_insert_other; [now rewrite lookup_empty|].
    intros [h' v'] [k Hk]%list_elem_of_lookup Heq. cbn [fst] in Heq. subst h'.
    rewrite combine_lookup in Hk.
    destruct (hs !! k) as [h'|] eqn:Eh; [|discriminate].
    destruct (cells !! k) as [v''|] eqn:Ev; [|discriminate].
    injection Hk as -> ->. apply (Hnone k); [|exact Eh].
    now apply lookup_lt_Some in Ev.
Qed.

End RowCells.
(** ** Timestamps in the form the API prints *)

Section TimestampRoundTrip.

Context `{Platform}.
Import GoStrings GoTime Mapper.

(** A byte that [TrimSpace] keeps: ASCII, and not white space. *)
Definition plain (c : ascii) : bool :=
  negb (128 <=? byte_val c) && negb (asciiSpace c).

Definition allSpace (s : string) : bool :=
  forallb asciiSpace (list_ascii_of_string s).

Lemma rev_app_append (s acc : string) :
  String.rev_app s acc = String.rev s +:+ acc.
Proof.
  unfold String.rev. revert acc.
  induction s as [|c s IH]; intros acc; [reflexivity|].
  cbn [String.rev_app]. rewrite (IH (String c "")), IH.
  now rewrite append_assoc.
Qed.

Lemma rev_cons (c : ascii) (s : string) :
  String.rev (String c s) = String.rev s +:+ String c "".
Proof. unfold String.rev at 1. cbn [String.rev_app]. apply rev_app_append. Qed.

Lemma rev_append (a b : string) :
  String.rev (a +:+ b) = String.rev b +:+ String.rev a.
Proof.
  induction a as [|c a IH].
  - cbn. now rewrite append_nil_r.
  - rewrite append_cons, (rev_cons c a), (rev_cons c (a +:+ b)), IH.
    apply append_assoc.
Qed.

Lemma rev_involutive (s : string) : String.rev (String.rev s) = s.
Proof.
  induction s as [|c s IH]; [reflexivity|].
  rewrite (rev_cons c s), rev_append, IH. reflexivity.
Qed.

Fixpoint lastChar (s : string) : option ascii :=
  match s with
  | EmptyString => None
  | String c s' =>
      match lastChar s' with
      | Some z => Some z
      | None => Some c
      end
  end.

Lemma lastChar_append (s1 s2 : string) :
  lastChar (s1 +:+ s2) =
  match lastChar s2 with
  | Some z => Some z
  | None => lastChar s1
  end.
Proof.
  induction s1 as [|c s1 IH].
  - rewrite append_nil_l. cbn [lastChar]. now destruct (lastChar s2).
  - rewrite append_cons. cbn [lastChar]. rewrite IH.
    now destruct (lastChar s2), (lastChar s1).
Qed.

Lemma lastChar_snoc (s : string) (z : ascii) :
  lastChar s = Some z -> exists s0, s = s0 +:+ String z "".
Proof.
  induction s as [|c s IH]; [discriminate|]. cbn [lastChar].
  destruct (lastChar s) as [z'|] eqn:E.
  - intros [= ->]. destruct (IH eq_refl) as [s0 ->]. now exists (String c s0).
  - intros [= ->]. destruct s; [now exists ""|].
    cbn in E. destruct (lastChar s); discriminate.
Qed.

Lemma asciiSpace_ascii (c : ascii) :
  asciiSpace c = true -> (128 <=? byte_val c) = false.
Proof.
  unfold asciiSpace. cbv zeta. rewrite !orb_true_iff, !Z.eqb_eq.
  intros Hc. apply Z.leb_gt. lia.
Qed.

Lemma allSpace_append (a b : string) :
  allSpace (a +:+ b) = allSpace a && allSpace b.
Proof.
  unfold allSpace. induction a as [|c a IH]; [reflexivity|].
  rewrite append_cons. cbn [list_ascii_of_string forallb].
  now rewrite IH, andb_assoc.
Qed.

Lemma allSpace_rev (s : string) : allSpace (String.rev s) = allSpace s.
Proof.
  induction s as [|c s IH]; [reflexivity|].
  rewrite rev_cons, allSpace_append, IH. unfold allSpace.
  cbn [list_ascii_of_string forallb]. rewrite andb_true_r. apply andb_comm.
Qed.

Lemma trimRight_spaces (p r : string) :
  allSpace p = true -> trimRight_go (p +:+ r) = trimRight_go r.
Proof.
  unfold allSpace. induction p as [|c p IH]; [reflexivity|].
  cbn [list_ascii_of_string forallb]. intros [Hc Hp]%andb_true_iff.
  rewrite append_cons. cbn [trimRight_go].
  now rewrite (asciiSpace_ascii c Hc), Hc, IH.
Qed.

Lemma TrimSpace_spaces (p s : string) :
  allSpace p = true -> TrimSpace (p +:+ s) = TrimSpace s.
Proof.
  unfold allSpace. induction p as [|c p IH]; [reflexivity|].
  cbn [list_ascii_of_string forallb]. intros [Hc Hp]%andb_true_iff.
  rewrite append_cons. cbn [TrimSpace].
  now rewrite (asciiSpace_ascii c Hc), Hc, IH.
Qed.

(** [TrimSpace] takes the ASCII white space off both ends of a value that
    begins and ends with a plain byte. *)
Lemma TrimSpace_padded (pre post rest : string) (a z : ascii) :
  allSpace pre = true -> allSpace post = true ->
  plain a = true -> lastChar (String a rest) = Some z -> plain z = true ->
  TrimSpace (pre +:+ String a rest +:+ post) = String a rest.
Proof.
  intros Hpre Hpost Ha Hlast Hz. rewrite (TrimSpace_spaces _ _ Hpre).
  rewrite append_cons. cbn [TrimSpace].
  unfold plain in Ha, Hz. apply andb_true_iff in Ha as [Ha1 Ha2].
  apply andb_true_iff in Hz as [Hz1 Hz2]. apply negb_true_iff in Ha1, Ha2, Hz1, Hz2.
  rewrite Ha1, Ha2. rewrite <- append_cons, rev_append.
  rewrite trimRight_spaces by now rewrite allSpace_rev.
  destruct (lastChar_snoc _ _ Hlast) as [s0 E].
  rewrite E at 1. rewrite rev_append.
  change (String.rev (String z "")) with (String z "").
  rewrite append_cons, append_nil_l. cbn [trimRight_go]. rewrite Hz1, Hz2.
  rewrite <- (rev_involutive (String a rest)). f_equal.
  rewrite E at 1. now rewrite rev_append.
Qed.

Lemma lastChar_append_r (s1 s2 : string) (z : ascii) :
  lastChar s2 = Some z -> lastChar (s1 +:+ s2) = Some z.
Proof. intros Hz. now rewrite lastChar_append, Hz. Qed.

Lemma lastChar_cons_r (c : ascii) (s : string) (z : ascii) :
  lastChar s = Some z -> lastChar (String c s) = Some z.
Proof. intros Hz. cbn [lastChar]. now rewrite Hz. Qed.

Lemma isDigit_plain (c : ascii) : isDigit c = true -> plain c = true.
Proof.
  unfold isDigit, plain, asciiSpace. cbv zeta.
  intros [H1 H2]%andb_true_iff. apply Z.leb_le in H1, H2.
  rewrite andb_true_iff, !negb_true_iff, !orb_false_iff, !Z.eqb_neq, Z.leb_gt.
  lia.
Qed.

(** What [Format(time.RFC3339)] prints begins with a digit and ends with a
    digit or with Z. *)
Lemma FormatRFC3339_ends (ts : Time) :
  0 <= year ts <= 9999 -> - 86400 <= offset ts <= 86400 ->
  exists a rest z,
    FormatRFC3339 ts = String a rest /\ plain a = true /\
    lastChar (String a rest) = Some z /\ plain z = true.
Proof.
  intros Hy Hoff. unfold FormatRFC3339.
  destruct (four_digits (year ts)) as (a & b & c & d & -> & Hv); [lia|].
  assert (Ha : plain a = true).
  { apply isDigit_plain. cbn [digitsValue] in Hv.
    destruct (isDigit a); [reflexivity | discriminate]. }
  assert (Hzone : exists z,
             lastChar
               (if offset ts =? 0 then "Z"
                else
                  let zone := Z.quot (offset ts) 60 in
                  (if zone <? 0 then "-" else "+") +:+
                  appendInt (Z.quot (Z.abs zone) 60) 2 +:+ ":" +:+
                  appendInt (Z.rem (Z.abs zone) 60) 2) = Some z /\
             plain z = true).
  { destruct (offset ts =? 0); [exists "Z"%char; split; reflexivity|].
    cbv zeta.
    destruct (two_digits (Z.rem (Z.abs (Z.quot (offset ts) 60)) 60))
      as (m1 & m2 & -> & _ & Hm2 & _).
    { pose proof (Z.rem_bound_pos (Z.abs (Z.quot (offset ts) 60)) 60). lia. }
    exists m2. split; [|now apply isDigit_plain].
    do 3 apply lastChar_append_r. reflexivity. }
  destruct Hzone as (z & Hz & Hpz).
  eexists a, _, z. split; [reflexivity|]. split; [exact Ha|].
  split; [|exact Hpz].
  do 4 apply lastChar_cons_r. do 10 apply lastChar_append_r. exact Hz.
Qed.

(** X25. [ParseTimestamp] reads back a timestamp in the form the API
    prints it, [Format(time.RFC3339)]: for a time of whole seconds, with a
    year of four digits and a zone offset of whole minutes, the printed
    form gives the same time, zone offset included, also with ASCII white
    space around it. *)
Theorem printed_timestamp_is_read_back (ts : Time) (pre post : string) :
  wf ts -> nsec ts = 0 -> 0 <= year ts <= 9999 ->
  offset ts mod 60 = 0 -> - 86400 <= offset ts <= 86400 ->
  allSpace pre = true -> allSpace post = true ->
  ParseTimestamp (pre +:+ FormatRFC3339 ts +:+ post) = (ts, None).
Proof.
  intros Hwf Hns Hy Hm Hoff Hpre Hpost.
  destruct (FormatRFC3339_ends ts Hy Hoff) as (a & rest & z & E & Ha & Hl & Hz).
  destruct (Parse_FormatRFC3339 ts Hwf Hns Hy Hm Hoff) as [Hparse _].
  unfold ParseTimestamp.
  assert (Hne : String.eqb (pre +:+ FormatRFC3339 ts +:+ post) "" = false).
  { rewrite E. destruct pre; reflexivity. }
  rewrite Hne. cbv zeta. rewrite E at 1.
  rewrite (TrimSpace_padded pre post rest a z Hpre Hpost Ha Hl Hz), <- E.
  cbn [timestampFormats firstParse]. now rewrite Hparse.
Qed.

End TimestampRoundTrip.

(** ** The properties on the sample inputs *)

Section MapperWitnesses.

Local Existing Instance samplePlatform.
Import Mapper.

Lemma FindHeader_first_matching_pattern_witness :
  match FindHeader (NewHeaderMapper ["Timestamp"; "Engine No"; "RPM"])
                   ["speed"; "rpm"] 0 with
  | (col, true, _) =>
      col ∈ ["Timestamp"; "Engine No"; "RPM"] /\
      exists ps1 p ps2,
        ["speed"; "rpm"] = ps1 ++ p :: ps2 /\
        GoStrings.Contains (normalizeHeader col) p = true /\
        forall h q, h ∈ ["Timestamp"; "Engine No"; "RPM"] -> q ∈ ps1 ->
                    GoStrings.Contains (normalizeHeader h) q = false
  | (col, false, _) =>
      col = "" /\
      forall h q, h ∈ ["Timestamp"; "Engine No"; "RPM"] ->
                  q ∈ ["speed"; "rpm"] ->
                  GoStrings.Contains (normalizeHeader h) q = false
  end.
Proof.
  apply (FindHeader_first_matching_pattern
           ["Timestamp"; "Engine No"; "RPM"] ["speed"; "rpm"] 0).
  intros k l. reflexivity.
Defined.

(** The lookup of the witness: the column "RPM", for the second pattern. *)
Example FindHeader_rpm :
  FindHeader (NewHeaderMapper ["Timestamp"; "Engine No"; "RPM"])
             ["speed"; "rpm"] 0 = ("RPM", true, 1%nat).
Proof. vm_compute. reflexivity. Qed.

Lemma header_found_by_its_normalized_name_witness :
  FindHeader (NewHeaderMapper (["Engine No"] ++ "Oil Pressure" :: ["RPM"]))
             (normalizeHeader "Oil Pressure" :: ["pressure"]) 0
  = ("Oil Pressure", true, 0%nat).
Proof.
  apply (header_found_by_its_normalized_name ["Engine No"] ["RPM"]
           "Oil Pressure" ["pressure"] 0).
  intros h' Hh'. apply list_elem_of_singleton in Hh' as ->.
  vm_compute. discriminate.
Defined.

Lemma pattern_with_space_or_hyphen_matches_nothing_witness :
  (forall h, GoStrings.Contains (normalizeHeader h) "Tank ID" = false) /\
  (forall hs, headers (NewHeaderMapper hs) !! "Tank ID" = None).
Proof.
  apply (pattern_with_space_or_hyphen_matches_nothing "Tank ID").
  left. vm_compute. reflexivity.
Defined.

Lemma timestamp_without_zone_is_utc_witness :
  GoTime.Parse GoTime.RFC3339 (GoStrings.TrimSpace "2025-08-08 10:30:00") =
    Some (GoTime.Date 2025 8 8 10 30 0 0 0) \/
  GoTime.Parse GoTime.RFC3339 (GoStrings.TrimSpace "2025-08-08 10:30:00") = None /\
  GoTime.offset (GoTime.Date 2025 8 8 10 30 0 0 0) = 0.
Proof.
  apply (timestamp_without_zone_is_utc "2025-08-08 10:30:00").
  vm_compute. reflexivity.
Defined.

Lemma printed_timestamp_is_read_back_witness :
  ParseTimestamp (" " +:+ GoTime.FormatRFC3339 (GoTime.Date 2025 8 8 12 30 0 0 7200) +:+ "  ")
  = (GoTime.Date 2025 8 8 12 30 0 0 7200, None).
Proof.
  apply (printed_timestamp_is_read_back (GoTime.Date 2025 8 8 12 30 0 0 7200) " " "  ").
  - unfold GoTime.wf. cbn. lia.
  - reflexivity.
  - cbn. lia.
  - reflexivity.
  - cbn. lia.
  - reflexivity.
  - reflexivity.
Defined.

End MapperWitnesses.

Section IngestWitnesses.

Local Existing Instance samplePlatform.
Import Ingest.

Definition responseOf (r : ProcessResult) : IngestResponse :=
  match r with
  | ProcessReturn (Some resp) None => resp
  | _ => {| Status := ""; UploadID := None; VesselID := None;
            RowsInserted := ∅; Warnings := [] |}
  end.

(** The sample file, ingested into the empty database: the answer is
    "ingested" for the vessel 1, with two engine rows. *)
Lemma sample_ingestion :
  let out := ProcessFile "file-1" "telemetry.xlsx" "2222222" ""
                         (Some referenceTS) referenceTS emptyWorld in
  fst out = ProcessReturn (Some (responseOf (fst out))) None /\
  Status (responseOf (fst out)) = "ingested" /\
  VesselID (responseOf (fst out)) = Some 1 /\
  RowsInserted (responseOf (fst out)) !! "engines" = Some 2.
Proof. vm_compute. repeat split. Qed.

Lemma failed_ingestion_writes_nothing_witness :
  let out := ProcessFile "broken" "telemetry.xlsx" "2222222" "" None
                         referenceTS emptyWorld in
  match fst out with
  | ProcessReturn (Some _) None => True
  | _ => db (snd out) = db emptyWorld
  end.
Proof.
  apply (failed_ingestion_writes_nothing "broken" "telemetry.xlsx" "2222222" ""
           None referenceTS emptyWorld).
  constructor.
Defined.

Lemma ingestion_with_identifier_returns_witness :
  match fst (ProcessFile "file-1" "telemetry.xlsx" "2222222" ""
                         (Some referenceTS) referenceTS emptyWorld) with
  | ProcessReturn (Some _) None | ProcessReturn None (Some _) => True
  | _ => False
  end.
Proof.
  apply (ingestion_with_identifier_returns "file-1" "telemetry.xlsx" "2222222"
           "" (Some referenceTS) referenceTS emptyWorld).
  - constructor.
  - left. discriminate.
Defined.

Lemma ingested_response_witness :
  let out := ProcessFile "file-1" "telemetry.xlsx" "2222222" ""
                         (Some referenceTS) referenceTS emptyWorld in
  let resp := responseOf (fst out) in
  (Status resp = "already_ingested" /\
   UploadID resp =
     Store.selectUploadByHash (db emptyWorld) (Util.SHA256Hex "file-1") /\
   is_Some (UploadID resp))
  \/
  (Status resp = "ingested" /\ UploadID resp = Some 1 /\
   Store.selectUploadByHash (db emptyWorld) (Util.SHA256Hex "file-1") = None /\
   Store.uploads (db (snd out)) = Store.uploads (db emptyWorld) /\
   (exists id, VesselID resp = Some id /\
               Store.vesselExists (db (snd out)) id = true) /\
   forall k, is_Some (RowsInserted resp !! k) ->
             k ∈ ["location"; "engines"; "fuel"; "generators"; "cctv"; "impact"]).
Proof.
  intros out resp.
  apply (ingested_response "file-1" "telemetry.xlsx" "2222222" ""
           (Some referenceTS) referenceTS emptyWorld resp).
  - constructor.
  - exact (proj1 sample_ingestion).
Defined.

Lemma latest_is_upload_time_witness :
  Store.vessel_stream_latest
    (db (snd (ProcessFile "file-1" "telemetry.xlsx" "2222222" ""
                          (Some referenceTS) referenceTS emptyWorld)))
    !! (1, "engines") = Some referenceTS.
Proof.
  destruct sample_ingestion as (Hout & Hstatus & Hid & Hcount).
  apply (latest_is_upload_time "file-1" "telemetry.xlsx" "2222222" ""
           (Some referenceTS) referenceTS emptyWorld _ 1 "engines" 2
           (List.Forall_nil _) Hout Hstatus Hid Hcount).
  reflexivity.
Defined.

Lemma added_readings_belong_to_the_vessel_witness :
  addedFor 1 (db emptyWorld)
    (db (snd (ProcessFile "file-1" "telemetry.xlsx" "2222222" ""
                          (Some referenceTS) referenceTS emptyWorld))).
Proof.
  destruct sample_ingestion as (Hout & _ & Hid & _).
  exact (added_readings_belong_to_the_vessel "file-1" "telemetry.xlsx"
           "2222222" "" (Some referenceTS) referenceTS emptyWorld _ 1
           (List.Forall_nil _) Hout Hid).
Defined.

Lemma sheet_rows_are_accounted_for_witness :
  let n := 2 in
  let sums (out : Z * list string) :=
    fst out + Z.of_nat (length (snd out)) = n in
  sums (fst (processEngineSheet bareWorkbook "Engines" 1 referenceTS oneVessel)) /\
  sums (fst (processFuelSheet bareWorkbook "Engines" 1 referenceTS oneVessel)) /\
  sums (fst (processGeneratorSheet bareWorkbook "Engines" 1 referenceTS
               oneVessel)) /\
  fst (processCCTVSheet bareWorkbook "Engines" 1 referenceTS oneVessel)
    = (n, []) /\
  fst (processImpactSheet bareWorkbook "Engines" 1 referenceTS oneVessel)
    = (n, []).
Proof.
  apply (sheet_rows_are_accounted_for bareWorkbook "Engines" 1 referenceTS
           oneVessel ["Timestamp"; "Engine"; "RPM"]
           ["2025-08-08T10:00:00Z"; "1"; "1500"]
           [["2025-08-08T11:00:00Z"; "1"; "-5"]]).
  - reflexivity.
  - reflexivity.
Defined.

(** The two rows of the witness: one is inserted, one has a warning. *)
Example engine_rows_counted_or_warned :
  fst (processEngineSheet bareWorkbook "Engines" 1 referenceTS oneVessel) =
  (1, ["row 3 engines: negative rpm"]).
Proof. vm_compute. reflexivity. Qed.

Lemma sheet_without_data_is_an_error_witness :
  let answer := ((0, ["error reading " +:+ "CCTV" +:+ " sheet"]), oneVessel) in
  processEngineSheet bareWorkbook "CCTV" 1 referenceTS oneVessel = answer /\
  processFuelSheet bareWorkbook "CCTV" 1 referenceTS oneVessel = answer /\
  processGeneratorSheet bareWorkbook "CCTV" 1 referenceTS oneVessel = answer /\
  processCCTVSheet bareWorkbook "CCTV" 1 referenceTS oneVessel = answer /\
  processImpactSheet bareWorkbook "CCTV" 1 referenceTS oneVessel = answer.
Proof.
  apply (sheet_without_data_is_an_error bareWorkbook "CCTV" 1 referenceTS
           oneVessel).
  intros hs r1 rest. vm_compute. discriminate.
Defined.

Lemma sheet_processed_again_adds_nothing_witness :
  let first := processEngineSheet bareWorkbook "Engines" 1 referenceTS
                 oneVessel in
  let second := processEngineSheet bareWorkbook "Engines" 1 referenceTS
                  (snd first) in
  fst second = fst first /\ db (snd second) = db (snd first).
Proof.
  apply (@sheet_processed_again_adds_nothing samplePlatform
           (fun n m l => eq_refl) processEngineSheet bareWorkbook "Engines" 1 referenceTS oneVessel).
  left. reflexivity.
Defined.

Lemma same_file_again_adds_no_reading_witness :
  let first := ProcessFile "file-1" "telemetry.xlsx" "2222222" ""
                 (Some referenceTS) referenceTS emptyWorld in
  let second := ProcessFile "file-1" "telemetry.xlsx" "2222222" ""
                  (Some referenceTS) (GoTime.Date 2025 8 9 7 0 0 0 0)
                  (snd first) in
  (exists resp, fst first = ProcessReturn (Some resp) None) /\
  fst second = fst first /\
  readings (db (snd second)) = readings (db (snd first)).
Proof.
  apply (@same_file_again_adds_no_reading samplePlatform
           (fun n m l => eq_refl) "file-1" "telemetry.xlsx" "2222222" ""
           (Some referenceTS) referenceTS (GoTime.Date 2025 8 9 7 0 0 0 0)
           emptyWorld sampleWorkbook
           ["IMO"; "Name"; "Flag"; "Latitude"; "Longitude"; "Owner"]
           ["1111111"; "Ever Given"; "PA"; "95.0"; "10.5"; "ACME"]).
  - constructor.
  - reflexivity.
  - reflexivity.
  - discriminate.
  - reflexivity.
Defined.

End IngestWitnesses.

Section BareWitnesses.

Local Existing Instance barePlatform.
Import Ingest.

Lemma known_imo_without_ship_info_is_refused_witness :
  ProcessFile "file-2" "engines.xlsx" "2222222" "" None referenceTS oneVessel =
  (ProcessReturn None
     (Some (Errorf ("error processing ship info: " +:+
                    "UNIQUE constraint failed: vessels.imo"))), oneVessel).
Proof.
  apply (known_imo_without_ship_info_is_refused "file-2" "engines.xlsx"
           "2222222" "" None referenceTS oneVessel bareWorkbook).
  - reflexivity.
  - reflexivity.
  - vm_compute. reflexivity.
  - discriminate.
  - exists 1. vm_compute. reflexivity.
Defined.

Lemma vessel_by_name_is_inserted_each_time_witness :
  let first := processShipInfo bareWorkbook "" "Ever Given" referenceTS
                 emptyWorld in
  let second := processShipInfo bareWorkbook "" "Ever Given" referenceTS
                  (snd first) in
  let id := Store.nextVesselID (db emptyWorld) in
  let row i := {| Store.v_id := i; Store.v_imo := None;
                  Store.v_name := "Ever Given"; Store.v_flag := None;
                  Store.v_type := None |} in
  fst first = ShipInfoReturn id 0 [] None /\
  fst second = ShipInfoReturn (id + 1) 0 [] None /\
  Store.vessels (db (snd second)) =
    Store.vessels (db emptyWorld) ++ [row id; row (id + 1)].
Proof.
  apply (vessel_by_name_is_inserted_each_time bareWorkbook "Ever Given"
           referenceTS referenceTS emptyWorld).
  - vm_compute. reflexivity.
  - discriminate.
Defined.

End BareWitnesses.

Section CameraWitnesses.

Local Existing Instance cameraPlatform.
Import Ingest.

Lemma count_is_of_the_last_sheet_witness :
  let out := ProcessFile "file-3" "cctv.xlsx" "2222222" "" None referenceTS
                         emptyWorld in
  RowsInserted (responseOf (fst out)) !! "cctv" =
  Some (dataRows cameraWorkbook "CCTV aft").
Proof.
  apply (count_is_of_the_last_sheet "file-3" "cctv.xlsx" "2222222" "" None
           referenceTS emptyWorld cameraWorkbook _ ["CCTV fore"] ["Impact"]
           "CCTV aft" "cctv").
  - constructor.
  - reflexivity.
  - vm_compute. reflexivity.
  - vm_compute. reflexivity.
  - reflexivity.
  - left. reflexivity.
  - vm_compute. reflexivity.
  - intros s [<-|[]]. vm_compute. discriminate.
Defined.

(** The two CCTV sheets hold three rows, all stored; the answer counts
    the row of the second sheet. *)
Example camera_rows_stored_and_counted :
  let out := ProcessFile "file-3" "cctv.xlsx" "2222222" "" None referenceTS
                         emptyWorld in
  length (Store.cctv_status_readings (db (snd out))) = 3%nat /\
  RowsInserted (responseOf (fst out)) !! "cctv" = Some 1.
Proof. vm_compute. split; reflexivity. Qed.

End CameraWitnesses.

Section HandlerWitnesses.

Local Existing Instance samplePlatform.
Import Ingest Api.

Lemma sampleDriver_honours_limit (query : string) (args : list SqlValue)
    (n : Z) (rows : list ResultRow) :
  0 <= n ->
  sampleDriver (query +:+ " ORDER BY ts, id LIMIT ?") (args ++ [SqlInt n])
    = inr rows ->
  Z.of_nat (length rows) <= n.
Proof.
  intros Hn. unfold sampleDriver. rewrite last_snoc. intros [= <-].
  rewrite length_firstn. lia.
Qed.

Lemma telemetry_page_has_no_next_cursor_witness :
  match GetVesselTelemetry sampleDriver telemetryRequest with
  | Respond status (PageBody items nextCursor) =>
      status = 200 /\ nextCursor = None /\
      Z.of_nat (length items) <= telemetryLimit telemetryRequest <= 1000
  | Respond status (ErrorBody _) => status = 400 \/ status = 500
  | _ => False
  end.
Proof.
  apply (telemetry_page_has_no_next_cursor sampleDriver telemetryRequest).
  exact sampleDriver_honours_limit.
Defined.

(** The page of the witness: the stream has three rows and the limit is
    two; the page has the first two rows and no cursor for the third. *)
Example telemetry_page_of_two :
  GetVesselTelemetry sampleDriver telemetryRequest =
  Respond 200 (PageBody [sampleReading 1 10; sampleReading 2 11] None).
Proof. vm_compute. reflexivity. Qed.

Lemma unreadable_filter_is_dropped_witness :
  GetVesselTelemetry sampleDriver filteredRequest =
    GetVesselTelemetry sampleDriver (withoutQuery "from" filteredRequest) /\
  GetVesselLatest (fun _ _ => NoRows) filteredRequest =
    GetVesselLatest (fun _ _ => NoRows) (withoutQuery "from" filteredRequest).
Proof.
  apply (unreadable_filter_is_dropped sampleDriver (fun _ _ => NoRows)
           filteredRequest "from").
  left. split; [left; reflexivity | vm_compute; reflexivity].
Defined.

Lemma latest_is_for_engines_only_witness :
  (forall vesselID,
      is_Some (streamQuery fuelRequest (Query fuelRequest "stream") vesselID)) /\
  GetVesselLatest (fun _ _ => NoRows) fuelRequest =
  Respond 400
    (ErrorBody
       (match Strconv.ParseInt (Params fuelRequest "id") with
        | inl _ => "invalid vessel id"
        | inr _ => "stream not implemented for latest endpoint"
        end)).
Proof.
  apply (latest_is_for_engines_only (fun _ _ => NoRows) fuelRequest).
  left. reflexivity.
Defined.

(** The answer of the witness, computed. *)
Example latest_of_fuel :
  GetVesselLatest (fun _ _ => NoRows) fuelRequest =
  Respond 400 (ErrorBody "stream not implemented for latest endpoint").
Proof. vm_compute. reflexivity. Qed.

Lemma ingest_handler_answers_witness :
  let out := PostIngestXLSX false ingestRequest referenceTS emptyWorld in
  Store.uploads (db (snd out)) = [] /\
  match fst out with
  | Respond status (IngestBody resp) =>
      status = 200 /\ Status resp = "ingested" /\ UploadID resp = Some 1
  | Respond status (ErrorBody _) =>
      (status = 400 \/ status = 500) /\ db (snd out) = db emptyWorld
  | _ => False
  end.
Proof.
  apply (ingest_handler_answers false ingestRequest referenceTS emptyWorld).
  - constructor.
  - reflexivity.
Defined.

Lemma reported_upload_is_not_found_witness :
  let w' := snd (PostIngestXLSX false ingestRequest referenceTS emptyWorld) in
  (Params uploadRequest "id" = "1" ->
   fst (GetUpload uploadRequest w') = Respond 404 (ErrorBody "upload not found"))
  /\
  (fst (GetUpload uploadRequest w') = Respond 404 (ErrorBody "upload not found")
   \/
   fst (GetUpload uploadRequest w') = Respond 400 (ErrorBody "invalid upload id")).
Proof.
  apply (reported_upload_is_not_found false ingestRequest referenceTS
           emptyWorld uploadRequest).
  reflexivity.
Defined.

End HandlerWitnesses.
